(** * The 2D-to-VR180 conversion pipeline of [app/services/video_conversion.py]

    A shallow embedding of [VideoProcessingService] and the properties its
    specification states about it.

    Conventions of the embedding.
    - Python integers are [Z] (indices and counts that are never negative
      are [N]); strings are [string]; a dictionary is a [gmap].
    - A Python exception is a value of [exn]; a function that may raise
      returns a [result].
    - The float arithmetic of the encoder and of the depth estimator is
      IEEE 754 arithmetic on [spec_float] (binary64 for Python floats,
      binary32 for the tensors of the depth model), evaluated exactly.
    - Progress percentages and the depth values read by the stereo
      synthesizer are the rationals the floats denote, with exact
      arithmetic. For the synthesizer [stereo_views_binary64_exact]
      shows that binary64 arithmetic (the product of a binary32 depth
      value and a Python integer) computes the same views.
    - A stage's [try: ... except Exception as e: log; raise] is the
      stage itself: logging changes nothing the properties speak of.

    Beside the pipeline the file embeds the attributes of the service
    and the depth estimator that reads them ([Estimator]), the reading
    of the probe's answer ([Probe]), and helpers the platform keeps in
    [app/utils/helpers.py] and [app/utils/validators.py] ([Helpers],
    [Text], [Files], [Validators], [Timing]). *)

From Stdlib Require Import ZArith NArith QArith Qround Lia String Ascii List.
From Stdlib Require Import SpecFloat.
From stdpp Require Import base option list strings gmap sorting.

Local Open Scope Z_scope.

(** ** Python values: exceptions, numbers, formatting *)

Module Py.

(** An exception: its class name and [str(e)]. *)
Record exn := Exn { exn_kind : string; exn_msg : string }.

Inductive result (A : Type) : Type :=
  | Ok (a : A)
  | Raise (e : exn).
Arguments Ok {A} a.
Arguments Raise {A} e.

Definition bind {A B} (r : result A) (k : A -> result B) : result B :=
  match r with
  | Ok a => k a
  | Raise e => Raise e
  end.

(** Python's [float] is binary64. *)
Definition prec := 53.
Definition emax := 1024.

(** [float(n)] for an integer [n]: the nearest binary64, [OverflowError]
    beyond the finite range. *)
Definition float_of_int (n : Z) : result spec_float :=
  match binary_normalize prec emax n 0 false with
  | S754_infinity _ => Raise (Exn "OverflowError" "int too large to convert to float")
  | f => Ok f
  end.

(** [int(x)] for a float [x]: truncation toward zero. *)
Definition int_of_float (x : spec_float) : result Z :=
  match x with
  | S754_zero _ => Ok 0
  | S754_finite s m e =>
      let a := if 0 <=? e then Zpos m * 2 ^ e else Zpos m / 2 ^ (- e) in
      Ok (if s then - a else a)
  | S754_infinity _ =>
      Raise (Exn "OverflowError" "cannot convert float infinity to integer")
  | S754_nan => Raise (Exn "ValueError" "cannot convert float NaN to integer")
  end.

(** [a / b] for integers: true division. *)
Definition int_truediv (a b : Z) : result spec_float :=
  if b =? 0 then Raise (Exn "ZeroDivisionError" "division by zero")
  else
    bind (float_of_int a) (fun fa =>
    bind (float_of_int b) (fun fb => Ok (SFdiv prec emax fa fb))).

(** [n * x] for an integer [n] and a float [x]. *)
Definition int_mul_float (n : Z) (x : spec_float) : result spec_float :=
  bind (float_of_int n) (fun fn => Ok (SFmul prec emax fn x)).

(** The literal [0.05]: the binary64 nearest to 1/20,
    [0x1.999999999999ap-5]. *)
Definition float_0_05 : spec_float := S754_finite false 7205759403792794 (-57).

(** Decimal digits of a natural number, least significant first. *)
Fixpoint digits_le (fuel : nat) (n : N) : list N :=
  match fuel with
  | O => []
  | S fuel' =>
      if (n <? 10)%N then [n]
      else (n mod 10)%N :: digits_le fuel' (n / 10)%N
  end.

Definition digits (n : N) : list N :=
  rev (digits_le (S (N.to_nat (N.log2 n))) n).

Definition digit_char (d : N) : ascii := ascii_of_N (48 + d).

Definition string_of_digits (ds : list N) : string :=
  string_of_list_ascii (map digit_char ds).

(** [str(n)], also [f"{n}"]. *)
Definition str_int (n : Z) : string :=
  match n with
  | Zneg p => String "-" (string_of_digits (digits (Npos p)))
  | _ => string_of_digits (digits (Z.to_N n))
  end.

(** [f"{n:06d}"] for [n >= 0]: at least six digits, padded with zeros on
    the left. *)
Definition format_06d (n : N) : string :=
  let ds := digits n in
  string_of_digits (replicate (6 - length ds) 0%N ++ ds).

(** [s.endswith(suffix)]. *)
Definition endswith (s suffix : string) : bool :=
  let n := String.length s in
  let k := String.length suffix in
  (k <=? n)%nat && String.eqb (substring (n - k) k s) suffix.

(** [round(x)] of the specification, on a float: the nearest integer,
    ties to the even one. *)
Definition round_of_float (x : spec_float) : result Z :=
  match x with
  | S754_zero _ => Ok 0
  | S754_finite s m e =>
      let a :=
        if 0 <=? e then Zpos m * 2 ^ e
        else
          let q := Zpos m / 2 ^ (- e) in
          let r := Zpos m mod 2 ^ (- e) in
          match 2 * r ?= 2 ^ (- e) with
          | Lt => q
          | Gt => q + 1
          | Eq => if Z.even q then q else q + 1
          end in
      Ok (if s then - a else a)
  | S754_infinity _ =>
      Raise (Exn "OverflowError" "cannot convert float infinity to integer")
  | S754_nan => Raise (Exn "ValueError" "cannot convert float NaN to integer")
  end.

End Py.

Export Py.

(** ** The models the service reads *)

Module Models.

(** [ConversionSettings] of [app/models/video_models.py]. *)
Record ConversionSettings := {
  resolution : string;
  quality : string;
  frame_rate : Z;
  bitrate : option Z;
  stereo_mode : string;
  depth_estimation_model : string
}.

(** The state of a [VideoProcessingService]: the lazily chosen device and
    whether the depth model has been loaded. *)
Record Service := {
  _device : option string;
  _midas_model_loaded : bool
}.

End Models.

Export Models.

(** ** The frame encoder's parameter tables *)

Module Encoder.

(** [_get_output_resolution]: the dictionary and its [get] with a default. *)
Definition resolutions : gmap string (Z * Z) :=
  <["720p" := (1280, 720)]>
  (<["1080p" := (1920, 1080)]>
  (<["1440p" := (2560, 1440)]>
  (<["4K" := (3840, 2160)]> ∅))).

Definition _get_output_resolution (resolution : string) : Z * Z :=
  default (1920, 1080) (resolutions !! resolution).

Definition base_bitrates : gmap string Z :=
  <["low" := 1000]>
  (<["medium" := 2500]>
  (<["high" := 5000]>
  (<["ultra" := 10000]> ∅))).

(** [_get_bitrate]. *)
Definition _get_bitrate (quality : string) (width height : Z) : result string :=
  let base_bitrate := default 2500 (base_bitrates !! quality) in
  bind (int_truediv (width * height) (1920 * 1080)) (fun resolution_factor =>
  bind (int_mul_float base_bitrate resolution_factor) (fun x =>
  bind (int_of_float x) (fun n =>
  Ok (str_int n +:+ "k")))).

(** The two tables as the specification lists them. *)
Definition table_resolution (resolution : string) : Z * Z :=
  if String.eqb resolution "720p" then (1280, 720)
  else if String.eqb resolution "1080p" then (1920, 1080)
  else if String.eqb resolution "1440p" then (2560, 1440)
  else if String.eqb resolution "4K" then (3840, 2160)
  else (1920, 1080).

Definition table_base_bitrate (quality : string) : Z :=
  if String.eqb quality "low" then 1000
  else if String.eqb quality "medium" then 2500
  else if String.eqb quality "high" then 5000
  else if String.eqb quality "ultra" then 10000
  else 2500.

(** The bitrate the specification's words give: the exact quotient
    rounded to the nearest integer. *)
Definition spec_round_div (a b : Z) : Z := (2 * a + b) / (2 * b).

Definition spec_bitrate (quality resolution : string) : string :=
  let '(w, h) := table_resolution resolution in
  let base := table_base_bitrate quality in
  str_int (spec_round_div (base * (w * h)) (1920 * 1080)) +:+ "k".

(** The bitrate [_generate_vr180_video] passes to the encoder. *)
Definition effective_bitrate (quality resolution : string) : result string :=
  let '(output_width, output_height) := _get_output_resolution resolution in
  _get_bitrate quality output_width output_height.

End Encoder.

(** ** The depth estimator's normalization *)

Module Depth.

(** The tensors of the depth model hold binary32 values. *)
Definition prec32 := 24.
Definition emax32 := 128.

Definition depth_map := list (list spec_float).

(** [min] and [max] of two array elements as numpy reduces them: a NaN
    operand is the result. *)
Definition np_minimum (a b : spec_float) : spec_float :=
  match a, b with
  | S754_nan, _ => S754_nan
  | _, S754_nan => S754_nan
  | _, _ => if SFleb a b then a else b
  end.

Definition np_maximum (a b : spec_float) : spec_float :=
  match a, b with
  | S754_nan, _ => S754_nan
  | _, S754_nan => S754_nan
  | _, _ => if SFleb b a then a else b
  end.

(** [a.min()] and [a.max()] over all elements; an empty array has none. *)
Definition np_reduce (op : spec_float -> spec_float -> spec_float)
    (name : string) (a : depth_map) : result spec_float :=
  match concat a with
  | [] =>
      Raise (Exn "ValueError"
        ("zero-size array to reduction operation " +:+ name +:+
         " which has no identity"))
  | x :: xs => Ok (fold_left op xs x)
  end.

Definition np_min := np_reduce np_minimum "minimum".
Definition np_max := np_reduce np_maximum "maximum".

(** Line 271: [(depth_map - depth_map.min()) / (depth_map.max() -
    depth_map.min())], the scalars broadcast over the array. *)
Definition normalize (raw : depth_map) : result depth_map :=
  bind (np_min raw) (fun lo =>
  bind (np_max raw) (fun hi =>
  bind (np_min raw) (fun lo' =>
  let range := SFsub prec32 emax32 hi lo' in
  Ok (map (map (fun x => SFdiv prec32 emax32 (SFsub prec32 emax32 x lo) range))
        raw)))).

(** What line 299 of the synthesizer computes from a depth value of the
    map: [int(depth_value * max_shift)], the product taken in binary64. *)
Definition shift_of_depth (depth_value : spec_float) (max_shift : Z) : result Z :=
  bind (float_of_int max_shift) (fun m =>
  int_of_float (SFmul prec emax depth_value m)).

(** The rational a finite float denotes. *)
Definition Qvalue (x : spec_float) : Q :=
  match x with
  | S754_finite s m e =>
      let v := if s then Zneg m else Zpos m in
      if 0 <=? e then inject_Z (v * 2 ^ e) else v # Z.to_pos (2 ^ (- e))
  | _ => 0
  end.

Definition is_nan (x : spec_float) : bool :=
  match x with S754_nan => true | _ => false end.

Definition is_finite (x : spec_float) : bool :=
  match x with S754_zero _ | S754_finite _ _ _ => true | _ => false end.

(** A depth value as normalization is meant to leave it: a binary32
    between 0 and 1. *)
Definition unit_binary32 (d : spec_float) : Prop :=
  valid_binary prec32 emax32 d = true /\ is_finite d = true /\
  (0 <= Qvalue d)%Q /\ (Qvalue d <= 1)%Q.

(** The binary32 value 1.0. *)
Definition one32 : spec_float := S754_finite false 8388608 (-23).
Definition two32 : spec_float := S754_finite false 8388608 (-22).
Definition three32 : spec_float := S754_finite false 12582912 (-22).

End Depth.

(** ** The stereo synthesizer *)

Module Stereo.

(** [int(q)]: truncation toward zero. *)
Definition Qint (q : Q) : Z := Z.quot (Qnum q) (Zpos (Qden q)).


(** The value of the literal [0.05], a binary64. *)
Definition lit_0_05 : Q := 3602879701896397 # 72057594037927936.

(** Line 294: [max_shift = int(width * 0.05)]. *)
Definition max_shift (width : Z) : Z := Qint (inject_Z width * lit_0_05).

(** The same line in binary64 arithmetic. *)
Definition max_shift_binary64 (width : Z) : result Z :=
  bind (int_mul_float width float_0_05) int_of_float.

(** Whether the two agree on a width, and a check over a range. *)
Definition max_shift_agrees (width : Z) : bool :=
  match max_shift_binary64 width with
  | Ok n => n =? max_shift width
  | Raise _ => false
  end.

Fixpoint all_below (n : nat) (start : Z) (f : Z -> bool) : bool :=
  match n with
  | O => true
  | S n' => f start && all_below n' (start + 1) f
  end.

(** Line 299: [shift = int(depth_value * max_shift)]. *)
Definition shift_of (depth_value : Q) (max_shift : Z) : Z :=
  Qint (depth_value * inject_Z max_shift).


Definition IndexError : exn := Exn "IndexError" "index out of bounds".

(** An index into an axis of length [n]: a negative one counts from the
    end. *)
Definition np_index (n : nat) (i : Z) : result nat :=
  if (0 <=? i) && (i <? Z.of_nat n) then Ok (Z.to_nat i)
  else if (- Z.of_nat n <=? i) && (i <? 0) then Ok (Z.to_nat (i + Z.of_nat n))
  else Raise IndexError.

Section Arrays.
Context {A : Type}.

(** [a[y, x]]. *)
Definition get2d (a : list (list A)) (y : nat) (x : Z) : result A :=
  match a !! y with
  | None => Raise IndexError
  | Some row =>
      bind (np_index (length row) x) (fun j =>
      match row !! j with
      | Some v => Ok v
      | None => Raise IndexError
      end)
  end.

(** [a[y, x] = v]. *)
Definition set2d (a : list (list A)) (y : nat) (x : Z) (v : A)
    : result (list (list A)) :=
  match a !! y with
  | None => Raise IndexError
  | Some row =>
      bind (np_index (length row) x) (fun j =>
      Ok (<[y := <[j := v]> row]> a))
  end.

(** [height, width = a.shape[:2]]. *)
Definition height (a : list (list A)) : nat := length a.
Definition width (a : list (list A)) : nat :=
  match a with
  | [] => O
  | row :: _ => length row
  end.

(** [np.hstack] and [np.vstack] of two arrays. *)
Definition hstack (a b : list (list A)) : list (list A) :=
  zip_with app a b.
Definition vstack (a b : list (list A)) : list (list A) := a ++ b.

(** A [for] loop over a list with a body that may raise. *)
Fixpoint for_each {I S : Type} (body : I -> S -> result S) (l : list I)
    (s : S) : result S :=
  match l with
  | [] => Ok s
  | i :: l' => bind (body i s) (for_each body l')
  end.
End Arrays.

Section Synthesizer.
Context {pixel : Type}.

Local Abbreviation image := (list (list pixel)).

(** The loops of lines 296 to 307. The type of the depth values and
    line 299, which computes the shift from one, are parameters: the
    same loops serve the exact arithmetic, binary64 and the
    specification's [round]. *)
Section Loop.
Context {D : Type}.
Variable shift_fn : D -> Z -> result Z.
Variables (frame : image) (depth_map : list (list D)).
Variable mshift : Z.
Variable w : Z.

(** Lines 298 to 307, the body of the inner loop; the state is
    [(left_view, right_view)]. *)
Definition pixel_body (y x : nat) (views : image * image)
    : result (image * image) :=
  let '(left_view, right_view) := views in
  bind (get2d depth_map y (Z.of_nat x)) (fun depth_value =>
  bind (shift_fn depth_value mshift) (fun shift =>
  bind (if Z.of_nat x + shift <? w
        then bind (get2d frame y (Z.of_nat x))
               (set2d right_view y (Z.of_nat x + shift))
        else Ok right_view) (fun right_view' =>
  bind (if 0 <=? Z.of_nat x - shift
        then bind (get2d frame y (Z.of_nat x))
               (set2d left_view y (Z.of_nat x - shift))
        else Ok left_view) (fun left_view' =>
  Ok (left_view', right_view'))))).

(** Lines 296 to 307. *)
Definition row_body (y : nat) (views : image * image)
    : result (image * image) :=
  for_each (pixel_body y) (seq 0 (Z.to_nat w)) views.

Definition displace (h : nat) : result (image * image) :=
  for_each row_body (seq 0 h) (frame, frame).
End Loop.

(** Lines 287 to 307: the left and the right view. *)
Definition stereo_views (frame : image) (depth_map : list (list Q))
    : result (image * image) :=
  let h := height frame in
  let w := Z.of_nat (width frame) in
  displace (fun d m => Ok (shift_of d m)) frame depth_map (max_shift w) w h.

(** The same lines in binary64, on a depth map of binary32 values. *)
Definition stereo_views_binary64 (frame : image)
    (depth_map : list (list spec_float)) : result (image * image) :=
  let h := height frame in
  let w := Z.of_nat (width frame) in
  bind (max_shift_binary64 w) (fun max_shift =>
  displace Depth.shift_of_depth frame depth_map max_shift w h).


(** [_generate_stereo_pair]. *)
Definition _generate_stereo_pair (self : Service) (frame : image)
    (depth_map : list (list Q)) (settings : ConversionSettings)
    : result image :=
  bind (stereo_views frame depth_map) (fun '(left_view, right_view) =>
  if String.eqb (stereo_mode settings) "side-by-side"
  then Ok (hstack left_view right_view)
  else Ok (vstack left_view right_view)).

(** Shapes: [h] rows of [w] entries. *)
Definition has_shape {B : Type} (h w : nat) (a : list (list B)) : Prop :=
  length a = h /\ Forall (fun row => length row = w) a.

Definition in_unit (depth_map : list (list Q)) : Prop :=
  Forall (Forall (fun d : Q => (0 <= d)%Q /\ (d <= 1)%Q)) depth_map.

(** [a[y][x]] where it exists. *)
Definition at2 {B : Type} (a : list (list B)) (y x : nat) : option B :=
  a !! y ≫= (.!! x).

(** Forward splat with last-write-wins, for one destination: [v] is the
    source pixel of the last column [x] among the first [k] whose
    destination [x + dir * shifts x] is [c]; without such a column it
    is the source pixel at [c] itself. [dir] is [1] for the right view
    and [-1] for the left view. *)
Definition last_write_wins (dir : Z) (shifts : nat -> Z) (k : nat)
    (source : list pixel) (c : nat) (v : option pixel) : Prop :=
  (exists x, (x < k)%nat /\
     Z.of_nat x + dir * shifts x = Z.of_nat c /\
     (forall x', (x < x' < k)%nat ->
        Z.of_nat x' + dir * shifts x' <> Z.of_nat c) /\
     v = source !! x) \/
  ((forall x, (x < k)%nat -> Z.of_nat x + dir * shifts x <> Z.of_nat c) /\
   v = source !! c).

(** The shift of pixel [(y, x)] under a depth map. *)
Definition shift_at (shift_fn : Q -> Z -> Z) (depth_map : list (list Q))
    (mshift : Z) (y x : nat) : Z :=
  shift_fn (default 0%Q (at2 depth_map y x)) mshift.
End Synthesizer.

(** The hypotheses on shapes and depth values are decidable. *)
#[global] Instance Qle_decision (a b : Q) : Decision (a <= b)%Q.
Proof. unfold Qle. apply _. Defined.

#[global] Instance has_shape_decision {B} h w (a : list (list B)) :
  Decision (has_shape h w a).
Proof. unfold has_shape. apply _. Defined.

#[global] Instance in_unit_decision (d : list (list Q)) : Decision (in_unit d).
Proof. unfold in_unit. apply _. Defined.

(** Test frames: one row of pixels numbered by their column. *)
Definition ramp (w : nat) : list (list Z) := [Z.of_nat <$> seq 0 w].

(** Test depth maps: one half on the left half of a row and one on the
    right half; constant rows. *)
Definition step40 : list (list Q) :=
  [replicate 20 (1 # 2) ++ replicate 20 1%Q].
Definition flat (w : nat) (d : Q) : list (list Q) := [replicate w d].

End Stereo.

(** ** Frame files: names, listings, the encoder's input pattern *)

Module Naming.

(** Line 191: [f"frame_{frame_idx:06d}.jpg"]. *)
Definition frame_name (frame_idx : N) : string :=
  "frame_" +:+ format_06d frame_idx +:+ ".jpg".

(** The order of [str]: by code point, a proper prefix first. *)
Definition str_le (s t : string) : Prop := String.leb s t = true.
Definition str_lt (s t : string) : Prop := String.ltb s t = true.

#[global] Instance str_le_decision s t : Decision (str_le s t).
Proof. unfold str_le. apply _. Defined.

(** [sorted(names)]. The keys are distinct, so any sorting algorithm
    returns the list Python's returns. *)
Definition sorted (names : list string) : list string :=
  merge_sort str_le names.

(** Lines 217 and 330: [sorted([f for f in listing if
    f.endswith('.jpg')])], for a listing in whatever order
    [os.listdir] returns it. *)
Definition frame_files (listing : list string) : list string :=
  sorted (filter (fun f => endswith f ".jpg" = true) listing).

(** The value of a digit string, most significant digit first. *)
Fixpoint value_be (ds : list N) : N :=
  match ds with
  | [] => 0
  | d :: ds' => d * 10 ^ N.of_nat (length ds') + value_be ds'
  end%N.

(** The value of a digit string, least significant digit first. *)
Fixpoint value_le (ds : list N) : N :=
  match ds with
  | [] => 0
  | d :: ds' => d + 10 * value_le ds'
  end%N.

(** Lexicographic comparison of digit strings. *)
Fixpoint lex_compare (xs ys : list N) : comparison :=
  match xs, ys with
  | [], [] => Eq
  | [], _ :: _ => Lt
  | _ :: _, [] => Gt
  | x :: xs', y :: ys' =>
      match (x ?= y)%N with
      | Eq => lex_compare xs' ys'
      | c => c
      end
  end.

(** The files the encoder reads for the input pattern
    [frame_%06d.jpg] (line 340): those numbered [i], [i+1], ... up to the
    first number without a file. ffmpeg starts at the first number among
    0 to 4 that has a file. *)
Fixpoint sequence_from {A} (dir : gmap string A) (fuel : nat) (i : N)
    : list A :=
  match fuel with
  | O => []
  | S fuel' =>
      match dir !! frame_name i with
      | Some file => file :: sequence_from dir fuel' (i + 1)%N
      | None => []
      end
  end.

Definition image2_sequence {A} (dir : gmap string A) : result (list A) :=
  match find (fun i => bool_decide (is_Some (dir !! frame_name i)))
          [0; 1; 2; 3; 4]%N with
  | Some start => Ok (sequence_from dir (size dir) start)
  | None =>
      Raise (Exn "ffmpeg.Error" "ffmpeg error (see stderr output for detail)")
  end.

(** The first [n] frame indices. *)
Definition indices (n : nat) : list N := N.of_nat <$> seq 0 n.

(** A directory after the listed files were written to it, in order. *)
Fixpoint store_named {A} (entries : list (string * A)) (dir : gmap string A)
    : gmap string A :=
  match entries with
  | [] => dir
  | (name, file) :: entries' => store_named entries' (<[name := file]> dir)
  end.

(** A directory after files numbered from [start] on were written to it
    under their frame names. *)
Fixpoint store_frames {A} (start : N) (new : list A) (dir : gmap string A)
    : gmap string A :=
  match new with
  | [] => dir
  | file :: new' =>
      store_frames (start + 1)%N new' (<[frame_name start := file]> dir)
  end.

End Naming.

(** ** The pipeline: [process_video] and its stages *)

Module Pipeline.

(** A path is either inside the temporary directory of the invocation
    ([os.path.join(temp_dir, rel)]) or one the caller passed.
    [tempfile.TemporaryDirectory] makes a directory that did not exist, so
    the two never name the same file. *)
Inductive path :=
  | Workspace_path (rel : string)
  | Caller_path (p : string).

(** [ffmpeg.probe]'s answer as [_get_video_metadata] reads it. *)
Record Metadata := {
  meta_duration : Q;
  meta_width : Z;
  meta_height : Z;
  meta_fps : Q;
  meta_bitrate : Z;
  meta_codec : string
}.

(** The dictionary [process_video] returns. *)
Inductive ProcessResult :=
  | Succeeded (output_path : string) (thumbnail_path : path)
      (metadata : option Metadata)
  | Failed (error : string).

(** The thumbnail command of lines 381 to 383. *)
Record ThumbnailCommand := {
  thumb_input : string;
  thumb_ss : string;
  thumb_vframes : Z;
  thumb_format : string;
  thumb_output : path
}.

Section Model.
Context {image : Type}.

(** An encoded video: the frames in presentation order and the
    parameters of lines 347 to 361. *)
Record VideoFile := {
  video_frames : list image;
  video_width : Z;
  video_height : Z;
  video_bitrate : string;
  video_framerate : Z
}.

(** The temporary directory: [frames/], [processed_frames/] and
    [thumbnail.jpg]. *)
Record Workspace := {
  ws_frames : gmap string image;
  ws_processed : gmap string image;
  ws_thumbnail : option image
}.

Definition empty_workspace : Workspace :=
  {| ws_frames := ∅; ws_processed := ∅; ws_thumbnail := None |}.

(** What a run can change: the temporary directory (absent before and
    after), the files at caller paths, and the calls of the progress
    callback, oldest first. *)
Record World := {
  workspace : option Workspace;
  files : gmap string VideoFile;
  reports : list (Q * string)
}.

(** What a video capture yields: the frame count of the container's
    metadata and the frames [read] decodes. *)
Record Capture := {
  cap_frame_count : Z;
  cap_frames : list image
}.

(** The collaborators: OpenCV, the depth model, ffmpeg, the platform. *)
Record Env := {
  dependencies_available : bool;
  mkdtemp_error : option exn;
  capture : string -> Capture;
  jpeg : image -> image;
  convert : image -> result image;
  encode_error : VideoFile -> option exn;
  thumbnail : ThumbnailCommand -> result image;
  probe : string -> result Metadata
}.

(** Stages run in a state and error monad over [World]. *)
Definition M (A : Type) : Type := World -> result A * World.

#[global] Instance M_ret : MRet M := fun A a w => (Ok a, w).
#[global] Instance M_bind : MBind M := fun A B k m w =>
  match m w with
  | (Ok a, w') => k a w'
  | (Raise e, w') => (Raise e, w')
  end.

Definition raise {A} (e : exn) : M A := fun w => (Raise e, w).
Definition lift {A} (r : result A) : M A := fun w => (r, w).

Definition modify_workspace (f : Workspace -> Workspace) : M unit :=
  fun w =>
    (Ok (),
     {| workspace := f <$> workspace w; files := files w;
        reports := reports w |}).

Definition get_workspace : M Workspace := fun w =>
  match workspace w with
  | Some ws => (Ok ws, w)
  | None =>
      (Raise (Exn "FileNotFoundError" "No such file or directory"), w)
  end.

(** [await progress_callback(progress, message)]. *)
Definition report (progress : Q) (message : string) : M unit := fun w =>
  (Ok (),
   {| workspace := workspace w; files := files w;
      reports := reports w ++ [(progress, message)] |}).

(** [(a / b) * scale] on integers [a], [b]. *)
Definition fraction_of (a b : Z) (scale : Q) : result Q :=
  if b =? 0 then Raise (Exn "ZeroDivisionError" "division by zero")
  else Ok ((inject_Z a / inject_Z b) * scale)%Q.

Variable env : Env.

(** Lines 185 to 199: the [while] loop of [_extract_frames], over the
    frames still to be read. *)
Fixpoint read_loop (progress_callback : bool) (frame_count : Z)
    (pending : list image) (frame_idx : N) : M N :=
  match pending with
  | [] => mret frame_idx
  | frame :: pending' =>
      modify_workspace (fun ws =>
        {| ws_frames :=
             <[Naming.frame_name frame_idx := jpeg env frame]> (ws_frames ws);
           ws_processed := ws_processed ws;
           ws_thumbnail := ws_thumbnail ws |});;
      let frame_idx := (frame_idx + 1)%N in
      (if progress_callback
       then progress ← lift (fraction_of (Z.of_N frame_idx) frame_count 20);
            report progress "Extracting frames"
       else mret ());;
      read_loop progress_callback frame_count pending' frame_idx
  end.

Definition _extract_frames (video_path : string)
    (progress_callback : bool) : M unit :=
  let cap := capture env video_path in
  let frame_count := cap_frame_count cap in
  read_loop progress_callback frame_count (cap_frames cap) 0%N;;
  mret ().

Definition imread_error : exn :=
  Exn "cv2.error" "(-215:Assertion failed) !_src.empty() in function 'cvtColor'".

(** Lines 222 to 243: the [for] loop of [_process_frames_for_vr180]. *)
Fixpoint process_loop (progress_callback : bool) (total_frames : Z)
    (frame_files : list string) (idx : Z) : M unit :=
  match frame_files with
  | [] => mret ()
  | frame_file :: rest =>
      ws ← get_workspace;
      frame ← lift (match ws_frames ws !! frame_file with
                    | Some frame => Ok frame
                    | None => Raise imread_error
                    end);
      stereo_frame ← lift (convert env frame);
      modify_workspace (fun ws =>
        {| ws_frames := ws_frames ws;
           ws_processed :=
             <[frame_file := jpeg env stereo_frame]> (ws_processed ws);
           ws_thumbnail := ws_thumbnail ws |});;
      (if progress_callback
       then progress ← lift (fraction_of idx total_frames 60);
            report (20 + progress) "Processing frames for VR 180°"
       else mret ());;
      process_loop progress_callback total_frames rest (idx + 1)
  end.

(** [os.listdir]: the names of a directory, in the order of the
    platform. *)
Definition listdir (dir : gmap string image) : list string :=
  (map_to_list dir).*1.

Definition _process_frames_for_vr180 (progress_callback : bool) : M unit :=
  ws ← get_workspace;
  let frame_files := Naming.frame_files (listdir (ws_frames ws)) in
  let total_frames := Z.of_nat (length frame_files) in
  process_loop progress_callback total_frames frame_files 0.

Definition ffmpeg_error : exn :=
  Exn "ffmpeg.Error" "ffmpeg error (see stderr output for detail)".

Definition _generate_vr180_video (output_path : string)
    (conversion_settings : ConversionSettings) (progress_callback : bool)
    : M unit :=
  ws ← get_workspace;
  let frame_files := Naming.frame_files (listdir (ws_processed ws)) in
  match frame_files with
  | [] => raise (Exn "ValueError" "No processed frames found")
  | first :: _ =>
      '(output_width, output_height) ←
        mret (Encoder._get_output_resolution (resolution conversion_settings));
      bitrate ← lift (Encoder._get_bitrate (quality conversion_settings)
                        output_width output_height);
      frames ← lift (Naming.image2_sequence (ws_processed ws));
      let video :=
        {| video_frames := frames;
           video_width := output_width;
           video_height := output_height;
           video_bitrate := bitrate;
           video_framerate := frame_rate conversion_settings |} in
      match encode_error env video with
      | Some e => raise e
      | None =>
          (fun w =>
             (Ok (),
              {| workspace := workspace w;
                 files := <[output_path := video]> (files w);
                 reports := reports w |}));;
          if progress_callback
          then report 100 "Video generation completed"
          else mret ()
      end
  end.

Definition _generate_thumbnail (video_path : string) : M path :=
  let thumbnail_path := Workspace_path "thumbnail.jpg" in
  picture ← lift (thumbnail env
                    {| thumb_input := video_path; thumb_ss := "10%";
                       thumb_vframes := 1; thumb_format := "image2";
                       thumb_output := thumbnail_path |});
  modify_workspace (fun ws =>
    {| ws_frames := ws_frames ws; ws_processed := ws_processed ws;
       ws_thumbnail := Some picture |});;
  mret thumbnail_path.

(** [_get_video_metadata]: an error of the probe gives [{}]. *)
Definition _get_video_metadata (video_path : string) : M (option Metadata) :=
  match probe env video_path with
  | Ok metadata => mret (Some metadata)
  | Raise _ => mret None
  end.

(** [with tempfile.TemporaryDirectory() as temp_dir]: the directory is
    removed with all it holds when the block is left, by [return] or
    by an exception. *)
Definition remove_workspace (w : World) : World :=
  {| workspace := None; files := files w; reports := reports w |}.

Definition start_world (w : World) : World :=
  {| workspace := Some empty_workspace; files := files w;
     reports := reports w |}.

Definition with_temporary_directory {A} (body : M A) : M A := fun w =>
  match mkdtemp_error env with
  | Some e => (Raise e, w)
  | None =>
      let '(r, w') := body (start_world w) in
      (r, remove_workspace w')
  end.

(** Lines 122 to 161: the block under [try]. *)
Definition run_stages (input_path output_path : string)
    (conversion_settings : ConversionSettings) (progress_callback : bool)
    : M ProcessResult :=
  with_temporary_directory (
    _extract_frames input_path progress_callback;;
    _process_frames_for_vr180 progress_callback;;
    _generate_vr180_video output_path conversion_settings progress_callback;;
    thumbnail_path ← _generate_thumbnail input_path;
    metadata ← _get_video_metadata input_path;
    mret (Succeeded output_path thumbnail_path metadata)).

(** [process_video]. *)
Definition process_video (input_path output_path : string)
    (conversion_settings : ConversionSettings) (progress_callback : bool)
    (w : World) : ProcessResult * World :=
  if negb (dependencies_available env)
  then (Failed "Video processing dependencies not available", w)
  else
    match run_stages input_path output_path conversion_settings
            progress_callback w with
    | (Ok result, w') => (result, w')
    | (Raise e, w') => (Failed (exn_msg e), w')
    end.

(** The progress reports of a run of the two loops: [n] frames written
    against a frame count [frame_count], then [n] frames processed. *)
Definition extraction_reports (frame_count : Z) (start : N) (n : nat)
    : list (Q * string) :=
  (fun i : nat =>
     ((inject_Z (Z.of_N start + Z.of_nat i + 1) / inject_Z frame_count) * 20,
      "Extracting frames")%Q) <$> seq 0 n.

Definition processing_reports (total_frames : Z) (start : Z) (n : nat)
    : list (Q * string) :=
  (fun i : nat =>
     (20 + (inject_Z (start + Z.of_nat i) / inject_Z total_frames) * 60,
      "Processing frames for VR 180°")%Q) <$> seq 0 n.

(** What the pipeline makes of one source frame: written as a JPEG,
    read back, converted, written as a JPEG again. *)
Definition converted (frame out : image) : Prop :=
  exists s, convert env (jpeg env frame) = Ok s /\ out = jpeg env s.

(** The sub-range of the total progress reserved to the stage a report
    names. *)
Definition in_stage_range (r : Q * string) : Prop :=
  (r.2 = "Extracting frames" /\ 0 <= r.1 <= 20)%Q \/
  (r.2 = "Processing frames for VR 180°" /\ 20 <= r.1 <= 80)%Q \/
  (r.2 = "Video generation completed" /\ 80 <= r.1 <= 100)%Q.

(** A computation that writes no file at a caller's path. *)
Definition keeps_files {A} (m : M A) : Prop :=
  forall w (r : result A) w', m w = (r, w') -> files w' = files w.

End Model.

(** A test environment on numbered pictures: the depth model fails on
    picture [bad], the container reports [count] frames and decodes
    [frames], the thumbnail command fails when [thumb_fails]. *)
Definition test_env (count : Z) (frames : list nat) (bad : nat)
    (thumb_fails probe_fails : bool) : @Env nat :=
  {| dependencies_available := true;
     mkdtemp_error := None;
     capture := fun _ => {| cap_frame_count := count; cap_frames := frames |};
     jpeg := fun picture => picture;
     convert := fun picture =>
       if Nat.eqb picture bad
       then Raise (Exn "RuntimeError" "depth model failed")
       else Ok (100 + picture)%nat;
     encode_error := fun _ => None;
     thumbnail := fun _ =>
       if thumb_fails then Raise ffmpeg_error else Ok 0%nat;
     probe := fun _ =>
       if probe_fails then Raise ffmpeg_error
       else Ok {| meta_duration := 1; meta_width := 640; meta_height := 360;
                  meta_fps := 30; meta_bitrate := 0; meta_codec := "h264" |} |}.

Definition test_settings : ConversionSettings :=
  {| resolution := "720p"; quality := "medium"; frame_rate := 30;
     bitrate := None; stereo_mode := "side-by-side";
     depth_estimation_model := "midas" |}.

Definition empty_world : @World nat :=
  {| workspace := None; files := ∅; reports := [] |}.

End Pipeline.

(** ** Observers of a run *)

Module Observation.
Import Pipeline.
Section Relations.
Context {image : Type}.



End Relations.
End Observation.

(** ** The depth estimator and the attributes of the service *)

Module Estimator.

(** The attributes [__init__] and the properties [device] and
    [midas_model] assign. [_midas_model] and [_device] start as [None];
    [_midas_transforms] is not assigned by [__init__]: [None] stands
    for the attribute being absent. *)
Record VideoProcessingService {model transforms : Type} := {
  _midas_model : option model;
  _device : option string;
  _midas_transforms : option transforms
}.
Arguments VideoProcessingService : clear implicits.

Section Service.
Context {model transforms tensor pixel T : Type}.

Local Abbreviation image := (list (list pixel)).
Local Abbreviation service := (VideoProcessingService model transforms).

(** torch and OpenCV, with a state [T] of their own (the hub's cache,
    the network, the devices). A call returns or raises and may change
    that state. *)
Record Libraries := {
  (* torch.cuda.is_available() *)
  cuda_is_available : T -> result bool * T;
  (* torch.hub.load("intel-isl/MiDaS", "MiDaS_small") *)
  hub_load_model : T -> result model * T;
  (* model.to(device) and model.eval() *)
  model_to : model -> string -> T -> result unit * T;
  model_eval : model -> T -> result unit * T;
  (* torch.hub.load("intel-isl/MiDaS", "transforms").small_transform *)
  hub_load_transforms : T -> result transforms * T;
  (* transforms(frame) and tensor.to(device) *)
  apply_transforms : transforms -> image -> T -> result tensor * T;
  tensor_to : tensor -> string -> T -> result tensor * T;
  (* lines 258 to 268: the model on the tensor, the output resized to
     the frame's height and width, as a numpy array *)
  predict : model -> tensor -> image -> T -> result Depth.depth_map * T;
  (* cv2.cvtColor(frame, code) *)
  cvtColor : image -> string -> image
}.

Variable libs : Libraries.

(** Methods run in a state and error monad over the service and the
    libraries' state. *)
Definition E (A : Type) : Type := service * T -> result A * (service * T).

#[export] Instance E_ret : MRet E := fun A a s => (Ok a, s).
#[export] Instance E_bind : MBind E := fun A B k m s =>
  match m s with
  | (Ok a, s') => k a s'
  | (Raise e, s') => (Raise e, s')
  end.

Definition self : E service := fun s => (Ok s.1, s).
Definition assign (f : service -> service) : E unit :=
  fun s => (Ok (), (f s.1, s.2)).
Definition call {A} (f : T -> result A * T) : E A := fun s =>
  let '(r, t) := f s.2 in (r, (s.1, t)).
Definition fail {A} (e : exn) : E A := fun s => (Raise e, s).
Definition pure {A} (r : result A) : E A := fun s => (r, s).

(** [__init__]. *)
Definition __init__ : service :=
  {| _midas_model := None; _device := None; _midas_transforms := None |}.

(** The property [device], lines 64 to 70. *)
Definition device : E string :=
  this ← self;
  match _device this with
  | Some d => mret d
  | None =>
      available ← call (cuda_is_available libs);
      let d := if available : bool then "cuda" else "cpu" in
      assign (fun s =>
        {| _midas_model := _midas_model s; _device := Some d;
           _midas_transforms := _midas_transforms s |});;
      mret d
  end.

(** The property [midas_model], lines 72 to 91. *)
Definition midas_model : E model :=
  this ← self;
  match _midas_model this with
  | Some m => mret m
  | None =>
      m ← call (hub_load_model libs);
      assign (fun s =>
        {| _midas_model := Some m; _device := _device s;
           _midas_transforms := _midas_transforms s |});;
      d ← device;
      call (model_to libs m d);;
      call (model_eval libs m);;
      small_transform ← call (hub_load_transforms libs);
      assign (fun s =>
        {| _midas_model := _midas_model s; _device := _device s;
           _midas_transforms := Some small_transform |});;
      mret m
  end.

Definition no_transforms : exn :=
  Exn "AttributeError"
    "'VideoProcessingService' object has no attribute '_midas_transforms'".

(** [_estimate_depth], lines 251 to 277. Line 255 reads
    [self._midas_transforms] before anything reads [self.midas_model]. *)
Definition _estimate_depth (frame : image) : E Depth.depth_map :=
  this ← self;
  small_transform ← match _midas_transforms this with
                    | Some tr => mret tr
                    | None => fail no_transforms
                    end;
  x ← call (apply_transforms libs small_transform frame);
  d ← device;
  input_tensor ← call (tensor_to libs x d);
  m ← midas_model;
  depth_map ← call (predict libs m input_tensor frame);
  pure (Depth.normalize depth_map).

(** [_generate_stereo_pair] on the depth map the estimator returns, in
    binary64. *)
Definition _generate_stereo_pair_binary64 (frame : image)
    (depth_map : Depth.depth_map) (settings : ConversionSettings)
    : result image :=
  bind (Stereo.stereo_views_binary64 frame depth_map)
    (fun '(left_view, right_view) =>
       if String.eqb (stereo_mode settings) "side-by-side"
       then Ok (Stereo.hstack left_view right_view)
       else Ok (Stereo.vstack left_view right_view)).

(** Lines 228 to 237: what the processing loop does with a frame it
    has read. *)
Definition convert_frame (settings : ConversionSettings) (frame : image)
    : E image :=
  let frame_rgb := cvtColor libs frame "COLOR_BGR2RGB" in
  depth_map ← _estimate_depth frame_rgb;
  stereo_frame ← pure (_generate_stereo_pair_binary64 frame_rgb depth_map
                         settings);
  mret (cvtColor libs stereo_frame "COLOR_RGB2BGR").

(** A service that can estimate depth: every attribute is set. *)
Definition ready (s : service) : Prop :=
  is_Some (_midas_model s) /\ is_Some (_device s) /\
  is_Some (_midas_transforms s).
End Service.

(** Test libraries: the state counts the loads from the hub; the first
    [loads_ok] loads succeed and a frame's depth is 1.0 everywhere. *)
Definition test_libs (loads_ok : nat) : @Libraries unit unit unit Z nat :=
  let load := fun n : nat =>
    (if (n <? loads_ok)%nat then Ok ()
     else Raise (Exn "HTTPError" "HTTP Error 403: rate limit exceeded"),
     S n) in
  {| cuda_is_available := fun n => (Ok false, n);
     hub_load_model := load;
     model_to := fun _ _ n => (Ok (), n);
     model_eval := fun _ n => (Ok (), n);
     hub_load_transforms := load;
     apply_transforms := fun _ _ n => (Ok (), n);
     tensor_to := fun _ _ n => (Ok (), n);
     predict := fun _ _ frame n =>
       (Ok (map (map (fun _ => Depth.one32)) frame), n);
     cvtColor := fun frame _ => frame |}.

(** A test environment whose conversion is that of a new service. *)
Definition service_env (loads_ok : nat) (settings : ConversionSettings)
    (frames : list (list (list Z))) : @Pipeline.Env (list (list Z)) :=
  {| Pipeline.dependencies_available := true;
     Pipeline.mkdtemp_error := None;
     Pipeline.capture := fun _ =>
       {| Pipeline.cap_frame_count := Z.of_nat (length frames);
          Pipeline.cap_frames := frames |};
     Pipeline.jpeg := fun frame => frame;
     Pipeline.convert := fun frame =>
       (convert_frame (test_libs loads_ok) settings frame
          (__init__, 0%nat)).1;
     Pipeline.encode_error := fun _ => None;
     Pipeline.thumbnail := fun _ => Ok [];
     Pipeline.probe := fun _ => Raise Pipeline.ffmpeg_error |}.

End Estimator.

(** ** The metadata of a probe *)

Module Probe.

(** A value of the JSON document [ffmpeg.probe] returns. *)
Inductive json :=
  | JNull
  | JBool (b : bool)
  | JInt (n : Z)
  | JFloat (x : spec_float)
  | JStr (s : string)
  | JList (items : list json)
  | JDict (entries : gmap string json).

Definition TypeError (msg : string) : exn := Exn "TypeError" msg.
Definition KeyError (key : string) : exn :=
  Exn "KeyError" ("'" +:+ key +:+ "'").

(** [value[key]] for a string [key]. *)
Definition getitem (value : json) (key : string) : result json :=
  match value with
  | JDict entries =>
      match entries !! key with
      | Some v => Ok v
      | None => Raise (KeyError key)
      end
  | JList _ =>
      Raise (TypeError "list indices must be integers or slices, not str")
  | JStr _ => Raise (TypeError "string indices must be integers, not 'str'")
  | _ => Raise (TypeError "object is not subscriptable")
  end.

(** [value.get(key, fallback)]. *)
Definition get (value : json) (key : string) (fallback : json)
    : result json :=
  match value with
  | JDict entries => Ok (default fallback (entries !! key))
  | _ => Raise (Exn "AttributeError" "object has no attribute 'get'")
  end.

(** The values a [for] loop over [value] takes: the items of a list; of
    a string its characters, of a dictionary its keys, neither of which
    can be subscripted by a string. *)
Definition iterate (value : json) : result (list json) :=
  match value with
  | JList items => Ok items
  | JStr s => Ok ((fun c => JStr (String c "")) <$> list_ascii_of_string s)
  | JDict entries => Ok (JStr <$> (map_to_list entries).*1)
  | _ => Raise (TypeError "object is not iterable")
  end.

Section Metadata.
(** [float(s)], [int(s)] and [eval(s)] of a string, and the type of what
    [eval] returns. An exception is one [except Exception] catches. *)
Context {V : Type}.
Variable float_of_str : string -> result spec_float.
Variable int_of_str : string -> result Z.
Variable eval : string -> result V.

(** [float(value)]. *)
Definition float (value : json) : result spec_float :=
  match value with
  | JFloat x => Ok x
  | JInt n => float_of_int n
  | JBool b => Ok (if b then S754_finite false 4503599627370496 (-52)
                   else S754_zero false)
  | JStr s => float_of_str s
  | _ =>
      Raise (TypeError "float() argument must be a string or a real number")
  end.

(** [int(value)]. *)
Definition int (value : json) : result Z :=
  match value with
  | JInt n => Ok n
  | JBool b => Ok (if b then 1 else 0)
  | JFloat x => int_of_float x
  | JStr s => int_of_str s
  | _ => Raise (TypeError "int() argument must be a string or a real number")
  end.

(** The dictionary of lines 397 to 404. *)
Record VideoMetadata := {
  md_duration : spec_float;
  md_width : Z;
  md_height : Z;
  md_fps : V;
  md_bitrate : Z;
  md_codec : json
}.

(** Line 395: [next(s for s in streams if s['codec_type'] == 'video')]. *)
Fixpoint first_video (streams : list json) : result json :=
  match streams with
  | [] => Raise (Exn "StopIteration" "")
  | s :: rest =>
      bind (getitem s "codec_type") (fun codec_type =>
      match codec_type with
      | JStr t => if String.eqb t "video" then Ok s else first_video rest
      | _ => first_video rest
      end)
  end.

(** Lines 397 to 404: the dictionary, entry by entry. *)
Definition metadata_fields (probe video_stream : json)
    : result VideoMetadata :=
  bind (getitem probe "format") (fun format =>
  bind (getitem format "duration") (fun duration =>
  bind (float duration) (fun duration =>
  bind (getitem video_stream "width") (fun width =>
  bind (int width) (fun width =>
  bind (getitem video_stream "height") (fun height =>
  bind (int height) (fun height =>
  bind (getitem video_stream "r_frame_rate") (fun rate =>
  bind (match rate with
        | JStr s => eval s
        | _ =>
            Raise (TypeError
                     "eval() arg 1 must be a string, bytes or code object")
        end) (fun fps =>
  bind (getitem probe "format") (fun format =>
  bind (get format "bit_rate" (JInt 0)) (fun bit_rate =>
  bind (int bit_rate) (fun bitrate =>
  bind (getitem video_stream "codec_name") (fun codec =>
  Ok {| md_duration := duration; md_width := width; md_height := height;
        md_fps := fps; md_bitrate := bitrate; md_codec := codec |}
  ))))))))))))).

(** Lines 395 to 404, on the answer of the probe. *)
Definition read_metadata (probe : json) : result VideoMetadata :=
  bind (getitem probe "streams") (fun streams =>
  bind (iterate streams) (fun streams =>
  bind (first_video streams) (metadata_fields probe))).

(** [_get_video_metadata], lines 391 to 408: [None] is the empty
    dictionary of line 408. *)
Definition _get_video_metadata (probe : result json)
    : option VideoMetadata :=
  match bind probe read_metadata with
  | Ok metadata => Some metadata
  | Raise _ => None
  end.
End Metadata.

(** A test probe: an audio stream, a video stream and a third entry that
    is no stream at all. *)
Definition test_video_stream : gmap string json :=
  <["codec_type" := JStr "video"]>
  (<["width" := JInt 640]>
  (<["height" := JInt 360]>
  (<["r_frame_rate" := JStr "30/1"]>
  (<["codec_name" := JStr "h264"]> ∅)))).

Definition test_audio_stream : json :=
  JDict (<["codec_type" := JStr "audio"]> ∅).

Definition test_probe (streams : list json) : gmap string json :=
  <["streams" := JList streams]>
  (<["format" := JDict (<["duration" := JFloat Depth.one32]> ∅)]> ∅).

End Probe.

(** ** Sequences and the helpers of [app/utils/helpers.py] *)

Module Helpers.

(** [range(start, stop, step)]. *)
Definition py_range (start stop step : Z) : result (list Z) :=
  if step =? 0
  then Raise (Exn "ValueError" "range() arg 3 must not be zero")
  else
    let n := if 0 <? step then (stop - start + step - 1) / step
             else (start - stop - step - 1) / (- step) in
    Ok ((fun k : nat => start + Z.of_nat k * step) <$> seq 0 (Z.to_nat n)).

(** A bound of a slice of a sequence of length [n]: a negative one
    counts from the end, and the result is clipped to [0 .. n]. *)
Definition slice_bound (n : nat) (i : Z) : nat :=
  if i <? 0 then Z.to_nat (i + Z.of_nat n)
  else Nat.min (Z.to_nat i) n.

(** [l[lo:hi]]. *)
Definition slice {A} (l : list A) (lo hi : Z) : list A :=
  let a := slice_bound (length l) lo in
  let b := slice_bound (length l) hi in
  take (b - a) (drop a l).

(** [chunk_list], lines 256 to 267. *)
Definition chunk_list {A} (lst : list A) (chunk_size : Z)
    : result (list (list A)) :=
  bind (py_range 0 (Z.of_nat (length lst)) chunk_size) (fun starts =>
  Ok ((fun i => slice lst i (i + chunk_size)) <$> starts)).

End Helpers.

Module Text.

(** Python's [str] operations the helpers use, on [string]: a character
    of the string stands for a code point. *)
Definition chars (s : string) : list ascii := list_ascii_of_string s.
Definition str (l : list ascii) : string := string_of_list_ascii l.

(** [len(s)]. *)
Definition len (s : string) : Z := Z.of_nat (String.length s).

(** [s[lo:hi]]. *)
Definition str_slice (s : string) (lo hi : Z) : string :=
  str (Helpers.slice (chars s) lo hi).

(** [c in s] for a character [c]. *)
Definition contains (c : ascii) (s : string) : bool :=
  bool_decide (c ∈ chars s).

(** [s.replace(old, new)] for characters [old] and [new]. *)
Definition replace (old new : ascii) (s : string) : string :=
  str (map (fun c => if Ascii.eqb c old then new else c) (chars s)).

(** [s.strip(set)]: the characters of [set] removed from both ends. *)
Fixpoint lstrip (set : list ascii) (l : list ascii) : list ascii :=
  match l with
  | [] => []
  | c :: l' => if bool_decide (c ∈ set) then lstrip set l' else l
  end.

Definition strip (set : string) (s : string) : string :=
  str (rev (lstrip (chars set) (rev (lstrip (chars set) (chars s))))).

(** [s.rsplit(sep, 1)] for a character [sep] that occurs in [s]: the
    part before its last occurrence and the part after it. *)
Fixpoint rsplit1 (sep : ascii) (l : list ascii)
    : option (list ascii * list ascii) :=
  match l with
  | [] => None
  | c :: l' =>
      match rsplit1 sep l' with
      | Some (name, ext) => Some (c :: name, ext)
      | None => if Ascii.eqb c sep then Some ([], l') else None
      end
  end.

(** [sep.join(parts)]. *)
Fixpoint join (sep : string) (parts : list string) : string :=
  match parts with
  | [] => ""
  | [p] => p
  | p :: rest => p +:+ sep +:+ join sep rest
  end.

(** The characters the helpers and the validators call dangerous:
    less-than, greater-than, colon, double quote, slash, backslash,
    bar, question mark and asterisk. *)
Definition dangerous_chars : list ascii :=
  chars "<>:" ++ [ascii_of_nat 34] ++ chars "/\|?*".

End Text.

Module Files.
Import Text.

(** [truncate_string], lines 301 to 316 of [helpers.py]. *)
Definition truncate_string (text : string) (max_length : Z)
    (suffix : string) : string :=
  if len text <=? max_length then text
  else str_slice text 0 (max_length - len suffix) +:+ suffix.

(** [sanitize_filename], lines 123 to 151; [now] is [int(time.time())]. *)
Definition sanitize_filename (now : Z) (filename : string) : string :=
  let filename :=
    fold_left (fun filename char => replace char "_" filename)
      dangerous_chars filename in
  let filename := strip " ." filename in
  let filename :=
    if String.eqb filename "" then "file_" +:+ str_int now else filename in
  if 255 <? len filename
  then
    let '(name, ext) :=
      match rsplit1 "." (chars filename) with
      | Some (name, ext) => (str name, str ext)
      | None => (filename, "")
      end in
    let max_name_length :=
      if String.eqb ext "" then 255 else 255 - len ext - 1 in
    str_slice name 0 max_name_length
      +:+ (if String.eqb ext "" then "" else "." +:+ ext)
  else filename.

(** The part after the last period of a name, [""] without one. *)
Definition extension (filename : string) : string :=
  match rsplit1 "." (chars filename) with
  | Some (_, ext) => str ext
  | None => ""
  end.

(** [merge_dicts], lines 270 to 283. *)
Definition merge_dicts {V} (dicts : list (gmap string V)) : gmap string V :=
  fold_left (fun result d => d ∪ result) dicts ∅.

End Files.

(** ** The upload validator of [app/utils/validators.py] *)

Module Validators.
Import Text.

(** The settings of [app/config.py] the validators read. *)
Record Settings := {
  max_file_size_mb : Z;
  max_file_size_bytes : Z;
  allowed_video_formats : list string;
  supported_resolutions : list string
}.

(** The defaults of [Settings]. *)
Definition default_settings : Settings :=
  {| max_file_size_mb := 500;
     max_file_size_bytes := 500 * 1024 * 1024;
     allowed_video_formats :=
       ["video/mp4"; "video/avi"; "video/mov"; "video/mkv"; "video/webm"];
     supported_resolutions := ["720p"; "1080p"; "1440p"; "4K"] |}.

Record HTTPException := { status_code : Z; detail : string }.

Record ValidFile := {
  valid : bool;
  valid_filename : string;
  valid_content_type : string;
  valid_file_size : Z
}.

(** Line 34: [re.search] for a character of the class of dangerous
    characters. *)
Definition has_invalid_characters (filename : string) : bool :=
  existsb (fun c => bool_decide (c ∈ dangerous_chars)) (chars filename).

(** The errors [validate_video_file] collects, lines 27 to 48. *)
Definition video_file_errors (settings : Settings) (filename : string)
    (content_type : string) (file_size : Z) : list string :=
  (if String.eqb filename "" || (255 <? len filename)
   then ["Invalid filename"] else []) ++
  (if has_invalid_characters filename
   then ["Filename contains invalid characters"] else []) ++
  (if bool_decide (content_type ∈ allowed_video_formats settings)
   then [] else ["Unsupported video format: " +:+ content_type]) ++
  (if file_size <=? 0 then ["File size must be greater than 0"]
   else if max_file_size_bytes settings <? file_size
   then ["File size exceeds maximum limit of " +:+
           str_int (max_file_size_mb settings) +:+ "MB"]
   else []).

(** [validate_video_file], lines 12 to 61. *)
Definition validate_video_file (settings : Settings) (filename : string)
    (content_type : string) (file_size : Z) : HTTPException + ValidFile :=
  match video_file_errors settings filename content_type file_size with
  | [] =>
      inr {| valid := true; valid_filename := filename;
             valid_content_type := content_type;
             valid_file_size := file_size |}
  | errors => inl {| status_code := 400; detail := join "; " errors |}
  end.

End Validators.

(** ** The processing time estimate of [app/utils/helpers.py] *)

Module Timing.

(** The literals [0.5], [1.0], [1.5], [2.0] and [2.5], all binary64
    values. *)
Definition float_0_5 : spec_float := S754_finite false 4503599627370496 (-53).
Definition float_1_0 : spec_float := S754_finite false 4503599627370496 (-52).
Definition float_1_5 : spec_float := S754_finite false 6755399441055744 (-52).
Definition float_2_0 : spec_float := S754_finite false 4503599627370496 (-51).
Definition float_2_5 : spec_float := S754_finite false 5629499534213120 (-51).

Definition quality_multipliers : gmap string spec_float :=
  <["low" := float_0_5]>
  (<["medium" := float_1_0]>
  (<["high" := float_1_5]>
  (<["ultra" := float_2_0]> ∅))).

Definition resolution_multipliers : gmap string spec_float :=
  <["720p" := float_0_5]>
  (<["1080p" := float_1_0]>
  (<["1440p" := float_1_5]>
  (<["4K" := float_2_5]> ∅))).

(** [calculate_processing_time], lines 56 to 100. *)
Definition calculate_processing_time (file_size : Z)
    (resolution quality : string) : result Z :=
  let base_time_per_gb := 5 in
  bind (int_truediv file_size (1024 ^ 3)) (fun file_size_gb =>
  bind (float_of_int base_time_per_gb) (fun per_gb =>
  let base_time := SFmul prec emax file_size_gb per_gb in
  let quality_multiplier :=
    default float_1_0 (quality_multipliers !! quality) in
  let resolution_multiplier :=
    default float_1_0 (resolution_multipliers !! resolution) in
  bind (int_of_float
          (SFmul prec emax (SFmul prec emax base_time quality_multiplier)
             resolution_multiplier)) (fun estimated_time =>
  Ok (Z.max estimated_time 2)))).

(** The multipliers as fractions with a power of two below: the
    numerator and the exponent of the denominator. *)
Definition quality_fraction (quality : string) : positive * Z :=
  if String.eqb quality "low" then (1%positive, 1)
  else if String.eqb quality "medium" then (1%positive, 0)
  else if String.eqb quality "high" then (3%positive, 1)
  else if String.eqb quality "ultra" then (2%positive, 0)
  else (1%positive, 0).

Definition resolution_fraction (resolution : string) : positive * Z :=
  if String.eqb resolution "720p" then (1%positive, 1)
  else if String.eqb resolution "1080p" then (1%positive, 0)
  else if String.eqb resolution "1440p" then (3%positive, 1)
  else if String.eqb resolution "4K" then (5%positive, 1)
  else (1%positive, 0).

(** The binary64 of [p * 2 ^ e] for a positive [p] of at most 53 bits:
    the mantissa is [p] shifted to 53 bits. *)
Definition dyadic (p : positive) (e : Z) : spec_float :=
  let dp := Zpos (digits2_pos p) in
  S754_finite false (Z.to_pos (Zpos p * 2 ^ (53 - dp))) (e + dp - 53).

End Timing.

(** * Properties *)

(** ** The encoder's tables and bitrate *)

(** Case analysis on the first string test of the goal. *)
Ltac case_string_eqb :=
  match goal with
  | |- context [String.eqb ?s ?k] =>
      destruct (String.eqb_spec s k) as [-> | ?]
  end.

Section EncoderFacts.
Import Encoder.

Lemma get_output_resolution_table resolution :
  _get_output_resolution resolution = table_resolution resolution.
Proof.
  unfold _get_output_resolution, table_resolution, resolutions.
  repeat (case_string_eqb; [reflexivity |]).
  repeat (rewrite lookup_insert_ne by congruence).
  rewrite lookup_empty. reflexivity.
Qed.

Lemma base_bitrate_table quality :
  default 2500 (base_bitrates !! quality) = table_base_bitrate quality.
Proof.
  unfold table_base_bitrate, base_bitrates.
  repeat (case_string_eqb; [reflexivity |]).
  repeat (rewrite lookup_insert_ne by congruence).
  rewrite lookup_empty. reflexivity.
Qed.

(** The bitrate on the twenty-five pairs of table rows. *)
Lemma get_bitrate_rows quality resolution :
  let '(w, h) := table_resolution resolution in
  _get_bitrate quality w h =
    Ok (str_int (table_base_bitrate quality * (w * h) / (1920 * 1080)) +:+ "k").
Proof.
  unfold _get_bitrate. rewrite base_bitrate_table.
  unfold table_resolution, table_base_bitrate.
  repeat (destruct (String.eqb resolution _));
    repeat (destruct (String.eqb quality _));
    vm_compute; reflexivity.
Qed.

(** C5, as the code has it: both tables with their fallbacks, and the
    effective bitrate is [baseBitrate * (W*H) / (1920*1080)] truncated
    toward zero (not rounded to the nearest integer), followed by [k];
    [high] at [1080p] gives [5000k] and [low] at [4K] gives [4000k]. *)
Theorem effective_bitrate_truncates quality resolution :
  _get_output_resolution resolution = table_resolution resolution /\
  default 2500 (base_bitrates !! quality) = table_base_bitrate quality /\
  effective_bitrate quality resolution =
    Ok (str_int (table_base_bitrate quality *
                 (fst (table_resolution resolution) *
                  snd (table_resolution resolution)) / (1920 * 1080))
        +:+ "k") /\
  effective_bitrate "high" "1080p" = Ok "5000k" /\
  effective_bitrate "low" "4K" = Ok "4000k".
Proof.
  split; [apply get_output_resolution_table |].
  split; [apply base_bitrate_table |].
  split; [| split; vm_compute; reflexivity].
  unfold effective_bitrate. rewrite get_output_resolution_table.
  pose proof (get_bitrate_rows quality resolution) as H.
  destruct (table_resolution resolution) as [w h]. exact H.
Qed.

(** C5 as stated fails: at [low], [1440p] the quotient is 1777.78 and
    the code passes [1777k], the nearest integer is 1778. *)
Lemma effective_bitrate_not_nearest :
  effective_bitrate "low" "1440p" = Ok "1777k" /\
  spec_bitrate "low" "1440p" = "1778k" /\
  effective_bitrate "low" "1440p" <> Ok (spec_bitrate "low" "1440p").
Proof.
  split; [vm_compute; reflexivity |].
  split; [vm_compute; reflexivity |].
  intros H. vm_compute in H. discriminate H.
Qed.
End EncoderFacts.

(** ** The stereo synthesizer *)

Section StereoFacts.
Import Stereo.
Context {pixel : Type}.
Local Abbreviation image := (list (list pixel)).
Implicit Types (frame left right : image) (depth_map : list (list Q)).

Lemma bind_ok {A B} (r : result A) (k : A -> result B) b :
  bind r k = Ok b <-> exists a, r = Ok a /\ k a = Ok b.
Proof.
  destruct r as [a | e]; simpl; split.
  - eauto.
  - intros (a' & [= ->] & H). exact H.
  - discriminate.
  - intros (a' & [=] & _).
Qed.

Lemma np_index_inbounds n i :
  0 <= i < Z.of_nat n -> np_index n i = Ok (Z.to_nat i).
Proof.
  intros H. unfold np_index.
  destruct (Z.leb_spec 0 i); [| lia].
  destruct (Z.ltb_spec i (Z.of_nat n)); [| lia]. reflexivity.
Qed.

Lemma get2d_ok {A} (a : list (list A)) y x v :
  at2 a y x = Some v -> get2d a y (Z.of_nat x) = Ok v.
Proof.
  unfold at2, get2d. destruct (a !! y) as [row |]; simpl; [| discriminate].
  intros H. rewrite np_index_inbounds.
  - simpl. rewrite Nat2Z.id, H. reflexivity.
  - apply lookup_lt_Some in H. lia.
Qed.

Lemma set2d_ok {A} (a : list (list A)) y c row v :
  a !! y = Some row -> 0 <= c < Z.of_nat (length row) ->
  set2d a y c v = Ok (<[y := <[Z.to_nat c := v]> row]> a).
Proof.
  intros Hy Hc. unfold set2d. rewrite Hy, np_index_inbounds by lia.
  reflexivity.
Qed.

(** A loop over [0 .. n-1] whose body keeps an invariant runs to the
    end. *)
Lemma for_each_seq_inv {S : Type} (body : nat -> S -> result S)
    (P : nat -> S -> Prop) n a s0 :
  P a s0 ->
  (forall k s, (a <= k < a + n)%nat -> P k s ->
     exists s', body k s = Ok s' /\ P (Datatypes.S k) s') ->
  exists s', for_each body (seq a n) s0 = Ok s' /\ P (a + n)%nat s'.
Proof.
  revert a s0. induction n as [| n IH]; intros a s0 H0 Hstep; simpl.
  - exists s0. rewrite Nat.add_0_r. auto.
  - destruct (Hstep a s0) as (s1 & Hb & H1); [lia | exact H0 |].
    rewrite Hb. simpl.
    destruct (IH (Datatypes.S a) s1 H1) as (s' & Hrun & Hend).
    + intros k s Hk. apply Hstep. lia.
    + exists s'. split; [exact Hrun |].
      replace (a + Datatypes.S n)%nat with (Datatypes.S a + n)%nat by lia.
      exact Hend.
Qed.

Lemma pixel_body_ok (shift_fn : Q -> Z -> Z) frame depth_map ms (w : nat) y x
    left right lrow rrow p d :
  at2 frame y x = Some p -> at2 depth_map y x = Some d ->
  left !! y = Some lrow -> right !! y = Some rrow ->
  length lrow = w -> length rrow = w -> (x < w)%nat ->
  0 <= shift_fn d ms ->
  let s := shift_fn d ms in
  pixel_body (fun d m => Ok (shift_fn d m)) frame depth_map ms (Z.of_nat w) y x (left, right) =
    Ok (if 0 <=? Z.of_nat x - s
        then <[y := <[Z.to_nat (Z.of_nat x - s) := p]> lrow]> left
        else left,
        if Z.of_nat x + s <? Z.of_nat w
        then <[y := <[Z.to_nat (Z.of_nat x + s) := p]> rrow]> right
        else right).
Proof.
  intros Hp Hd Hl Hr Hll Hlr Hx Hs s. unfold pixel_body.
  rewrite (get2d_ok _ _ _ _ Hd). simpl. fold s.
  rewrite (get2d_ok _ _ _ _ Hp). simpl.
  destruct (Z.ltb_spec (Z.of_nat x + s) (Z.of_nat w)) as [Hlt | Hge].
  - rewrite (set2d_ok _ _ _ _ _ Hr) by lia. simpl.
    destruct (Z.leb_spec 0 (Z.of_nat x - s)).
    + rewrite (set2d_ok _ _ _ _ _ Hl) by lia. reflexivity.
    + reflexivity.
  - simpl. destruct (Z.leb_spec 0 (Z.of_nat x - s)).
    + rewrite (set2d_ok _ _ _ _ _ Hl) by lia. reflexivity.
    + reflexivity.
Qed.

(** One more column processed: the write to [dest], done exactly when
    [dest] is a column of the row, keeps last-write-wins. *)
Lemma last_write_wins_step dir shifts k (source row : list pixel) c p
    (written : bool) :
  let dest := Z.of_nat k + dir * shifts k in
  (written = true <-> 0 <= dest < Z.of_nat (length row)) ->
  source !! k = Some p -> (c < length row)%nat ->
  last_write_wins dir shifts k source c (row !! c) ->
  last_write_wins dir shifts (S k) source c
    ((if written then <[Z.to_nat dest := p]> row else row) !! c).
Proof.
  intros dest Hw Hp Hc Hprev.
  destruct (decide (dest = Z.of_nat c)) as [Heq | Hne].
  - (* this write lands on [c] *)
    assert (written = true) as -> by (apply Hw; lia).
    rewrite Heq, Nat2Z.id, list_lookup_insert_eq by lia.
    left. exists k. repeat split; [lia | exact Heq | | congruence].
    intros x' Hx'. lia.
  - assert ((if written then <[Z.to_nat dest := p]> row else row) !! c
            = row !! c) as ->.
    { destruct written; [| reflexivity].
      apply list_lookup_insert_ne. destruct Hw as [Hw _].
      specialize (Hw eq_refl). lia. }
    destruct Hprev as [(x & Hx & Hdest & Hlast & Hv) | [Hnone Hv]].
    + left. exists x. repeat split; [lia | exact Hdest | | exact Hv].
      intros x' Hx'. destruct (decide (x' = k)) as [-> | ?];
        [exact Hne | apply Hlast; lia].
    + right. split; [| exact Hv].
      intros x Hx. destruct (decide (x = k)) as [-> | ?];
        [exact Hne | apply Hnone; lia].
Qed.

(** The inner loop on row [y], started on views whose row [y] is still
    the frame's: only row [y] changes, into the splat of the row. *)
Lemma row_body_splat (shift_fn : Q -> Z -> Z) frame depth_map ms (w : nat) y
    left right frow drow :
  frame !! y = Some frow -> length frow = w ->
  depth_map !! y = Some drow -> length drow = w ->
  left !! y = Some frow -> right !! y = Some frow ->
  (forall x, (x < w)%nat -> 0 <= shift_at shift_fn depth_map ms y x) ->
  exists lrow rrow,
    row_body (fun d m => Ok (shift_fn d m)) frame depth_map ms (Z.of_nat w) y (left, right)
      = Ok (<[y := lrow]> left, <[y := rrow]> right) /\
    length lrow = w /\ length rrow = w /\
    forall c, (c < w)%nat ->
      last_write_wins (-1) (shift_at shift_fn depth_map ms y) w frow c
        (lrow !! c) /\
      last_write_wins 1 (shift_at shift_fn depth_map ms y) w frow c
        (rrow !! c).
Proof.
  intros Hf Hfl Hd Hdl Hl Hr Hs.
  set (shifts := shift_at shift_fn depth_map ms y).
  pose (P := fun (k : nat) (views : list (list pixel) * list (list pixel)) =>
    exists lrow rrow,
      views = (<[y := lrow]> left, <[y := rrow]> right) /\
      length lrow = w /\ length rrow = w /\
      forall c, (c < w)%nat ->
        last_write_wins (-1) shifts k frow c (lrow !! c) /\
        last_write_wins 1 shifts k frow c (rrow !! c)).
  set (body := pixel_body (fun d m => Ok (shift_fn d m)) frame depth_map ms (Z.of_nat w) y).
  assert (P 0%nat (left, right)) as Hinit.
  { unfold P. exists frow, frow. rewrite !list_insert_id by assumption.
    repeat split; try assumption; right; split; trivial; intros; lia. }
  assert (forall k s, (0 <= k < 0 + w)%nat -> P k s ->
            exists s', body k s = Ok s' /\ P (S k) s') as Hstep; [|
    destruct (for_each_seq_inv body P w 0%nat _ Hinit Hstep)
      as (views & Hrun & Hend)].
  - unfold P, body. intros k views Hk (lrow & rrow & -> & Hll & Hlr & Hinv).
    assert (is_Some (frow !! k)) as [p Hp]
      by (apply lookup_lt_is_Some; lia).
    assert (is_Some (drow !! k)) as [d Hdk]
      by (apply lookup_lt_is_Some; lia).
    assert (at2 frame y k = Some p) as Hap
      by (unfold at2; rewrite Hf; exact Hp).
    assert (at2 depth_map y k = Some d) as Had
      by (unfold at2; rewrite Hd; exact Hdk).
    assert (shifts k = shift_fn d ms) as Hsk
      by (unfold shifts, shift_at; rewrite Had; reflexivity).
    assert (0 <= shift_fn d ms) as Hnn
      by (rewrite <- Hsk; apply Hs; lia).
    assert ((y < length left)%nat) by (eapply lookup_lt_Some; eauto).
    assert ((y < length right)%nat) by (eapply lookup_lt_Some; eauto).
    eexists. split.
    + apply (pixel_body_ok shift_fn frame depth_map ms w y k
               _ _ lrow rrow p d); try assumption; try lia.
      * apply list_lookup_insert_eq; assumption.
      * apply list_lookup_insert_eq; assumption.
    + rewrite <- Hsk.
      exists (if 0 <=? Z.of_nat k - shifts k
              then <[Z.to_nat (Z.of_nat k - shifts k) := p]> lrow
              else lrow),
             (if Z.of_nat k + shifts k <? Z.of_nat w
              then <[Z.to_nat (Z.of_nat k + shifts k) := p]> rrow
              else rrow).
      split.
      { f_equal.
        - destruct (0 <=? Z.of_nat k - shifts k);
            [apply list_insert_insert_eq | reflexivity].
        - destruct (Z.of_nat k + shifts k <? Z.of_nat w);
            [apply list_insert_insert_eq | reflexivity]. }
      split; [destruct (0 <=? _); rewrite ?length_insert; assumption |].
      split; [destruct (_ <? _); rewrite ?length_insert; assumption |].
      intros c Hc. destruct (Hinv c Hc) as [HL HR]. split.
      * replace (Z.of_nat k - shifts k)
          with (Z.of_nat k + -1 * shifts k) by lia.
        apply last_write_wins_step; try assumption; [| lia].
        rewrite Z.leb_le. rewrite Hsk in *. lia.
      * replace (Z.of_nat k + shifts k)
          with (Z.of_nat k + 1 * shifts k) by lia.
        apply last_write_wins_step; try assumption; [| lia].
        rewrite Z.ltb_lt. rewrite Hsk in *. lia.
  - unfold P in Hend.
    destruct Hend as (lrow & rrow & -> & Hll & Hlr & Hinv).
    exists lrow, rrow. unfold row_body. rewrite Nat2Z.id.
    split; [exact Hrun |].
    repeat split; try assumption; apply Hinv; assumption.
Qed.

(** The two loops: every row of the views is the splat of the frame's
    row, whatever the shift function, as long as no shift is negative. *)
Lemma displace_splat (shift_fn : Q -> Z -> Z) frame depth_map ms
    (h w : nat) :
  has_shape h w frame -> has_shape h w depth_map ->
  (forall y x, (y < h)%nat -> (x < w)%nat ->
     0 <= shift_at shift_fn depth_map ms y x) ->
  exists left right,
    displace (fun d m => Ok (shift_fn d m)) frame depth_map ms (Z.of_nat w) h = Ok (left, right) /\
    has_shape h w left /\ has_shape h w right /\
    forall y c frow, frame !! y = Some frow -> (c < w)%nat ->
      last_write_wins (-1) (shift_at shift_fn depth_map ms y) w frow c
        (at2 left y c) /\
      last_write_wins 1 (shift_at shift_fn depth_map ms y) w frow c
        (at2 right y c).
Proof.
  intros [Hfh Hfw] [Hdh Hdw] Hs.
  rewrite Forall_lookup in Hfw. rewrite Forall_lookup in Hdw.
  pose (P := fun (y : nat) (views : list (list pixel) * list (list pixel)) =>
    length (fst views) = h /\ length (snd views) = h /\
    (forall y', (y <= y')%nat ->
       fst views !! y' = frame !! y' /\ snd views !! y' = frame !! y') /\
    (forall y' frow, (y' < y)%nat -> frame !! y' = Some frow ->
       exists lrow rrow,
         fst views !! y' = Some lrow /\ snd views !! y' = Some rrow /\
         length lrow = w /\ length rrow = w /\
         forall c, (c < w)%nat ->
           last_write_wins (-1) (shift_at shift_fn depth_map ms y') w frow c
             (lrow !! c) /\
           last_write_wins 1 (shift_at shift_fn depth_map ms y') w frow c
             (rrow !! c))).
  set (body := row_body (fun d m => Ok (shift_fn d m)) frame depth_map ms (Z.of_nat w)).
  assert (P 0%nat (frame, frame)) as Hinit.
  { unfold P; simpl. repeat split; try assumption. intros; lia. }
  assert (forall y s, (0 <= y < 0 + h)%nat -> P y s ->
            exists s', body y s = Ok s' /\ P (S y) s') as Hstep.
  { unfold P, body. intros y [left right] Hy (Hlh & Hrh & Hrest & Hdone).
    simpl in *.
    assert (is_Some (frame !! y)) as [frow Hf]
      by (apply lookup_lt_is_Some; lia).
    assert (is_Some (depth_map !! y)) as [drow Hd]
      by (apply lookup_lt_is_Some; lia).
    destruct (Hrest y (Nat.le_refl y)) as [Hl Hr]. rewrite Hf in Hl, Hr.
    destruct (row_body_splat shift_fn frame depth_map ms w y left right
                frow drow Hf (Hfw _ _ Hf) Hd (Hdw _ _ Hd) Hl Hr)
      as (lrow & rrow & Hrun & Hll & Hlr & Hrow).
    { intros x Hx. apply Hs; lia. }
    eexists. split; [exact Hrun |]. simpl.
    rewrite !length_insert. repeat split; try assumption.
    - rewrite list_lookup_insert_ne by lia. apply Hrest. lia.
    - rewrite list_lookup_insert_ne by lia. apply Hrest. lia.
    - intros y' frow' Hy' Hf'.
      destruct (decide (y' = y)) as [-> | Hne].
      + rewrite Hf in Hf'. injection Hf' as <-.
        exists lrow, rrow.
        rewrite !list_lookup_insert_eq by lia.
        repeat split; try assumption; apply Hrow; assumption.
      + rewrite !list_lookup_insert_ne by congruence.
        apply Hdone; [lia | exact Hf']. }
  destruct (for_each_seq_inv body P h 0%nat _ Hinit Hstep)
    as ([left right] & Hrun & Hlh & Hrh & _ & Hdone).
  simpl in *. exists left, right. split; [exact Hrun |].
  assert (forall y frow, frame !! y = Some frow ->
            exists lrow rrow,
              left !! y = Some lrow /\ right !! y = Some rrow /\
              length lrow = w /\ length rrow = w /\
              forall c, (c < w)%nat ->
                last_write_wins (-1) (shift_at shift_fn depth_map ms y) w
                  frow c (lrow !! c) /\
                last_write_wins 1 (shift_at shift_fn depth_map ms y) w
                  frow c (rrow !! c)) as Hall.
  { intros y frow Hf. apply Hdone; [| exact Hf].
    apply lookup_lt_Some in Hf. lia. }
  repeat split; try assumption.
  - rewrite Forall_lookup. intros y lrow Hy.
    assert (is_Some (frame !! y)) as [frow Hf].
    { apply lookup_lt_is_Some. apply lookup_lt_Some in Hy. lia. }
    destruct (Hall y frow Hf) as (lrow' & rrow' & Hl & _ & Hll & _).
    rewrite Hl in Hy. injection Hy as <-. exact Hll.
  - rewrite Forall_lookup. intros y rrow Hy.
    assert (is_Some (frame !! y)) as [frow Hf].
    { apply lookup_lt_is_Some. apply lookup_lt_Some in Hy. lia. }
    destruct (Hall y frow Hf) as (lrow' & rrow' & _ & Hr & _ & Hlr & _).
    rewrite Hr in Hy. injection Hy as <-. exact Hlr.
  - destruct (Hall y frow H) as (lrow & rrow & Hl & _ & _ & _ & Hrow).
    unfold at2. rewrite Hl. simpl. apply Hrow. assumption.
  - destruct (Hall y frow H) as (lrow & rrow & _ & Hr & _ & _ & Hrow).
    unfold at2. rewrite Hr. simpl. apply Hrow. assumption.
Qed.

(** *** Truncation and rounding of rationals *)

Lemma Qnum_nonneg (q : Q) : (0 <= q)%Q -> 0 <= Qnum q.
Proof. unfold Qle. simpl. lia. Qed.

Lemma Qint_floor (q : Q) : (0 <= q)%Q -> Qint q = Qfloor q.
Proof.
  intros H. apply Qnum_nonneg in H. destruct q as [n d]. simpl in *.
  unfold Qint. simpl. apply Z.quot_div_nonneg; lia.
Qed.

Lemma Qint_nonneg (q : Q) : (0 <= q)%Q -> 0 <= Qint q.
Proof.
  intros H. apply Qnum_nonneg in H. unfold Qint.
  apply Z.quot_pos; lia.
Qed.

Lemma Qint_le (q : Q) (n : Z) :
  (0 <= q)%Q -> (q <= inject_Z n)%Q -> Qint q <= n.
Proof.
  intros H0 Hn. rewrite Qint_floor by exact H0.
  apply Qfloor_resp_le in Hn. rewrite Qfloor_Z in Hn. exact Hn.
Qed.


Lemma lit_0_05_nonneg : (0 <= lit_0_05)%Q.
Proof. unfold lit_0_05, Qle. simpl. lia. Qed.

Lemma width_product_nonneg (w : Z) :
  0 <= w -> (0 <= inject_Z w * lit_0_05)%Q.
Proof.
  intros H. apply Qmult_le_0_compat; [| apply lit_0_05_nonneg].
  unfold Qle. simpl. lia.
Qed.

Lemma max_shift_nonneg (w : Z) : 0 <= w -> 0 <= max_shift w.
Proof. intros H. apply Qint_nonneg, width_product_nonneg, H. Qed.


Lemma shift_of_bounds (d : Q) (ms : Z) :
  (0 <= d)%Q -> (d <= 1)%Q -> 0 <= ms -> 0 <= shift_of d ms <= ms.
Proof.
  intros Hd0 Hd1 Hms. unfold shift_of.
  assert (0 <= inject_Z ms)%Q as Hq by (unfold Qle; simpl; lia).
  split.
  - apply Qint_nonneg, Qmult_le_0_compat; assumption.
  - apply Qint_le; [apply Qmult_le_0_compat; assumption |].
    rewrite <- (Qmult_1_l (inject_Z ms)) at 2.
    apply Qmult_le_compat_r; assumption.
Qed.

Lemma shift_at_bounds depth_map (h w : nat) ms y x :
  has_shape h w depth_map -> in_unit depth_map -> 0 <= ms ->
  0 <= shift_at shift_of depth_map ms y x <= ms.
Proof.
  intros [_ _] Hunit Hms. unfold shift_at, at2.
  destruct (depth_map !! y) as [drow |] eqn:Hy; simpl;
    [destruct (drow !! x) as [d |] eqn:Hx; simpl |].
  - unfold in_unit in Hunit. rewrite Forall_lookup in Hunit.
    specialize (Hunit _ _ Hy). rewrite Forall_lookup in Hunit.
    destruct (Hunit _ _ Hx) as [H0 H1]. apply shift_of_bounds; assumption.
  - apply shift_of_bounds; [apply Qle_refl | unfold Qle; simpl; lia | lia].
  - apply shift_of_bounds; [apply Qle_refl | unfold Qle; simpl; lia | lia].
Qed.

(** *** The claims on the synthesizer *)

(** The views of the synthesizer are the row-major forward splat of the
    frame under the truncated shifts. *)
Lemma stereo_views_splat frame depth_map :
  has_shape (height frame) (width frame) frame ->
  has_shape (height frame) (width frame) depth_map ->
  in_unit depth_map ->
  let w := width frame in
  let shifts := shift_at shift_of depth_map (max_shift (Z.of_nat w)) in
  exists left right,
    stereo_views frame depth_map = Ok (left, right) /\
    has_shape (height frame) w left /\
    has_shape (height frame) w right /\
    forall y c frow, frame !! y = Some frow -> (c < w)%nat ->
      last_write_wins (-1) (shifts y) w frow c (at2 left y c) /\
      last_write_wins 1 (shifts y) w frow c (at2 right y c).
Proof.
  intros Hf Hd Hunit w shifts. unfold stereo_views.
  apply displace_splat; try assumption.
  intros y x _ _.
  apply (shift_at_bounds depth_map (height frame) w); try assumption.
  apply max_shift_nonneg. lia.
Qed.



End StereoFacts.

(** *** The synthesizer on concrete frames *)

Section StereoExamples.
Import Stereo.




End StereoExamples.

(** ** Frame names and their order *)

Section NamingFacts.
Import Naming.
Local Open Scope N_scope.

(** *** Decimal digits *)

Lemma digits_le_value fuel n :
  n < 10 ^ N.of_nat fuel -> value_le (digits_le fuel n) = n.
Proof.
  revert n. induction fuel as [| fuel IH]; intros n Hn.
  - simpl in *. lia.
  - simpl. destruct (N.ltb_spec n 10) as [Hlt | Hge]; simpl; [lia |].
    rewrite IH.
    + pose proof (N.div_mod n 10). lia.
    + rewrite Nat2N.inj_succ, N.pow_succ_r' in Hn.
      apply N.Div0.div_lt_upper_bound. lia.
Qed.

Lemma digits_le_small fuel n : Forall (fun d => d < 10) (digits_le fuel n).
Proof.
  revert n. induction fuel as [| fuel IH]; intros n; simpl.
  - constructor.
  - destruct (N.ltb_spec n 10); [repeat constructor; assumption |].
    constructor; [apply N.mod_lt; lia | apply IH].
Qed.

Lemma digits_le_length fuel n k :
  n < 10 ^ N.of_nat (S k) -> (length (digits_le fuel n) <= S k)%nat.
Proof.
  revert n k. induction fuel as [| fuel IH]; intros n k Hn; simpl; [lia |].
  destruct (N.ltb_spec n 10) as [Hlt | Hge]; simpl; [lia |].
  destruct k as [| k].
  - simpl in Hn. lia.
  - apply le_n_S, IH.
    rewrite (Nat2N.inj_succ (S k)), N.pow_succ_r' in Hn.
    apply N.Div0.div_lt_upper_bound. lia.
Qed.

(** The fuel of [digits] is enough. *)
Lemma digits_fuel n : n < 10 ^ N.of_nat (S (N.to_nat (N.log2 n))).
Proof.
  rewrite Nat2N.inj_succ, N2Nat.id.
  destruct (N.eq_dec n 0) as [-> | Hn]; [reflexivity |].
  destruct (N.log2_spec n) as [_ Hlt]; [lia |].
  eapply N.lt_le_trans; [exact Hlt |].
  apply N.pow_le_mono_l. lia.
Qed.

Lemma value_be_snoc ds d : value_be (ds ++ [d]) = 10 * value_be ds + d.
Proof.
  induction ds as [| x ds IH]; simpl; [lia |].
  rewrite IH, length_app. simpl.
  rewrite Nat.add_1_r, Nat2N.inj_succ, N.pow_succ_r'. lia.
Qed.

Lemma value_be_rev ds : value_be (rev ds) = value_le ds.
Proof.
  induction ds as [| d ds IH]; simpl; [reflexivity |].
  rewrite value_be_snoc, IH. lia.
Qed.

Lemma value_be_digits n : value_be (digits n) = n.
Proof.
  unfold digits. rewrite value_be_rev. apply digits_le_value, digits_fuel.
Qed.

Lemma value_be_pad k ds : value_be (replicate k 0 ++ ds) = value_be ds.
Proof. induction k as [| k IH]; simpl; [reflexivity | rewrite IH; lia]. Qed.

Lemma value_be_bound ds :
  Forall (fun d => d < 10) ds -> value_be ds < 10 ^ N.of_nat (length ds).
Proof.
  induction 1 as [| d ds Hd _ IH]; simpl; [lia |].
  rewrite Nat2N.inj_succ, N.pow_succ_r'. nia.
Qed.

(** Digit strings of one length compare as their values do. *)
Lemma lex_compare_value xs ys :
  length xs = length ys ->
  Forall (fun d => d < 10) xs -> Forall (fun d => d < 10) ys ->
  lex_compare xs ys = (value_be xs ?= value_be ys).
Proof.
  revert ys. induction xs as [| x xs IH]; intros [| y ys] Hlen Hxs Hys;
    try discriminate; simpl; [reflexivity |].
  injection Hlen as Hlen.
  apply Forall_cons in Hxs as [Hx Hxs]. apply Forall_cons in Hys as [Hy Hys].
  pose proof (value_be_bound xs Hxs) as Bx.
  pose proof (value_be_bound ys Hys) as By.
  rewrite Hlen in Bx. set (p := 10 ^ N.of_nat (length ys)) in *.
  rewrite Hlen. fold p.
  destruct (N.compare_spec x y) as [-> | Hlt | Hgt].
  - rewrite IH by assumption.
    destruct (N.compare_spec (value_be xs) (value_be ys));
      symmetry; [apply N.compare_eq_iff | apply N.compare_lt_iff
                | apply N.compare_gt_iff]; lia.
  - symmetry. apply N.compare_lt_iff. nia.
  - symmetry. apply N.compare_gt_iff. nia.
Qed.

(** *** Strings *)

Lemma ascii_compare_refl (c : ascii) : Ascii.compare c c = Eq.
Proof. unfold Ascii.compare. apply N.compare_refl. Qed.

Lemma string_compare_refl (s : string) : String.compare s s = Eq.
Proof.
  induction s as [| c s IH]; simpl; [reflexivity |].
  rewrite ascii_compare_refl. exact IH.
Qed.

Lemma string_compare_app_l (p s t : string) :
  String.compare (p +:+ s) (p +:+ t) = String.compare s t.
Proof.
  induction p as [| c p IH]; simpl; [reflexivity |].
  rewrite ascii_compare_refl. exact IH.
Qed.

Lemma string_compare_app_r (s t q : string) :
  String.length s = String.length t ->
  String.compare (s +:+ q) (t +:+ q) = String.compare s t.
Proof.
  revert t. induction s as [| c s IH]; intros [| d t] Hlen;
    try discriminate; simpl.
  - apply string_compare_refl.
  - injection Hlen as Hlen. destruct (Ascii.compare c d); auto.
Qed.

Lemma string_length_app (s t : string) :
  String.length (s +:+ t) = (String.length s + String.length t)%nat.
Proof. induction s as [| c s IH]; simpl; [reflexivity | rewrite IH; lia]. Qed.

Lemma string_app_inv_r (s t q : string) : s +:+ q = t +:+ q -> s = t.
Proof.
  revert t. induction s as [| c s IH]; intros [| d t] H; simpl in H.
  - reflexivity.
  - apply (f_equal String.length) in H.
    rewrite !string_length_app in H. simpl in H. lia.
  - apply (f_equal String.length) in H.
    rewrite !string_length_app in H. simpl in H. lia.
  - injection H as -> H. f_equal. apply IH, H.
Qed.

Lemma substring_all (q : string) : substring 0 (String.length q) q = q.
Proof. induction q as [| c q IH]; simpl; [reflexivity | rewrite IH; reflexivity]. Qed.

Lemma substring_skip (p q : string) :
  substring (String.length p) (String.length q) (p +:+ q) = q.
Proof. induction p as [| c p IH]; simpl; [apply substring_all | exact IH]. Qed.

Lemma endswith_app (p q : string) : endswith (p +:+ q) q = true.
Proof.
  unfold endswith. rewrite string_length_app.
  replace (String.length p + String.length q - String.length q)%nat
    with (String.length p) by lia.
  rewrite substring_skip, String.eqb_refl.
  rewrite andb_true_r. apply Nat.leb_le. lia.
Qed.

Lemma digit_char_code d : d < 10 -> N_of_ascii (digit_char d) = 48 + d.
Proof. intros H. unfold digit_char. apply N_ascii_embedding. lia. Qed.

Lemma string_of_digits_length ds :
  String.length (string_of_digits ds) = length ds.
Proof.
  unfold string_of_digits.
  induction ds as [| d ds IH]; simpl; [reflexivity | rewrite IH; reflexivity].
Qed.

Lemma string_of_digits_compare xs ys :
  Forall (fun d => d < 10) xs -> Forall (fun d => d < 10) ys ->
  String.compare (string_of_digits xs) (string_of_digits ys)
    = lex_compare xs ys.
Proof.
  unfold string_of_digits. intros Hxs. revert ys.
  induction Hxs as [| x xs Hx _ IH]; intros ys Hys;
    destruct Hys as [| y ys Hy Hys]; simpl; try reflexivity.
  unfold Ascii.compare. rewrite !digit_char_code by assumption.
  destruct (N.compare_spec (48 + x) (48 + y)) as [H | H | H];
    destruct (N.compare_spec x y); try lia; auto.
Qed.

(** *** [format_06d] and [frame_name] *)

Lemma digits_small n : Forall (fun d => d < 10) (digits n).
Proof. unfold digits. apply Forall_rev, digits_le_small. Qed.

Lemma padded_small n :
  Forall (fun d => d < 10) (replicate (6 - length (digits n)) 0 ++ digits n).
Proof.
  apply Forall_app. split; [| apply digits_small].
  apply Forall_replicate. lia.
Qed.

Lemma padded_value n :
  value_be (replicate (6 - length (digits n)) 0 ++ digits n) = n.
Proof. rewrite value_be_pad. apply value_be_digits. Qed.

(** Below one million the index takes exactly six digits. *)
Lemma padded_length n :
  n < 1000000 ->
  length (replicate (6 - length (digits n)) 0 ++ digits n) = 6%nat.
Proof.
  intros Hn. rewrite length_app, length_replicate.
  assert (length (digits n) <= 6)%nat; [| lia].
  unfold digits. rewrite length_rev. apply digits_le_length.
  exact Hn.
Qed.

Lemma format_06d_compare i j :
  i < 1000000 -> j < 1000000 ->
  String.compare (format_06d i) (format_06d j) = (i ?= j).
Proof.
  intros Hi Hj. unfold format_06d.
  rewrite string_of_digits_compare by apply padded_small.
  rewrite lex_compare_value; try apply padded_small.
  - rewrite !padded_value. reflexivity.
  - rewrite !padded_length by assumption. reflexivity.
Qed.

Lemma frame_name_compare i j :
  i < 1000000 -> j < 1000000 ->
  String.compare (frame_name i) (frame_name j) = (i ?= j).
Proof.
  intros Hi Hj. unfold frame_name.
  rewrite string_compare_app_l, string_compare_app_r.
  - apply format_06d_compare; assumption.
  - unfold format_06d. rewrite !string_of_digits_length.
    rewrite !padded_length by assumption. reflexivity.
Qed.

Lemma string_of_digits_inj xs ys :
  Forall (fun d => d < 10) xs -> Forall (fun d => d < 10) ys ->
  string_of_digits xs = string_of_digits ys -> xs = ys.
Proof.
  unfold string_of_digits. intros Hxs. revert ys.
  induction Hxs as [| x xs Hx _ IH]; intros ys Hys H;
    destruct Hys as [| y ys Hy Hys]; simpl in H; try discriminate;
    [reflexivity |].
  injection H as Hc H. f_equal; [| apply IH; assumption].
  apply (f_equal N_of_ascii) in Hc.
  rewrite !digit_char_code in Hc by assumption. lia.
Qed.

(** Frame names are distinct, whatever the indices. *)
Lemma frame_name_inj i j : frame_name i = frame_name j -> i = j.
Proof.
  unfold frame_name. intros H.
  apply String.app_inj in H. apply string_app_inv_r in H.
  unfold format_06d in H.
  apply string_of_digits_inj in H; try apply padded_small.
  rewrite <- (padded_value i), <- (padded_value j), H. reflexivity.
Qed.

Lemma string_app_assoc (s t u : string) : (s +:+ t) +:+ u = s +:+ t +:+ u.
Proof.
  induction s as [| c s IH]; [reflexivity |].
  change (String c ((s +:+ t) +:+ u) = String c (s +:+ t +:+ u)).
  f_equal. exact IH.
Qed.

Lemma frame_name_jpg i : endswith (frame_name i) ".jpg" = true.
Proof.
  unfold frame_name. rewrite <- string_app_assoc. apply endswith_app.
Qed.

(** *** The order of strings and sorted listings *)

Lemma string_compare_trans_le (s t u : string) :
  String.compare s t <> Gt -> String.compare t u <> Gt ->
  String.compare s u <> Gt.
Proof.
  revert t u. induction s as [| a s IH]; intros [| b t] [| c u];
    simpl; try congruence.
  unfold Ascii.compare.
  destruct (N.compare_spec (N_of_ascii a) (N_of_ascii b)) as [Hab | Hab | Hab];
    destruct (N.compare_spec (N_of_ascii b) (N_of_ascii c)) as [Hbc | Hbc | Hbc];
    destruct (N.compare_spec (N_of_ascii a) (N_of_ascii c)) as [Hac | Hac | Hac];
    try congruence; try lia.
  apply IH.
Qed.

Lemma str_le_compare s t : str_le s t <-> String.compare s t <> Gt.
Proof.
  unfold str_le, String.leb.
  destruct (String.compare s t); split; congruence.
Qed.

#[local] Instance str_le_trans : Transitive str_le.
Proof.
  intros s t u. rewrite !str_le_compare. apply string_compare_trans_le.
Qed.

#[local] Instance str_le_total : Total str_le.
Proof. intros s t. apply String.leb_total. Qed.

#[local] Instance str_le_antisym : AntiSymm eq str_le.
Proof. intros s t. apply String.leb_antisym. Qed.

Lemma frame_name_le i j :
  i < 1000000 -> j < 1000000 -> i <= j ->
  str_le (frame_name i) (frame_name j).
Proof.
  intros Hi Hj Hij. apply str_le_compare.
  rewrite frame_name_compare by assumption.
  intros H. apply N.compare_gt_iff in H. lia.
Qed.

(** The names of the first [n] frames, in index order, are sorted. *)
Lemma frame_names_sorted n :
  N.of_nat n <= 1000000 -> Sorted str_le (frame_name <$> indices n).
Proof.
  intros Hn. apply StronglySorted_Sorted.
  unfold indices. rewrite <- list_fmap_compose.
  assert (forall a, N.of_nat (a + n) <= 1000000 ->
            StronglySorted str_le
              ((frame_name ∘ N.of_nat) <$> seq a n)) as H.
  { clear Hn. induction n as [| n IH]; intros a Ha; simpl;
      constructor.
    - apply IH. lia.
    - rewrite Forall_fmap, Forall_forall. intros k Hk.
      apply elem_of_seq in Hk. simpl. apply frame_name_le; lia. }
  apply H. lia.
Qed.

(** C9, the first half as the code has it: for at most a million
    frames, the sorted listing of the frame directory is the list of
    frame names in index order, in whatever order the platform lists
    the directory; and two names of indices below a million compare
    as the indices do. *)
Lemma frame_files_in_index_order n listing :
  N.of_nat n <= 1000000 ->
  listing ≡ₚ frame_name <$> indices n ->
  frame_files listing = frame_name <$> indices n.
Proof.
  intros Hn Hperm. unfold frame_files, sorted.
  assert (filter (fun f => endswith f ".jpg" = true) listing = listing)
    as ->.
  { assert (Forall (fun f => endswith f ".jpg" = true) listing) as Hall.
    { rewrite Hperm, Forall_fmap. apply Forall_true. intros i. simpl.
      apply frame_name_jpg. }
    clear Hperm. induction Hall as [| f l Hf _ IH]; [reflexivity |].
    rewrite filter_cons_True by exact Hf. rewrite IH. reflexivity. }
  apply (Sorted_unique str_le).
  - apply Sorted_merge_sort. apply _.
  - apply frame_names_sorted, Hn.
  - rewrite merge_sort_Permutation. exact Hperm.
Qed.
End NamingFacts.

Section DirectoryFacts.
Import Naming.
Context {A : Type}.
Implicit Types (dir : gmap string A) (new : list A).

(** *** Directories of frame files *)

Lemma store_frames_other start new dir name :
  (forall i, (i < length new)%nat ->
     name <> frame_name (start + N.of_nat i)) ->
  store_frames start new dir !! name = dir !! name.
Proof.
  revert start dir. induction new as [| file new IH];
    intros start dir Hne; simpl; [reflexivity |].
  rewrite IH.
  - apply lookup_insert_ne. intros Heq.
    apply (Hne 0%nat); [simpl; lia |].
    rewrite N.add_0_r. congruence.
  - intros i Hi. specialize (Hne (S i)).
    replace (start + 1 + N.of_nat i)%N with (start + N.of_nat (S i))%N
      by lia.
    apply Hne. simpl. lia.
Qed.

Lemma store_frames_lookup start new dir i :
  (i < length new)%nat ->
  store_frames start new dir !! frame_name (start + N.of_nat i) = new !! i.
Proof.
  revert start dir i. induction new as [| file new IH];
    intros start dir i Hi; simpl in *; [lia |].
  destruct i as [| i].
  - rewrite store_frames_other.
    + rewrite N.add_0_r. apply lookup_insert_eq.
    + intros j _ Heq. apply frame_name_inj in Heq. lia.
  - replace (start + N.of_nat (S i))%N with (start + 1 + N.of_nat i)%N
      by lia.
    apply IH. lia.
Qed.

(** The names in a directory the extraction loop filled. *)
Lemma store_frames_names new name :
  is_Some (store_frames 0 new ∅ !! name) <->
  name ∈ frame_name <$> indices (length new).
Proof.
  unfold indices. rewrite <- list_fmap_compose.
  split.
  - intros Hsome.
    destruct (decide (name ∈ (frame_name ∘ N.of_nat) <$> seq 0 (length new)))
      as [Hin | Hnot]; [exact Hin |].
    rewrite store_frames_other, lookup_empty in Hsome.
    + destruct Hsome as [? [=]].
    + intros i Hi Heq. apply Hnot. apply list_elem_of_fmap.
      exists i. split; [rewrite Heq; simpl; f_equal; lia |].
      apply elem_of_seq. lia.
  - rewrite list_elem_of_fmap.
    intros (i & -> & Hi). apply elem_of_seq in Hi. simpl.
    replace (N.of_nat i) with (0 + N.of_nat i)%N by lia.
    rewrite store_frames_lookup by lia.
    apply lookup_lt_is_Some. lia.
Qed.

Lemma frame_names_NoDup n : NoDup (frame_name <$> indices n).
Proof.
  unfold indices. rewrite <- list_fmap_compose.
  apply NoDup_fmap_2; [| apply NoDup_seq].
  intros i j H. simpl in H. apply frame_name_inj in H. lia.
Qed.

(** However the platform lists the directory, the listing is a
    permutation of the frame names. *)
Lemma store_frames_listing new :
  (map_to_list (store_frames 0 new ∅)).*1
    ≡ₚ frame_name <$> indices (length new).
Proof.
  apply NoDup_Permutation.
  - apply NoDup_fst_map_to_list.
  - apply frame_names_NoDup.
  - intros name. rewrite <- store_frames_names.
    rewrite list_elem_of_fmap. split.
    + intros ([name' file] & -> & Hin). simpl.
      apply elem_of_map_to_list in Hin. eauto.
    + intros [file Hfile]. exists (name, file). split; [reflexivity |].
      apply elem_of_map_to_list. exact Hfile.
Qed.

Lemma filter_all {B} (P : B -> Prop) `{forall x, Decision (P x)} (l : list B) :
  Forall P l -> filter P l = l.
Proof.
  induction 1 as [| x l Hx _ IH]; [reflexivity |].
  rewrite filter_cons_True by exact Hx. rewrite IH. reflexivity.
Qed.

(** [frame_files] keeps every name of such a listing. *)
Lemma frame_files_permutation listing n :
  listing ≡ₚ frame_name <$> indices n ->
  frame_files listing ≡ₚ frame_name <$> indices n.
Proof.
  intros Hperm. unfold frame_files, sorted.
  rewrite merge_sort_Permutation, filter_all; [exact Hperm |].
  rewrite Hperm, Forall_fmap. apply Forall_true. intros i.
  apply frame_name_jpg.
Qed.
End DirectoryFacts.

(** ** Progress percentages *)

Section ProgressFacts.
Local Open Scope Q_scope.

Lemma scale_mono (a b c : Z) (s : Q) :
  (0 < c)%Z -> (a <= b)%Z -> 0 <= s ->
  (inject_Z a / inject_Z c) * s <= (inject_Z b / inject_Z c) * s.
Proof.
  intros Hc Hab Hs. apply Qmult_le_compat_r; [| exact Hs].
  apply Qmult_le_compat_r.
  - rewrite <- Zle_Qle. exact Hab.
  - apply Qinv_le_0_compat. unfold Qle. simpl. lia.
Qed.

Lemma scale_unit (c : Z) (s : Q) :
  (0 < c)%Z -> (inject_Z c / inject_Z c) * s == s.
Proof.
  intros Hc. unfold Qdiv. rewrite Qmult_inv_r.
  - apply Qmult_1_l.
  - intros H. unfold Qeq in H. simpl in H. lia.
Qed.

Lemma scale_zero (c : Z) (s : Q) : (inject_Z 0 / inject_Z c) * s == 0.
Proof. unfold Qdiv. rewrite !Qmult_0_l. reflexivity. Qed.

Lemma scale_upper (a c : Z) (s : Q) :
  (0 < c)%Z -> (a <= c)%Z -> 0 <= s -> (inject_Z a / inject_Z c) * s <= s.
Proof.
  intros Hc Ha Hs. rewrite <- (scale_unit c s Hc) at 2.
  apply scale_mono; assumption.
Qed.

Lemma scale_lower (a c : Z) (s : Q) :
  (0 < c)%Z -> (0 <= a)%Z -> 0 <= s -> 0 <= (inject_Z a / inject_Z c) * s.
Proof.
  intros Hc Ha Hs. rewrite <- (scale_zero c s).
  apply scale_mono; assumption.
Qed.

(** A list computed from [0 .. n-1] by a monotone function is sorted. *)
Lemma StronglySorted_fmap_seq {B} (R : relation B) (f : nat -> B) a n :
  (forall i j, (a <= i)%nat -> (i <= j)%nat -> (j < a + n)%nat ->
     R (f i) (f j)) ->
  StronglySorted R (f <$> seq a n).
Proof.
  revert a. induction n as [| n IH]; intros a Hmono; simpl; constructor.
  - apply IH. intros i j Hi Hij Hj. apply Hmono; lia.
  - rewrite Forall_fmap, Forall_forall. intros j Hj.
    apply elem_of_seq in Hj. simpl. apply Hmono; lia.
Qed.
End ProgressFacts.

Section SequenceFacts.
Import Naming.
Context {A : Type}.
Implicit Types (dir : gmap string A).

(** *** Directories written by name, and the encoder's sequence *)

Lemma store_named_other (entries : list (string * A)) dir name :
  name ∉ entries.*1 -> store_named entries dir !! name = dir !! name.
Proof.
  revert dir. induction entries as [| [k v] entries IH]; intros dir Hnot;
    simpl; [reflexivity |].
  rewrite fmap_cons, not_elem_of_cons in Hnot. destruct Hnot as [Hne Hnot].
  rewrite IH by exact Hnot. apply lookup_insert_ne.
  simpl in Hne. congruence.
Qed.

Lemma store_named_lookup (entries : list (string * A)) dir name v :
  NoDup entries.*1 -> (name, v) ∈ entries ->
  store_named entries dir !! name = Some v.
Proof.
  revert dir. induction entries as [| [k x] entries IH];
    intros dir Hnodup Hin; simpl.
  - apply elem_of_nil in Hin. destruct Hin.
  - rewrite fmap_cons in Hnodup. apply NoDup_cons in Hnodup as [Hk Hnodup].
    apply elem_of_cons in Hin as [[= -> ->] | Hin].
    + rewrite store_named_other by exact Hk. apply lookup_insert_eq.
    + apply IH; assumption.
Qed.

Lemma store_named_size (entries : list (string * A)) dir :
  NoDup entries.*1 -> (forall name, name ∈ entries.*1 -> dir !! name = None) ->
  size (store_named entries dir) = (size dir + length entries)%nat.
Proof.
  revert dir. induction entries as [| [k x] entries IH];
    intros dir Hnodup Hfresh; simpl; [lia |].
  rewrite fmap_cons in Hnodup. apply NoDup_cons in Hnodup as [Hk Hnodup].
  rewrite IH.
  - rewrite map_size_insert_None; [lia |].
    apply Hfresh. rewrite fmap_cons. apply elem_of_cons. left. reflexivity.
  - exact Hnodup.
  - intros name Hname. rewrite lookup_insert_ne.
    + apply Hfresh. rewrite fmap_cons. apply elem_of_cons. right.
      exact Hname.
    + intros ->. apply Hk, Hname.
Qed.

(** The encoder reads the numbered files in index order, as far as
    they go. *)
Lemma sequence_from_run dir (vals : list A) fuel start :
  (forall i, dir !! frame_name (start + N.of_nat i) = vals !! i) ->
  (length vals <= fuel)%nat ->
  sequence_from dir fuel start = vals.
Proof.
  revert fuel start. induction vals as [| v vals IH];
    intros fuel start Hdir Hfuel.
  - destruct fuel as [| fuel]; [reflexivity |]. simpl.
    specialize (Hdir 0%nat). rewrite N.add_0_r in Hdir.
    rewrite Hdir. reflexivity.
  - destruct fuel as [| fuel]; [simpl in Hfuel; lia |]. simpl.
    pose proof (Hdir 0%nat) as H0. rewrite N.add_0_r in H0.
    rewrite H0. simpl. f_equal. apply IH.
    + intros i. specialize (Hdir (S i)).
      replace (start + 1 + N.of_nat i)%N with (start + N.of_nat (S i))%N
        by lia.
      exact Hdir.
    + simpl in Hfuel. lia.
Qed.

Lemma image2_sequence_run dir (vals : list A) :
  (forall i, dir !! frame_name (N.of_nat i) = vals !! i) ->
  (length vals <= size dir)%nat ->
  vals <> [] ->
  image2_sequence dir = Ok vals.
Proof.
  intros Hdir Hsize Hne. unfold image2_sequence.
  assert (is_Some (dir !! frame_name 0)) as H0.
  { pose proof (Hdir 0%nat) as H0.
    change (N.of_nat 0) with 0%N in H0. rewrite H0.
    destruct vals; [congruence | eauto]. }
  cbn [find]. rewrite bool_decide_eq_true_2 by exact H0.
  f_equal. apply sequence_from_run; [| exact Hsize].
  intros i. rewrite N.add_0_l. apply Hdir.
Qed.

Lemma image2_sequence_empty : image2_sequence (∅ : gmap string A) <> Ok [].
Proof.
  unfold image2_sequence. cbn [find].
  rewrite !lookup_empty.
  rewrite !bool_decide_eq_false_2 by (intros [? [=]]). discriminate.
Qed.

Lemma Forall_exists_Forall2 {B C} (R : B -> C -> Prop) (l : list B) :
  Forall (fun x => exists y, R x y) l -> exists k, Forall2 R l k.
Proof.
  induction 1 as [| x l [y Hy] _ [k Hk]].
  - exists []. constructor.
  - exists (y :: k). constructor; assumption.
Qed.
End SequenceFacts.

(** ** The pipeline *)

Section PipelineFacts.
Import Pipeline.
Context {image : Type}.
Variable env : @Env image.
Implicit Types (w : @World image).

(** *** The monad *)

Lemma mbind_ok {A B} (m : M A) (k : A -> M B) w1 (b : B) w3 :
  (m ≫= k) w1 = (Ok b, w3) <->
  exists a w2, m w1 = (Ok a, w2) /\ k a w2 = (Ok b, w3).
Proof.
  unfold mbind, M_bind. destruct (m w1) as [[a | e] w2]; split.
  - eauto.
  - intros (a' & w2' & [= -> ->] & H). exact H.
  - discriminate.
  - intros (a' & w2' & [=] & _).
Qed.

Lemma mbind_raise {A B} (m : M A) (k : A -> M B) w1 e w3 :
  (m ≫= k) w1 = (Raise e, w3) <->
  m w1 = (Raise e, w3) \/
  exists a w2, m w1 = (Ok a, w2) /\ k a w2 = (Raise e, w3).
Proof.
  unfold mbind, M_bind. destruct (m w1) as [[a | e'] w2]; split.
  - eauto.
  - intros [[=] | (a' & w2' & [= -> ->] & H)]. exact H.
  - intros [= -> ->]. left. reflexivity.
  - intros [[= -> ->] | (a' & w2' & [=] & _)]. reflexivity.
Qed.


(** *** The extraction loop *)

Lemma seq_shift_fmap {B} (f : nat -> B) (a n : nat) :
  f <$> seq (S a) n = (fun i => f (S i)) <$> seq a n.
Proof.
  rewrite <- fmap_S_seq, <- list_fmap_compose. reflexivity.
Qed.

Lemma extraction_reports_cons frame_count start n :
  extraction_reports frame_count start (S n) =
    ((inject_Z (Z.of_N (start + 1)) / inject_Z frame_count) * 20,
     "Extracting frames")%Q
    :: extraction_reports frame_count (start + 1) n.
Proof.
  unfold extraction_reports. cbn [seq fmap list_fmap].
  replace (Z.of_N start + Z.of_nat 0 + 1) with (Z.of_N (start + 1)) by lia.
  f_equal. rewrite seq_shift_fmap. apply list_fmap_ext. intros _ i _.
  replace (Z.of_N start + Z.of_nat (S i) + 1)
    with (Z.of_N (start + 1) + Z.of_nat i + 1) by lia.
  reflexivity.
Qed.

(** The loop runs to the end unless a progress report divides by a
    zero frame count. *)
Lemma read_loop_run (progress_callback : bool) frame_count pending
    frame_idx w :
  (progress_callback = true -> pending <> [] -> frame_count <> 0) ->
  read_loop env progress_callback frame_count pending frame_idx w =
    (Ok (frame_idx + N.of_nat (length pending))%N,
     {| workspace :=
          (fun ws =>
             {| ws_frames :=
                  Naming.store_frames frame_idx (jpeg env <$> pending)
                    (ws_frames ws);
                ws_processed := ws_processed ws;
                ws_thumbnail := ws_thumbnail ws |}) <$> workspace w;
        files := files w;
        reports :=
          reports w ++
          (if progress_callback
           then extraction_reports frame_count frame_idx (length pending)
           else []) |}).
Proof.
  revert frame_idx w.
  induction pending as [| frame pending IH]; intros frame_idx w Hcount.
  - simpl. unfold mret, M_ret. f_equal.
    + f_equal. lia.
    + destruct w as [[ws |] fs rs]; simpl;
        [destruct ws |]; destruct progress_callback;
        rewrite ?app_nil_r; reflexivity.
  - cbn [read_loop]. unfold mbind, M_bind, modify_workspace at 1.
    destruct progress_callback.
    + unfold lift, fraction_of.
      destruct (Z.eqb_spec frame_count 0) as [H0 | Hne];
        [exfalso; apply Hcount; [reflexivity | discriminate | exact H0] |].
      unfold report. cbn [fst snd workspace files reports].
      rewrite IH by (intros; exact Hne).
      cbn [fst snd workspace files reports length].
      f_equal; [f_equal; lia |].
      f_equal.
      * destruct (workspace w) as [ws |]; reflexivity.
      * rewrite extraction_reports_cons, <- app_assoc. reflexivity.
    + unfold mret, M_ret. cbn [fst snd workspace files reports].
      rewrite IH by discriminate.
      cbn [fst snd workspace files reports length].
      f_equal; [f_equal; lia |].
      f_equal.
      destruct (workspace w) as [ws |]; reflexivity.
Qed.

(** *** The processing loop *)

Lemma processing_reports_cons total start n :
  processing_reports total start (S n) =
    (20 + (inject_Z start / inject_Z total) * 60,
     "Processing frames for VR 180°")%Q
    :: processing_reports total (start + 1) n.
Proof.
  unfold processing_reports. cbn [seq fmap list_fmap].
  replace (start + Z.of_nat 0) with start by lia.
  f_equal. rewrite seq_shift_fmap. apply list_fmap_ext. intros _ i _.
  replace (start + Z.of_nat (S i)) with (start + 1 + Z.of_nat i) by lia.
  reflexivity.
Qed.

(** A run of the loop to its end: every listed file was read and
    converted, and the converted frame was written under the same
    name. *)
Lemma process_loop_ok (progress_callback : bool) total names idx w ws w' :
  workspace w = Some ws ->
  process_loop env progress_callback total names idx w = (Ok (), w') ->
  exists stereo,
    Forall2 (fun name s =>
               exists frame, ws_frames ws !! name = Some frame /\
                             convert env frame = Ok s) names stereo /\
    w' = {| workspace :=
              Some {| ws_frames := ws_frames ws;
                      ws_processed :=
                        Naming.store_named (zip names (jpeg env <$> stereo))
                          (ws_processed ws);
                      ws_thumbnail := ws_thumbnail ws |};
            files := files w;
            reports :=
              reports w ++
              (if progress_callback
               then processing_reports total idx (length names)
               else []) |}.
Proof.
  revert idx w ws w'.
  induction names as [| name names IH]; intros idx w ws w' Hws Hrun.
  - simpl in Hrun. injection Hrun as <-. exists []. split; [constructor |].
    destruct w as [wsp fs rs]; simpl in *. subst wsp. destruct ws.
    destruct progress_callback; rewrite ?app_nil_r; reflexivity.
  - cbn [process_loop] in Hrun.
    unfold mbind, M_bind, get_workspace at 1 in Hrun. rewrite Hws in Hrun.
    unfold lift at 1 in Hrun.
    destruct (ws_frames ws !! name) as [frame |] eqn:Hframe;
      [| discriminate].
    unfold lift at 1 in Hrun.
    destruct (convert env frame) as [s | e] eqn:Hconv; [| discriminate].
    unfold modify_workspace at 1 in Hrun. rewrite Hws in Hrun.
    cbn [fmap option_fmap option_map workspace files reports ws_frames
         ws_processed ws_thumbnail] in Hrun.
    destruct progress_callback.
    + unfold lift, fraction_of in Hrun.
      destruct (total =? 0); [discriminate |].
      unfold report in Hrun.
      cbn [workspace files reports] in Hrun.
      eapply IH in Hrun; [| reflexivity].
      destruct Hrun as (stereo & Hall & ->).
      exists (s :: stereo). split.
      * constructor; [eauto | exact Hall].
      * cbn [ws_frames ws_processed ws_thumbnail workspace files reports
             length]. rewrite processing_reports_cons, <- app_assoc.
        reflexivity.
    + unfold mret, M_ret in Hrun.
      eapply IH in Hrun; [| reflexivity].
      destruct Hrun as (stereo & Hall & ->).
      exists (s :: stereo). split.
      * constructor; [eauto | exact Hall].
      * reflexivity.
Qed.

(** *** What the stages leave alone *)

Lemma keeps_files_ret {A} (a : A) : @keeps_files image _ (mret a).
Proof. intros w r w' [= <- <-]. reflexivity. Qed.

Lemma keeps_files_lift {A} (x : result A) : @keeps_files image _ (lift x).
Proof. intros w r w' [= <- <-]. reflexivity. Qed.

Lemma keeps_files_modify f : @keeps_files image _ (modify_workspace f).
Proof. intros w r w' [= <- <-]. reflexivity. Qed.

Lemma keeps_files_get : @keeps_files image _ get_workspace.
Proof.
  intros w r w'. unfold get_workspace.
  destruct (workspace w); intros [= <- <-]; reflexivity.
Qed.

Lemma keeps_files_report p msg : @keeps_files image _ (report p msg).
Proof. intros w r w' [= <- <-]. reflexivity. Qed.

Lemma keeps_files_bind {A B} (m : M A) (k : A -> M B) :
  @keeps_files image _ m -> (forall a, @keeps_files image _ (k a)) -> @keeps_files image _ (m ≫= k).
Proof.
  intros Hm Hk w r w'. unfold mbind, M_bind.
  destruct (m w) as [[a | e] w1] eqn:Hrun.
  - intros H. rewrite (Hk a _ _ _ H). eapply Hm, Hrun.
  - intros [= <- <-]. eapply Hm, Hrun.
Qed.

Create HintDb keeps.
#[local] Hint Resolve keeps_files_ret keeps_files_lift keeps_files_modify
  keeps_files_get keeps_files_report : keeps.

Lemma keeps_files_read_loop cb frame_count pending frame_idx :
  @keeps_files image _ (read_loop env cb frame_count pending frame_idx).
Proof.
  revert frame_idx. induction pending as [| frame pending IH];
    intros frame_idx; cbn [read_loop]; [auto with keeps |].
  apply keeps_files_bind; [auto with keeps | intros _].
  apply keeps_files_bind; [| intros _; apply IH].
  destruct cb; [| auto with keeps].
  apply keeps_files_bind; auto with keeps.
Qed.

Lemma keeps_files_extract video_path cb :
  @keeps_files image _ (_extract_frames env video_path cb).
Proof.
  unfold _extract_frames.
  apply keeps_files_bind; [apply keeps_files_read_loop | auto with keeps].
Qed.

Lemma keeps_files_process_loop cb total names idx :
  @keeps_files image _ (process_loop env cb total names idx).
Proof.
  revert idx. induction names as [| name names IH]; intros idx;
    cbn [process_loop]; [auto with keeps |].
  apply keeps_files_bind; [auto with keeps | intros ws].
  apply keeps_files_bind; [auto with keeps | intros frame].
  apply keeps_files_bind; [auto with keeps | intros s].
  apply keeps_files_bind; [auto with keeps | intros _].
  apply keeps_files_bind; [| intros _; apply IH].
  destruct cb; [| auto with keeps].
  apply keeps_files_bind; auto with keeps.
Qed.

Lemma keeps_files_process cb :
  @keeps_files image _ (_process_frames_for_vr180 env cb).
Proof.
  unfold _process_frames_for_vr180.
  apply keeps_files_bind; [auto with keeps | intros ws].
  apply keeps_files_process_loop.
Qed.

Lemma keeps_files_thumbnail video_path :
  @keeps_files image _ (_generate_thumbnail env video_path).
Proof.
  unfold _generate_thumbnail.
  apply keeps_files_bind; [auto with keeps | intros picture].
  apply keeps_files_bind; auto with keeps.
Qed.

Lemma keeps_files_metadata video_path :
  @keeps_files image _ (_get_video_metadata env video_path).
Proof.
  unfold _get_video_metadata. destruct (probe env video_path);
    auto with keeps.
Qed.

(** The encoder writes the destination only when it returns. *)
Lemma generate_video_files output_path settings cb w
    (outcome : result ()) w' :
  _generate_vr180_video env output_path settings cb w = (outcome, w') ->
  match outcome with
  | Ok _ => exists video, files w' = <[output_path := video]> (files w)
  | Raise _ => files w' = files w
  end.
Proof.
  unfold _generate_vr180_video, mbind, M_bind, get_workspace.
  destruct (workspace w) as [ws |]; [| intros [= <- <-]; reflexivity].
  destruct (Naming.frame_files _) as [| first rest];
    [intros [= <- <-]; reflexivity |].
  unfold mret, M_ret.
  destruct (Encoder._get_output_resolution _) as [ow oh].
  unfold lift.
  destruct (Encoder._get_bitrate _ _ _) as [rate | e];
    [| intros [= <- <-]; reflexivity].
  destruct (Naming.image2_sequence _) as [frames | e];
    [| intros [= <- <-]; reflexivity].
  destruct (encode_error env _) as [e |];
    [intros [= <- <-]; reflexivity |].
  destruct cb; intros [= <- <-]; eexists; reflexivity.
Qed.

(** A successful run, stage by stage. *)
Lemma process_video_succeeded input_path output_path settings
    (progress_callback : bool) w out thumbnail_path metadata w' :
  process_video env input_path output_path settings progress_callback w
    = (Succeeded out thumbnail_path metadata, w') ->
  dependencies_available env = true /\ mkdtemp_error env = None /\
  out = output_path /\
  exists w2 w3 w4 w5,
    _extract_frames env input_path progress_callback (start_world w)
      = (Ok (), w2) /\
    _process_frames_for_vr180 env progress_callback w2 = (Ok (), w3) /\
    _generate_vr180_video env output_path settings progress_callback w3
      = (Ok (), w4) /\
    _generate_thumbnail env input_path w4 = (Ok thumbnail_path, w5) /\
    _get_video_metadata env input_path w5 = (Ok metadata, w5) /\
    w' = remove_workspace w5.
Proof.
  unfold process_video.
  destruct (dependencies_available env); [| discriminate]. cbn [negb].
  unfold run_stages, with_temporary_directory.
  destruct (mkdtemp_error env); [discriminate |].
  unfold mbind, M_bind.
  destruct (_extract_frames _ _ _ _) as [[[] | e] w2] eqn:H1;
    [| discriminate].
  destruct (_process_frames_for_vr180 _ _ _) as [[[] | e] w3] eqn:H2;
    [| discriminate].
  destruct (_generate_vr180_video _ _ _ _ _) as [[[] | e] w4] eqn:H3;
    [| discriminate].
  destruct (_generate_thumbnail _ _ _) as [[t | e] w5] eqn:H4;
    [| discriminate].
  unfold _get_video_metadata, mret, M_ret.
  destruct (probe env input_path) as [m | e]; intros [= <- <- <- <-];
    repeat split; exists w2, w3, w4, w5; repeat split; assumption.
Qed.


(** *** Successful stages *)

Lemma read_loop_zero pending frame_idx w :
  pending <> [] ->
  exists e w', read_loop env true 0 pending frame_idx w = (Raise e, w').
Proof.
  destruct pending as [| frame pending]; [congruence | intros _].
  cbn [read_loop]. unfold mbind, M_bind, modify_workspace, lift, fraction_of.
  simpl. eauto.
Qed.

Lemma extract_frames_ok video_path (progress_callback : bool) w w2 :
  _extract_frames env video_path progress_callback (start_world w)
    = (Ok (), w2) ->
  let cap := capture env video_path in
  (progress_callback = true -> cap_frames cap <> [] ->
   cap_frame_count cap <> 0) /\
  w2 = {| workspace :=
            Some {| ws_frames :=
                      Naming.store_frames 0 (jpeg env <$> cap_frames cap) ∅;
                    ws_processed := ∅;
                    ws_thumbnail := None |};
          files := files w;
          reports :=
            reports w ++
            (if progress_callback
             then extraction_reports (cap_frame_count cap) 0
                    (length (cap_frames cap))
             else []) |}.
Proof.
  intros Hrun cap. unfold _extract_frames in Hrun. fold cap in Hrun.
  assert (progress_callback = true -> cap_frames cap <> [] ->
          cap_frame_count cap <> 0) as Hcount.
  { intros -> Hne H0. rewrite H0 in Hrun.
    destruct (read_loop_zero (cap_frames cap) 0%N (start_world w) Hne)
      as (e & w' & Hraise).
    unfold mbind, M_bind in Hrun. rewrite Hraise in Hrun. discriminate. }
  split; [exact Hcount |].
  unfold mbind, M_bind in Hrun.
  rewrite read_loop_run in Hrun by exact Hcount.
  injection Hrun as <-. reflexivity.
Qed.

Lemma process_frames_ok (progress_callback : bool) w ws w' :
  workspace w = Some ws ->
  _process_frames_for_vr180 env progress_callback w = (Ok (), w') ->
  let names := Naming.frame_files (listdir (ws_frames ws)) in
  exists stereo,
    Forall2 (fun name s =>
               exists frame, ws_frames ws !! name = Some frame /\
                             convert env frame = Ok s) names stereo /\
    w' = {| workspace :=
              Some {| ws_frames := ws_frames ws;
                      ws_processed :=
                        Naming.store_named (zip names (jpeg env <$> stereo))
                          (ws_processed ws);
                      ws_thumbnail := ws_thumbnail ws |};
            files := files w;
            reports :=
              reports w ++
              (if progress_callback
               then processing_reports (Z.of_nat (length names)) 0
                      (length names)
               else []) |}.
Proof.
  intros Hws Hrun names.
  unfold _process_frames_for_vr180, mbind, M_bind, get_workspace in Hrun.
  rewrite Hws in Hrun.
  apply (process_loop_ok _ _ _ _ _ _ _ Hws Hrun).
Qed.

Lemma generate_video_ok output_path settings (progress_callback : bool)
    w ws w' :
  workspace w = Some ws ->
  _generate_vr180_video env output_path settings progress_callback w
    = (Ok (), w') ->
  exists video,
    Naming.image2_sequence (ws_processed ws) = Ok (video_frames video) /\
    w' = {| workspace := workspace w;
            files := <[output_path := video]> (files w);
            reports :=
              reports w ++
              (if progress_callback
               then [(100%Q, "Video generation completed")]
               else []) |}.
Proof.
  intros Hws. destruct w as [wsp fs rs]. simpl in Hws. subst wsp.
  unfold _generate_vr180_video, mbind, M_bind, get_workspace.
  cbn [workspace files reports].
  destruct (Naming.frame_files _) as [| first rest]; [discriminate |].
  unfold mret, M_ret.
  destruct (Encoder._get_output_resolution _) as [ow oh].
  unfold lift.
  destruct (Encoder._get_bitrate _ _ _) as [rate | e]; [| discriminate].
  destruct (Naming.image2_sequence _) as [frames | e]; [| discriminate].
  destruct (encode_error env _) as [e |]; [discriminate |].
  destruct progress_callback; intros [= <-];
    exists {| video_frames := frames; video_width := ow;
              video_height := oh; video_bitrate := rate;
              video_framerate := frame_rate settings |};
    (split; [reflexivity |]); cbn [workspace files reports];
    rewrite ?app_nil_r; reflexivity.
Qed.

Lemma generate_thumbnail_ok video_path w t w' :
  _generate_thumbnail env video_path w = (Ok t, w') ->
  files w' = files w /\ reports w' = reports w.
Proof.
  unfold _generate_thumbnail, mbind, M_bind, lift.
  destruct (thumbnail env _); [| discriminate].
  intros [= <- <-]. split; reflexivity.
Qed.

(** *** Failure and cleanup *)

(** A stage that raises ends the run: stage by stage, the result and the
    world it leaves. *)
Lemma stage_failures input_path output_path settings
    (progress_callback : bool) w :
  dependencies_available env = true ->
  let run := process_video env input_path output_path settings
               progress_callback w in
  (forall e, mkdtemp_error env = Some e -> run = (Failed (exn_msg e), w)) /\
  (mkdtemp_error env = None ->
   (forall e w2,
      _extract_frames env input_path progress_callback (start_world w)
        = (Raise e, w2) ->
      run = (Failed (exn_msg e), remove_workspace w2) /\
      files w2 = files w) /\
   (forall w2 e w3,
      _extract_frames env input_path progress_callback (start_world w)
        = (Ok (), w2) ->
      _process_frames_for_vr180 env progress_callback w2 = (Raise e, w3) ->
      run = (Failed (exn_msg e), remove_workspace w3) /\
      files w3 = files w) /\
   (forall w2 w3 e w4,
      _extract_frames env input_path progress_callback (start_world w)
        = (Ok (), w2) ->
      _process_frames_for_vr180 env progress_callback w2 = (Ok (), w3) ->
      _generate_vr180_video env output_path settings progress_callback w3
        = (Raise e, w4) ->
      run = (Failed (exn_msg e), remove_workspace w4) /\
      files w4 = files w) /\
   (forall w2 w3 w4 e w5,
      _extract_frames env input_path progress_callback (start_world w)
        = (Ok (), w2) ->
      _process_frames_for_vr180 env progress_callback w2 = (Ok (), w3) ->
      _generate_vr180_video env output_path settings progress_callback w3
        = (Ok (), w4) ->
      _generate_thumbnail env input_path w4 = (Raise e, w5) ->
      run = (Failed (exn_msg e), remove_workspace w5) /\
      exists video, files w5 = <[output_path := video]> (files w))) /\
  (workspace w = None ->
   forall res w', run = (res, w') -> workspace w' = None).
Proof.
  intros Hdeps run. subst run.
  unfold process_video, run_stages, with_temporary_directory.
  rewrite Hdeps. cbn [negb].
  split; [intros e ->; reflexivity |].
  split.
  - intros ->. unfold mbind, M_bind.
    split; [| split; [| split]].
    + intros e w2 H1. rewrite H1. split; [reflexivity |].
      apply (keeps_files_extract _ _ _ _ _ H1).
    + intros w2 e w3 H1 H2. rewrite H1, H2. split; [reflexivity |].
      rewrite (keeps_files_process _ _ _ _ H2).
      apply (keeps_files_extract _ _ _ _ _ H1).
    + intros w2 w3 e w4 H1 H2 H3. rewrite H1, H2, H3.
      split; [reflexivity |].
      rewrite (generate_video_files _ _ _ _ _ _ H3).
      rewrite (keeps_files_process _ _ _ _ H2).
      apply (keeps_files_extract _ _ _ _ _ H1).
    + intros w2 w3 w4 e w5 H1 H2 H3 H4. rewrite H1, H2, H3, H4.
      split; [reflexivity |].
      destruct (generate_video_files _ _ _ _ _ _ H3) as [video Hv].
      exists video.
      rewrite (keeps_files_thumbnail _ _ _ _ H4), Hv.
      rewrite (keeps_files_process _ _ _ _ H2).
      rewrite (keeps_files_extract _ _ _ _ _ H1). reflexivity.
  - intros Hnone res w'.
    destruct (mkdtemp_error env) as [e |].
    + intros [= <- <-]. exact Hnone.
    + match goal with
      | |- context [mbind ?k ?m (start_world w)] =>
          destruct (mbind k m (start_world w)) as [[res' | e] w1]
      end; intros [= <- <-]; reflexivity.
Qed.



(** *** Progress *)

Lemma extraction_reports_sorted frame_count n :
  0 < frame_count ->
  StronglySorted Qle (extraction_reports frame_count 0 n).*1.
Proof.
  intros Hc. unfold extraction_reports. rewrite <- list_fmap_compose.
  apply StronglySorted_fmap_seq. intros i j _ Hij _. simpl.
  apply scale_mono; [lia | lia | discriminate].
Qed.

Lemma extraction_reports_range frame_count n :
  Z.of_nat n <= frame_count ->
  Forall (fun r => r.2 = "Extracting frames" /\ (0 <= r.1 <= 20)%Q)
    (extraction_reports frame_count 0 n).
Proof.
  intros Hn. unfold extraction_reports. rewrite Forall_fmap, Forall_forall.
  intros i Hi. apply elem_of_seq in Hi. simpl.
  split; [reflexivity |]. split.
  - apply scale_lower; [lia | lia | discriminate].
  - apply scale_upper; [lia | lia | discriminate].
Qed.

Lemma processing_reports_sorted n :
  StronglySorted Qle (processing_reports (Z.of_nat n) 0 n).*1.
Proof.
  unfold processing_reports. rewrite <- list_fmap_compose.
  apply StronglySorted_fmap_seq. intros i j _ Hij Hj. simpl.
  apply Qplus_le_r. apply scale_mono; [lia | lia | discriminate].
Qed.

Lemma processing_reports_range n :
  Forall (fun r => r.2 = "Processing frames for VR 180°" /\
                   (20 <= r.1 <= 80)%Q)
    (processing_reports (Z.of_nat n) 0 n).
Proof.
  unfold processing_reports. rewrite Forall_fmap, Forall_forall.
  intros i Hi. apply elem_of_seq in Hi. simpl.
  split; [reflexivity |]. split.
  - rewrite <- (Qplus_0_r 20) at 1. apply Qplus_le_r.
    apply scale_lower; [lia | lia | discriminate].
  - apply Qle_trans with (20 + 60)%Q; [| discriminate].
    apply Qplus_le_r. apply scale_upper; [lia | lia | discriminate].
Qed.

(** The reports of a successful run with a callback. *)
Lemma reports_of_success input_path output_path settings w
    out thumbnail_path metadata w' :
  process_video env input_path output_path settings true w
    = (Succeeded out thumbnail_path metadata, w') ->
  let cap := capture env input_path in
  let n := length (cap_frames cap) in
  reports w' =
    reports w ++
    (extraction_reports (cap_frame_count cap) 0 n ++
     processing_reports (Z.of_nat n) 0 n ++
     [(100%Q, "Video generation completed")]).
Proof.
  intros Hrun cap n.
  apply process_video_succeeded in Hrun
    as (_ & _ & _ & w2 & w3 & w4 & w5 & H1 & H2 & H3 & H4 & _ & ->).
  apply extract_frames_ok in H1 as [_ ->]. fold cap in H2.
  eapply process_frames_ok in H2; [| reflexivity].
  destruct H2 as (stereo & _ & ->).
  eapply generate_video_ok in H3; [| reflexivity].
  destruct H3 as (video & _ & ->).
  apply generate_thumbnail_ok in H4 as [_ Hr].
  cbn [remove_workspace reports]. rewrite Hr.
  cbn [workspace files reports ws_frames ws_processed ws_thumbnail].
  assert (length (Naming.frame_files
                    (listdir (Naming.store_frames 0
                                (jpeg env <$> cap_frames cap) ∅))) = n)
    as ->.
  { unfold listdir.
    rewrite (frame_files_permutation _ _ (store_frames_listing _)).
    unfold Naming.indices. rewrite !length_fmap, length_seq.
    reflexivity. }
  rewrite <- !app_assoc. reflexivity.
Qed.

(** C6, as the code has it: in a successful run with a callback in
    which the container's frame count is not below the number of
    frames decoded, the percentages reported never decrease, the last
    one is 100, and every report lies in the range of its stage:
    extraction in 0 to 20, frame processing in 20 to 80, encoding in
    80 to 100. *)
Theorem progress_monotone input_path output_path settings w
    out thumbnail_path metadata w' :
  process_video env input_path output_path settings true w
    = (Succeeded out thumbnail_path metadata, w') ->
  Z.of_nat (length (cap_frames (capture env input_path)))
    <= cap_frame_count (capture env input_path) ->
  exists rs,
    reports w' = reports w ++ rs /\
    StronglySorted Qle rs.*1 /\
    last rs.*1 = Some 100%Q /\
    Forall in_stage_range rs.
Proof.
  intros Hrun Hcount. apply reports_of_success in Hrun.
  set (cap := capture env input_path) in *.
  set (n := length (cap_frames cap)) in *. clearbody n cap.
  eexists. split; [exact Hrun |].
  pose proof (extraction_reports_range _ _ Hcount) as HE.
  pose proof (processing_reports_range n) as HP.
  rewrite Forall_forall in HE, HP.
  split; [| split].
  - rewrite !fmap_app. apply StronglySorted_app_2; [| | apply StronglySorted_app_2].
    + intros p q Hp Hq. apply Qle_trans with 20%Q.
      * apply list_elem_of_fmap in Hp as ([p' m] & -> & Hp).
        apply (HE _ Hp).
      * apply elem_of_app in Hq as [Hq | Hq].
        -- apply list_elem_of_fmap in Hq as ([q' m] & -> & Hq).
           apply (HP _ Hq).
        -- apply list_elem_of_singleton in Hq as ->. discriminate.
    + destruct n as [| n'].
      * constructor.
      * apply extraction_reports_sorted. lia.
    + intros p q Hp Hq.
      apply list_elem_of_fmap in Hp as ([p' m] & -> & Hp).
      apply list_elem_of_singleton in Hq as ->.
      apply Qle_trans with 80%Q; [apply (HP _ Hp) | discriminate].
    + apply processing_reports_sorted.
    + repeat constructor.
  - rewrite !fmap_app, !app_assoc. apply last_snoc.
  - rewrite !Forall_app. repeat split.
    + rewrite Forall_forall. intros r Hr. left. apply (HE _ Hr).
    + rewrite Forall_forall. intros r Hr. right. left. apply (HP _ Hr).
    + constructor; [| constructor]. right. right. simpl.
      repeat split; discriminate.
Qed.

(** *** Frame order *)

(** The processed directory of a run in which every frame was
    converted holds, under the name of index [i], the conversion of
    source frame [i], and nothing else. *)
Lemma processed_directory (source : list image) names stereo :
  names ≡ₚ Naming.frame_name <$> Naming.indices (length source) ->
  Forall2 (fun name s =>
             exists frame,
               Naming.store_frames 0 (jpeg env <$> source) ∅ !! name
                 = Some frame /\
               convert env frame = Ok s) names stereo ->
  let processed :=
    Naming.store_named (zip names (jpeg env <$> stereo)) ∅ in
  size processed = length source /\
  exists vals,
    Forall2 (converted env) source vals /\
    forall i, processed !! Naming.frame_name (N.of_nat i) = vals !! i.
Proof.
  intros Hperm Hconv processed.
  set (n := length source) in *.
  assert (NoDup names) as Hnodup
    by (rewrite Hperm; apply frame_names_NoDup).
  assert (length stereo = length names) as Hlen
    by (symmetry; eapply Forall2_length; eauto).
  assert ((zip names (jpeg env <$> stereo)).*1 = names) as Hfst
    by (apply fst_zip; rewrite length_fmap; lia).
  assert (length names = n) as Hn.
  { rewrite Hperm. unfold Naming.indices.
    rewrite !length_fmap, length_seq. reflexivity. }
  split.
  { unfold processed. rewrite store_named_size.
    - rewrite map_size_empty, length_zip_with, length_fmap. lia.
    - rewrite Hfst. exact Hnodup.
    - intros name _. apply lookup_empty. }
  assert (Forall (fun i : nat =>
                    exists v, processed !! Naming.frame_name (N.of_nat i)
                                = Some v /\
                              exists f, source !! i = Some f /\
                                        converted env f v) (seq 0 n)) as Hall.
  { rewrite Forall_forall. intros i Hi. apply elem_of_seq in Hi.
    assert (Naming.frame_name (N.of_nat i) ∈ names) as Hin.
    { rewrite Hperm. unfold Naming.indices. rewrite <- list_fmap_compose.
      apply list_elem_of_fmap. exists i. split; [reflexivity |].
      apply elem_of_seq. lia. }
    apply list_elem_of_lookup in Hin as [k Hk].
    destruct (Forall2_lookup_l _ _ _ _ _ Hconv Hk)
      as (s & Hs & frame & Hframe & Hok).
    replace (N.of_nat i) with (0 + N.of_nat i)%N in Hframe by lia.
    rewrite store_frames_lookup in Hframe
      by (rewrite length_fmap; fold n; lia).
    rewrite list_lookup_fmap in Hframe.
    destruct (source !! i) as [f |] eqn:Hf; [| discriminate].
    injection Hframe as <-.
    exists (jpeg env s). split.
    - apply store_named_lookup; [rewrite Hfst; exact Hnodup |].
      apply list_elem_of_lookup. exists k.
      apply lookup_zip_with_Some. exists (Naming.frame_name (N.of_nat i)),
        (jpeg env s).
      rewrite list_lookup_fmap, Hs. auto.
    - exists f. split; [reflexivity |]. exists s. auto. }
  apply Forall_exists_Forall2 in Hall as [vals Hvals].
  assert (length vals = n) as Hvn.
  { rewrite <- (Forall2_length _ _ _ Hvals). apply length_seq. }
  exists vals. split.
  - apply Forall2_same_length_lookup_2; [fold n; lia |].
    intros i f v Hf Hv.
    assert (seq 0 n !! i = Some i) as Hi.
    { apply lookup_seq. apply lookup_lt_Some in Hv. lia. }
    destruct (Forall2_lookup_lr _ _ _ _ _ _ Hvals Hi Hv)
      as (_ & f' & Hf' & Hc).
    congruence.
  - intros i. destruct (decide (i < n)%nat) as [Hi | Hi].
    + assert (seq 0 n !! i = Some i) as Hsi by (apply lookup_seq; lia).
      destruct (Forall2_lookup_l _ _ _ _ _ Hvals Hsi) as (v & Hv & Hp & _).
      rewrite Hp, Hv. reflexivity.
    + rewrite (lookup_ge_None_2 vals) by lia.
      unfold processed. rewrite store_named_other; [apply lookup_empty |].
      rewrite Hfst, Hperm. unfold Naming.indices.
      rewrite <- list_fmap_compose, list_elem_of_fmap.
      intros (j & Hj & Hjn). apply elem_of_seq in Hjn. simpl in Hj.
      apply frame_name_inj in Hj. lia.
Qed.

(** A successful run writes, at the destination, the conversions of
    the frames of the source in the order of the source, however many
    frames there are. *)
Lemma frame_order_preserved input_path output_path settings
    (progress_callback : bool) w out thumbnail_path metadata w' :
  process_video env input_path output_path settings progress_callback w
    = (Succeeded out thumbnail_path metadata, w') ->
  exists video,
    files w' !! output_path = Some video /\
    Forall2 (converted env) (cap_frames (capture env input_path))
      (video_frames video).
Proof.
  intros Hrun.
  apply process_video_succeeded in Hrun
    as (_ & _ & _ & w2 & w3 & w4 & w5 & H1 & H2 & H3 & H4 & _ & ->).
  apply extract_frames_ok in H1 as [_ ->].
  eapply process_frames_ok in H2; [| reflexivity].
  destruct H2 as (stereo & Hconv & ->).
  eapply generate_video_ok in H3; [| reflexivity].
  destruct H3 as (video & Hseq & ->).
  apply generate_thumbnail_ok in H4 as [Hfiles _].
  cbn [workspace files reports ws_frames ws_processed ws_thumbnail]
    in *.
  exists video. split.
  { cbn [remove_workspace files]. rewrite Hfiles. apply lookup_insert_eq. }
  set (source := cap_frames (capture env input_path)) in *.
  set (names := Naming.frame_files _) in *.
  assert (names ≡ₚ Naming.frame_name <$> Naming.indices (length source))
    as Hperm.
  { unfold names, listdir.
    rewrite (frame_files_permutation _ _ (store_frames_listing _)).
    rewrite length_fmap. reflexivity. }
  destruct (processed_directory source names stereo Hperm Hconv)
    as (Hsize & vals & Hvals & Hdir).
  assert (length vals = length source) as Hlen
    by (symmetry; eapply Forall2_length; eauto).
  destruct vals as [| v vals].
  - (* no frame: the encoder has nothing to read *)
    exfalso. destruct source; [| discriminate].
    assert (names = []) as Hnil
      by (apply Permutation_nil_r; exact Hperm).
    rewrite Hnil in Hseq. simpl in Hseq.
    unfold Naming.image2_sequence in Hseq. cbn [find] in Hseq.
    rewrite !lookup_empty in Hseq.
    rewrite !bool_decide_eq_false_2 in Hseq by (intros [? [=]]).
    discriminate.
  - rewrite (image2_sequence_run _ (v :: vals)) in Hseq.
    + injection Hseq as <-. exact Hvals.
    + exact Hdir.
    + rewrite Hsize, Hlen. lia.
    + discriminate.
Qed.
End PipelineFacts.

(** *** Frame order, end to end *)

Section FrameOrder.
Import Naming Pipeline.
Local Open Scope N_scope.

(** C9, as the code has it. Frames are named [frame_%06d.jpg]. For
    indices below one million the name has a fixed width and names
    compare as indices do, so for runs of at most a million frames the
    sorted listing both stages take is in index order; beyond that
    the names outgrow six digits. The processed frame keeps the name of
    its frame and the encoder reads the names by number, so a
    successful run of any length writes the converted frames in the
    order of the source. *)
Theorem frames_in_index_order {image : Type} (env : @Env image) :
  (forall i j, i < 1000000 -> j < 1000000 ->
     String.compare (frame_name i) (frame_name j) = (i ?= j)) /\
  (forall n listing, N.of_nat n <= 1000000 ->
     listing ≡ₚ frame_name <$> indices n ->
     frame_files listing = frame_name <$> indices n) /\
  (forall input_path output_path settings (progress_callback : bool)
          w out thumbnail_path metadata w',
     process_video env input_path output_path settings progress_callback w
       = (Succeeded out thumbnail_path metadata, w') ->
     exists video,
       files w' !! output_path = Some video /\
       Forall2 (converted env) (cap_frames (capture env input_path))
         (video_frames video)).
Proof.
  split; [exact frame_name_compare |].
  split; [exact frame_files_in_index_order |].
  intros. eapply frame_order_preserved. eassumption.
Qed.

Lemma frames_in_index_order_witness :
  String.compare (frame_name 9) (frame_name 10) = Lt /\
  frame_files [frame_name 2; frame_name 0; frame_name 1]
    = [frame_name 0; frame_name 1; frame_name 2] /\
  exists video,
    files (process_video (test_env 3 [7; 8; 9]%nat 99 false false)
             "in.mp4" "out.mp4" test_settings true empty_world).2
      !! "out.mp4" = Some video /\
    Forall2 (converted (test_env 3 [7; 8; 9]%nat 99 false false))
      [7; 8; 9]%nat (video_frames video).
Proof.
  destruct (frames_in_index_order (test_env 3 [7; 8; 9]%nat 99 false false))
    as (Hcompare & Hsorted & Horder).
  split; [apply (Hcompare 9 10); reflexivity |].
  split.
  - apply (Hsorted 3%nat); [vm_compute; discriminate |].
    vm_compute. apply perm_trans with (frame_name <$> [0; 2; 1]).
    + apply perm_swap.
    + apply perm_skip, perm_swap.
  - eapply (Horder "in.mp4" "out.mp4" test_settings true empty_world).
    vm_compute. reflexivity.
Defined.

(** C9 as stated fails: the name of frame 1000000 has seven digits and
    sorts before the name of frame 999999. *)
Lemma frame_name_order_breaks :
  999999 < 1000000 /\
  frame_name 999999 = "frame_999999.jpg"%string /\
  frame_name 1000000 = "frame_1000000.jpg"%string /\
  String.compare (frame_name 1000000) (frame_name 999999) = Lt /\
  frame_files [frame_name 999999; frame_name 1000000]
    = [frame_name 1000000; frame_name 999999].
Proof. vm_compute. repeat split; reflexivity. Qed.
End FrameOrder.

(** *** The pipeline on concrete runs *)

Section PipelineExamples.
Import Pipeline.





(** C6 as stated fails: a container that reports one frame and decodes
    two gives the reports 20, 40, 20, 50, 100: extraction reaches 40,
    outside its range, and the next report is lower. *)
Lemma progress_can_decrease :
  let run := process_video (test_env 1 [7; 8]%nat 99 false false)
               "in.mp4" "out.mp4" test_settings true empty_world in
  (exists out thumbnail_path metadata,
     run.1 = Succeeded out thumbnail_path metadata) /\
  reports run.2 =
    [(20%Q, "Extracting frames"); (40%Q, "Extracting frames");
     (40 # 2, "Processing frames for VR 180°");
     (100 # 2, "Processing frames for VR 180°");
     (100%Q, "Video generation completed")] /\
  ~ StronglySorted Qle (reports run.2).*1 /\
  ~ Forall in_stage_range (reports run.2).
Proof.
  intros run.
  assert (reports run.2 =
            [(20%Q, "Extracting frames"); (40%Q, "Extracting frames");
             (40 # 2, "Processing frames for VR 180°");
             (100 # 2, "Processing frames for VR 180°");
             (100%Q, "Video generation completed")]) as Hr
    by (vm_compute; reflexivity).
  split; [vm_compute; eauto |].
  split; [exact Hr |].
  rewrite Hr. split.
  - intros H. cbn [fmap list_fmap fst] in H.
    apply StronglySorted_inv in H as [H _].
    apply StronglySorted_inv in H as [_ H].
    apply Forall_inv in H. unfold Qle in H. simpl in H. lia.
  - intros H. apply Forall_inv_tail, Forall_inv in H.
    destruct H as [[_ [_ H]] | [[H _] | [H _]]];
      [unfold Qle in H; simpl in H; lia | discriminate H | discriminate H].
Qed.

Lemma progress_monotone_witness :
  let run := process_video (test_env 3 [7; 8; 9]%nat 99 false false)
               "in.mp4" "out.mp4" test_settings true empty_world in
  exists rs,
    reports run.2 = reports empty_world ++ rs /\
    StronglySorted Qle rs.*1 /\
    last rs.*1 = Some 100%Q /\
    Forall in_stage_range rs.
Proof.
  intros run.
  apply (progress_monotone (test_env 3 [7; 8; 9]%nat 99 false false)
           "in.mp4" "out.mp4" test_settings empty_world
           "out.mp4" (Workspace_path "thumbnail.jpg")
           (Some {| meta_duration := 1; meta_width := 640;
                    meta_height := 360; meta_fps := 30;
                    meta_bitrate := 0; meta_codec := "h264" |})).
  - vm_compute. reflexivity.
  - vm_compute. discriminate.
Defined.
End PipelineExamples.

(** ** Depth normalization *)

Section DepthFacts.
Import Depth.

Lemma SFsub_diag (v : spec_float) :
  is_finite v = true -> SFsub prec32 emax32 v v = S754_zero false.
Proof.
  destruct v as [[] | [] | | s m e]; try discriminate; intros _;
    try reflexivity.
  unfold SFsub. cbv zeta. rewrite Z.min_id. unfold shl_align.
  assert (forall x : Z, IntDef.Z.sub x x = 0) as Hdiag
    by (intros x; apply Z.sub_diag).
  rewrite !Hdiag. reflexivity.
Qed.

Lemma SFleb_refl (v : spec_float) : is_finite v = true -> SFleb v v = true.
Proof.
  destruct v as [[] | [] | | [] m e]; try discriminate; intros _;
    try reflexivity; unfold SFleb, SFcompare;
    rewrite Z.compare_refl, Pos.compare_cont_refl; reflexivity.
Qed.

Lemma np_minimum_same v : is_finite v = true -> np_minimum v v = v.
Proof.
  intros H. unfold np_minimum. rewrite (SFleb_refl v H).
  destruct v; try discriminate; reflexivity.
Qed.

Lemma np_maximum_same v : is_finite v = true -> np_maximum v v = v.
Proof.
  intros H. unfold np_maximum. rewrite (SFleb_refl v H).
  destruct v; try discriminate; reflexivity.
Qed.

Lemma fold_left_same op v (xs : list spec_float) :
  op v v = v -> Forall (eq v) xs -> fold_left op xs v = v.
Proof.
  intros Hop. induction 1 as [| x xs <- _ IH]; simpl; [reflexivity |].
  rewrite Hop. exact IH.
Qed.

Lemma np_reduce_constant op name v (raw : depth_map) :
  op v v = v -> Forall (Forall (eq v)) raw -> concat raw <> [] ->
  np_reduce op name raw = Ok v.
Proof.
  intros Hop Hall Hne. unfold np_reduce.
  assert (Forall (eq v) (concat raw)) as Hflat
    by (apply Forall_concat; exact Hall).
  destruct (concat raw) as [| x xs]; [congruence |].
  apply Forall_cons in Hflat as [<- Hxs].
  rewrite fold_left_same by assumption. reflexivity.
Qed.

(** C2, the degenerate case as the code has it: a raw map that is
    spatially constant (one finite value [v] everywhere) is normalized
    by a division of zero by zero, and every entry of the result is
    NaN, not zero. *)
Theorem normalize_constant_nan (v : spec_float) (raw : depth_map) :
  is_finite v = true ->
  Forall (Forall (eq v)) raw -> concat raw <> [] ->
  normalize raw = Ok (map (map (fun _ => S754_nan)) raw).
Proof.
  intros Hv Hall Hne. unfold normalize, np_min, np_max.
  rewrite (np_reduce_constant _ _ v raw (np_minimum_same v Hv) Hall Hne).
  rewrite (np_reduce_constant _ _ v raw (np_maximum_same v Hv) Hall Hne).
  cbn [bind]. f_equal.
  rewrite (SFsub_diag v Hv).
  apply map_ext_Forall. eapply Forall_impl; [exact Hall |].
  intros row Hrow. apply map_ext_Forall.
  eapply Forall_impl; [exact Hrow |].
  intros x <-. rewrite (SFsub_diag v Hv). reflexivity.
Qed.

(** The map of a frame whose raw depth is 1.0 everywhere; the
    synthesizer then raises on its first pixel. *)
Lemma normalize_constant_nan_witness :
  normalize [[one32; one32]; [one32; one32]]
    = Ok [[S754_nan; S754_nan]; [S754_nan; S754_nan]] /\
  shift_of_depth S754_nan 96
    = Raise (Exn "ValueError" "cannot convert float NaN to integer").
Proof.
  split; [| reflexivity].
  apply (normalize_constant_nan one32 [[one32; one32]; [one32; one32]]).
  - reflexivity.
  - repeat constructor.
  - discriminate.
Defined.

(** On a map that is not constant the least value goes to 0 and the
    greatest to 1. *)
Example normalize_ramp :
  normalize [[one32; two32]; [three32; one32]]
    = Ok [[S754_zero false; S754_finite false 8388608 (-24)];
          [one32; S754_zero false]].
Proof. vm_compute. reflexivity. Qed.
End DepthFacts.

(** ** The binary64 arithmetic behind [max_shift] *)

Section MaxShiftFacts.
Import Stereo.

Lemma all_below_spec (f : Z -> bool) n a :
  all_below n a f = true ->
  forall k, a <= k < a + Z.of_nat n -> f k = true.
Proof.
  revert a. induction n as [| n IH]; intros a H k Hk; [lia |].
  cbn [all_below] in H. apply andb_true_iff in H as [Ha Hrest].
  destruct (Z.eq_dec k a) as [-> | Hne]; [exact Ha |].
  apply (IH (a + 1) Hrest). lia.
Qed.

Lemma max_shift_agrees_all :
  all_below (Z.to_nat 16384) 0 max_shift_agrees = true.
Proof. vm_compute. reflexivity. Qed.

(** For every width up to 16K video, the exact arithmetic of [max_shift]
    gives what binary64 gives. *)
Lemma max_shift_binary64_exact (w : Z) :
  0 <= w < 16384 -> max_shift_binary64 w = Ok (max_shift w).
Proof.
  intros Hw.
  pose proof (all_below_spec _ _ _ max_shift_agrees_all w) as H.
  unfold max_shift_agrees in H.
  destruct (max_shift_binary64 w) as [n | e].
  - f_equal. apply Z.eqb_eq, H. lia.
  - discriminate H. lia.
Qed.

(** The shift bound is a twentieth of the width, rounded down. *)
Lemma max_shift_div (w : Z) : 0 <= w < 2 ^ 53 -> max_shift w = w / 20.
Proof.
  intros Hw. unfold max_shift.
  rewrite Qint_floor by (apply width_product_nonneg; lia).
  unfold lit_0_05, Qfloor, Qmult, inject_Z. cbn [Qnum Qden].
  change (Z.pos (1 * 72057594037927936)) with 72057594037927936.
  change (2 ^ 53) with 9007199254740992 in Hw.
  symmetry. apply (Z.div_unique _ _ _
    (4 * (w / 20) + (w mod 20) * 3602879701896397)).
  - pose proof (Z.mod_pos_bound w 20 ltac:(lia)).
    assert (w / 20 < 450359962737050)
      by (apply Z.div_lt_upper_bound; lia).
    assert (0 <= w / 20) by (apply Z.div_pos; lia).
    lia.
  - pose proof (Z.div_mod w 20 ltac:(lia)). lia.
Qed.
End MaxShiftFacts.

(** ** The binary64 arithmetic behind [shift_of] *)

Section ShiftFacts.
Import Depth Stereo.

(** [digits2_pos] counts binary digits. *)
Lemma digits2_pos_log2 (p : positive) :
  Zpos (digits2_pos p) = Z.log2 (Zpos p) + 1.
Proof.
  induction p as [p IH | p IH |]; try reflexivity.
  - change (digits2_pos p~1) with (Pos.succ (digits2_pos p)).
    rewrite Pos2Z.inj_succ, IH.
    change (Z.pos p~1) with (2 * Z.pos p + 1).
    rewrite Z.log2_succ_double by lia. lia.
  - change (digits2_pos p~0) with (Pos.succ (digits2_pos p)).
    rewrite Pos2Z.inj_succ, IH.
    change (Z.pos p~0) with (2 * Z.pos p).
    rewrite Z.log2_double by lia. lia.
Qed.

Lemma iter_pos_nat {A} (f : A -> A) (p : positive) (x : A) :
  SpecFloat.iter_pos f p x = Nat.iter (Pos.to_nat p) f x.
Proof.
  revert x. induction p as [p IH | p IH |]; intros x;
    cbn [SpecFloat.iter_pos].
  - rewrite !IH. rewrite Pos2Nat.inj_xI.
    replace (S (2 * Pos.to_nat p))
      with (Pos.to_nat p + (Pos.to_nat p + 1))%nat by lia.
    rewrite !Nat.iter_add. reflexivity.
  - rewrite !IH. rewrite Pos2Nat.inj_xO.
    replace (2 * Pos.to_nat p)%nat with (Pos.to_nat p + Pos.to_nat p)%nat
      by lia.
    rewrite Nat.iter_add. reflexivity.
  - reflexivity.
Qed.

(** Shifting out zero bits is exact. *)
Lemma shr_1_even (z : Z) :
  0 <= z ->
  shr_1 {| shr_m := 2 * z; shr_r := false; shr_s := false |}
    = {| shr_m := z; shr_r := false; shr_s := false |}.
Proof. destruct z as [| p | p]; intros H; [reflexivity | reflexivity | lia]. Qed.

Lemma shr_exact (n : nat) (z : Z) :
  0 <= z ->
  Nat.iter n shr_1
    {| shr_m := z * 2 ^ Z.of_nat n; shr_r := false; shr_s := false |}
    = {| shr_m := z; shr_r := false; shr_s := false |}.
Proof.
  intros Hz. induction n as [| n IH].
  - simpl. f_equal. lia.
  - rewrite Nat.iter_succ_r.
    replace (z * 2 ^ Z.of_nat (S n)) with (2 * (z * 2 ^ Z.of_nat n)).
    + rewrite shr_1_even by nia. exact IH.
    + rewrite Nat2Z.inj_succ, Z.pow_succ_r by lia. lia.
Qed.

Lemma Zdigits2_log2 (z : Z) : 0 < z -> Zdigits2 z = Z.log2 z + 1.
Proof.
  destruct z as [| p | p]; intros H; try lia.
  apply digits2_pos_log2.
Qed.

Lemma fexp_eq (e : Z) : fexp prec emax e = Z.max (e - 53) (-1074).
Proof. reflexivity. Qed.

Lemma shr_fexp_eq (m e : Z) (l : location) :
  shr_fexp prec emax m e l =
    shr (shr_record_of_loc m l) e (fexp prec emax (Zdigits2 m + e) - e).
Proof. reflexivity. Qed.

Lemma shr_eq (mrs : shr_record) (e n : Z) :
  shr mrs e n =
    match n with
    | Zpos p => (SpecFloat.iter_pos shr_1 p mrs, e + n)
    | _ => (mrs, e)
    end.
Proof. reflexivity. Qed.

(** Rounding a mantissa whose bits beyond the 53rd are zero is exact. *)
Lemma binary_round_aux_exact (q : positive) (n e : Z) :
  0 <= n -> Zpos (digits2_pos q) = 53 -> -1074 <= e + n <= 971 ->
  binary_round_aux prec emax false (Zpos q * 2 ^ n) e loc_Exact
    = S754_finite false q (e + n).
Proof.
  intros Hn Hq He.
  assert (0 < Zpos q * 2 ^ n) as Hpos by (apply Z.mul_pos_pos; lia).
  assert (Zdigits2 (Zpos q * 2 ^ n) = 53 + n) as Hdigits.
  { rewrite Zdigits2_log2 by exact Hpos.
    rewrite Z.log2_mul_pow2 by lia.
    rewrite digits2_pos_log2 in Hq. lia. }
  assert (shr_fexp prec emax (Zpos q * 2 ^ n) e loc_Exact
          = ({| shr_m := Zpos q; shr_r := false; shr_s := false |}, e + n))
    as Hshr.
  { rewrite shr_fexp_eq, Hdigits, fexp_eq.
    replace (Z.max (53 + n + e - 53) (-1074) - e) with n by lia.
    rewrite shr_eq. cbn [shr_record_of_loc].
    destruct n as [| p | p]; [| | lia].
    - rewrite Z.mul_1_r, Z.add_0_r. reflexivity.
    - rewrite iter_pos_nat.
      rewrite <- (positive_nat_Z p) at 1.
      rewrite shr_exact by lia. reflexivity. }
  unfold binary_round_aux. rewrite Hshr.
  cbn [shr_m loc_of_shr_record round_nearest_even].
  rewrite shr_fexp_eq. cbn [Zdigits2]. rewrite Hq, fexp_eq.
  replace (Z.max (53 + (e + n) - 53) (-1074) - (e + n)) with 0 by lia.
  rewrite shr_eq. cbn [shr_record_of_loc shr_m].
  destruct (Z.leb_spec (e + n) (emax - prec)) as [_ | H];
    [reflexivity | unfold emax, prec in H; lia].
Qed.

Lemma pos_iter_xO (p d : positive) :
  Zpos (Pos.iter xO p d) = Zpos p * 2 ^ Zpos d.
Proof.
  induction d as [| d IH] using Pos.peano_ind.
  - simpl. lia.
  - rewrite Pos.iter_succ, Pos2Z.inj_xO, IH, Pos2Z.inj_succ,
      Z.pow_succ_r by lia.
    lia.
Qed.

(** [float(k)] of a positive integer of at most 53 bits is [k] itself,
    with the mantissa shifted to 53 bits. *)
Lemma float_of_int_exact (p : positive) :
  let dp := Zpos (digits2_pos p) in
  dp <= 53 ->
  exists mk : positive,
    Zpos mk = Zpos p * 2 ^ (53 - dp) /\
    float_of_int (Zpos p) = Ok (S754_finite false mk (dp - 53)).
Proof.
  intros dp Hdp.
  assert (dp = Z.log2 (Zpos p) + 1) as Hlog by apply digits2_pos_log2.
  assert (0 <= Z.log2 (Zpos p)) by apply Z.log2_nonneg.
  unfold float_of_int, binary_normalize, binary_round.
  change (Z.add (Zpos (digits2_pos p)) 0) with (dp + 0).
  rewrite Z.add_0_r.
  replace (SpecFloat.fexp prec emax dp) with (dp - 53)
    by (rewrite fexp_eq; lia).
  unfold shl_align.
  change (Z.sub (dp - 53) 0) with (dp - 53 - 0). rewrite Z.sub_0_r.
  destruct (dp - 53) as [| d | d] eqn:Hd; [| lia |].
  - exists p. split; [replace (53 - dp) with 0 by lia; lia |].
    replace (Zpos p) with (Zpos p * 2 ^ 0) at 1 by lia.
    rewrite binary_round_aux_exact; [reflexivity | lia | | lia].
    fold dp. lia.
  - exists (Pos.iter xO p d).
    assert (Zpos (Pos.iter xO p d) = Zpos p * 2 ^ (53 - dp)) as Hmk.
    { rewrite pos_iter_xO. f_equal. f_equal. lia. }
    split; [exact Hmk |].
    replace (Zpos (Pos.iter xO p d))
      with (Zpos (Pos.iter xO p d) * 2 ^ 0) at 1 by lia.
    rewrite binary_round_aux_exact.
    + rewrite Z.add_0_r. reflexivity.
    + lia.
    + rewrite digits2_pos_log2, Hmk, Z.log2_mul_pow2 by lia. lia.
    + lia.
Qed.

(** The binary64 product of a float and an integer whose mantissas have
    at most 53 bits together is exact. *)
Lemma SFmul_exact (md p mk : positive) (ed : Z) :
  let dp := Zpos (digits2_pos p) in
  Zpos (digits2_pos md) + dp <= 53 -> -1000 <= ed <= 0 ->
  Zpos mk = Zpos p * 2 ^ (53 - dp) ->
  exists (q : positive) (c : Z),
    0 <= c /\
    Zpos q = Zpos md * Zpos p * 2 ^ c /\
    SFmul prec emax (S754_finite false md ed) (S754_finite false mk (dp - 53))
      = S754_finite false q (ed - c).
Proof.
  intros dp Hbits Hed Hmk.
  assert (dp = Z.log2 (Zpos p) + 1) as Hdp by apply digits2_pos_log2.
  pose proof (digits2_pos_log2 md) as Hdm.
  pose proof (Z.log2_nonneg (Zpos p)).
  pose proof (Z.log2_nonneg (Zpos md)).
  set (n := Z.log2 (Zpos md * Zpos p) - Z.log2 (Zpos p)).
  assert (0 <= n) as Hn.
  { unfold n. assert (Z.log2 (Zpos p) <= Z.log2 (Zpos md * Zpos p));
      [apply Z.log2_le_mono; nia | lia]. }
  assert (n <= Z.log2 (Zpos md) + 1) as Hn'.
  { unfold n. pose proof (Z.log2_mul_above (Zpos md) (Zpos p)). lia. }
  set (c := 53 - dp - n).
  assert (0 <= c) as Hc by (unfold c; lia).
  assert (0 < Zpos md * Zpos p * 2 ^ c) as Hpos
    by (apply Z.mul_pos_pos; [lia | apply Z.pow_pos_nonneg; lia]).
  exists (Z.to_pos (Zpos md * Zpos p * 2 ^ c)), c.
  split; [exact Hc |]. split; [apply Z2Pos.id; exact Hpos |].
  unfold SFmul. cbn [xorb].
  change (Z.add ed (dp - 53)) with (ed + (dp - 53)).
  replace (Zpos (md * mk))
    with (Zpos (Z.to_pos (Zpos md * Zpos p * 2 ^ c)) * 2 ^ n).
  - rewrite binary_round_aux_exact.
    + f_equal. unfold c. lia.
    + exact Hn.
    + rewrite digits2_pos_log2, Z2Pos.id by exact Hpos.
      rewrite Z.log2_mul_pow2 by lia. unfold c, n. lia.
    + unfold c in *. lia.
  - rewrite Z2Pos.id by exact Hpos.
    rewrite Pos2Z.inj_mul, Hmk.
    replace (53 - dp) with (c + n) by (unfold c; lia).
    rewrite Z.pow_add_r by lia. lia.
Qed.

Lemma Qint_mul_nonneg (a k : Z) (b : positive) :
  0 <= a -> 0 <= k -> Qint ((a # b) * inject_Z k) = a * k / Zpos b.
Proof.
  intros Ha Hk. unfold Qint, Qmult, inject_Z. cbn [Qnum Qden].
  rewrite Pos.mul_1_r. apply Z.quot_div_nonneg; nia.
Qed.

(** Line 299 in binary64 is the truncation of the exact product, for a
    depth value of binary32 between 0 and 1 and a bound of the shift
    below [2^29]. *)
Lemma shift_of_depth_exact (d : spec_float) (k : Z) :
  valid_binary prec32 emax32 d = true -> is_finite d = true ->
  (0 <= Qvalue d)%Q -> (Qvalue d <= 1)%Q -> 0 <= k < 2 ^ 29 ->
  shift_of_depth d k = Ok (shift_of (Qvalue d) k).
Proof.
  intros Hvalid Hfin H0 H1 Hk. unfold shift_of_depth, shift_of.
  destruct d as [s | s | | s md ed]; try discriminate.
  - (* zero *)
    destruct k as [| p | p]; [| | lia].
    + destruct s; reflexivity.
    + destruct (float_of_int_exact p) as (mk & _ & ->).
      { pose proof (digits2_pos_log2 p) as Hp.
        assert (Z.log2 (Zpos p) < 29) by (apply Z.log2_lt_pow2; lia). lia. }
      destruct s; reflexivity.
  - (* finite *)
    destruct s.
    { exfalso. revert H0. cbn [Qvalue].
      destruct (Z.leb_spec 0 ed); unfold Qle; cbn [Qnum Qden inject_Z];
        [assert (0 < 2 ^ ed) by (apply Z.pow_pos_nonneg; lia); nia | lia]. }
    assert (ed <= 0) as Hed0.
    { destruct (Z.leb_spec 0 ed) as [Hle | Hlt]; [| lia].
      revert H1. cbn [Qvalue]. rewrite (proj2 (Z.leb_le 0 ed) Hle).
      unfold Qle. cbn [Qnum Qden inject_Z]. intros H1.
      destruct (Z.eq_dec ed 0) as [-> | Hne]; [lia |].
      assert (2 <= 2 ^ ed)
        by (change 2 with (2 ^ 1) at 1; apply Z.pow_le_mono_r; lia).
      nia. }
    assert (Zpos (digits2_pos md) <= 24 /\ -149 <= ed) as [Hdm Hed].
    { cbn [valid_binary] in Hvalid. unfold bounded in Hvalid.
      apply andb_true_iff in Hvalid as [Hcanon _].
      unfold canonical_mantissa in Hcanon. apply Z.eqb_eq in Hcanon.
      change (SpecFloat.fexp prec32 emax32 (Zpos (digits2_pos md) + ed))
        with (Z.max (Zpos (digits2_pos md) + ed - 24) (-149)) in Hcanon.
      lia. }
    destruct k as [| p | p]; [| | lia].
    + (* a zero bound *)
      cbn [float_of_int binary_normalize bind SFmul xorb int_of_float].
      f_equal. unfold Qint, Qmult. cbn [Qnum inject_Z].
      rewrite Z.mul_0_r. reflexivity.
    + pose proof (digits2_pos_log2 p) as Hp.
      assert (Z.log2 (Zpos p) < 29) by (apply Z.log2_lt_pow2; lia).
      pose proof (Z.log2_nonneg (Zpos p)).
      destruct (float_of_int_exact p) as (mk & Hmk & ->); [lia |].
      cbn [bind].
      destruct (SFmul_exact md p mk ed) as (q & c & Hc & Hq & ->);
        [lia | lia | exact Hmk |].
      cbn [int_of_float]. f_equal.
      assert (0 < 2 ^ c) by (apply Z.pow_pos_nonneg; lia).
      cbn [Qvalue].
      destruct (Z.leb_spec 0 ed) as [Hle | Hlt].
      * assert (ed = 0) as -> by lia.
        rewrite Z.pow_0_r, Z.mul_1_r.
        change (inject_Z (Zpos md)) with (Zpos md # 1).
        rewrite Qint_mul_nonneg by lia.
        rewrite Z.div_1_r.
        destruct (Z.leb_spec 0 (0 - c)) as [Hc0 | Hc0].
        -- assert (c = 0) as -> by lia. rewrite Hq. simpl. lia.
        -- rewrite Hq. replace (- (0 - c)) with c by lia.
           rewrite Z.div_mul by lia. reflexivity.
      * rewrite Qint_mul_nonneg by lia.
        rewrite Z2Pos.id by (apply Z.pow_pos_nonneg; lia).
        destruct (Z.leb_spec 0 (ed - c)) as [Hc0 | Hc0]; [lia |].
        rewrite Hq. replace (- (ed - c)) with (- ed + c) by lia.
        rewrite Z.pow_add_r by lia.
        apply Z.div_mul_cancel_r; [| lia].
        assert (0 < 2 ^ (- ed)) by (apply Z.pow_pos_nonneg; lia). lia.
Qed.
End ShiftFacts.

(** ** The synthesizer in binary64 *)

Section Binary64Facts.
Import Depth Stereo.
Context {pixel : Type}.

Lemma bind_assoc {A B C} (r : result A) (f : A -> result B)
    (g : B -> result C) :
  bind (bind r f) g = bind r (fun a => bind (f a) g).
Proof. destruct r; reflexivity. Qed.

Lemma for_each_ext {I S} (body1 body2 : I -> S -> result S) (l : list I)
    (s : S) :
  (forall i s', body1 i s' = body2 i s') ->
  for_each body1 l s = for_each body2 l s.
Proof.
  intros Hext. revert s. induction l as [| i l IH]; intros s; simpl;
    [reflexivity |].
  rewrite Hext. destruct (body2 i s); simpl; [apply IH | reflexivity].
Qed.

(** The loops depend on the depth map only through the shifts. *)
Lemma displace_ext {D1 D2} (f1 : D1 -> Z -> result Z)
    (f2 : D2 -> Z -> result Z) (frame : list (list pixel))
    (depth1 : list (list D1)) (depth2 : list (list D2)) ms w h :
  (forall y x,
     bind (get2d depth1 y x) (fun d => f1 d ms)
       = bind (get2d depth2 y x) (fun d => f2 d ms)) ->
  displace f1 frame depth1 ms w h = displace f2 frame depth2 ms w h.
Proof.
  intros Hshift. unfold displace. apply for_each_ext. intros y views.
  unfold row_body. apply for_each_ext. intros x [left right].
  unfold pixel_body. rewrite <- !bind_assoc.
  rewrite (bind_assoc (get2d depth1 y (Z.of_nat x))).
  rewrite (bind_assoc (get2d depth2 y (Z.of_nat x))).
  rewrite <- (bind_assoc (get2d depth1 y (Z.of_nat x)) (fun d => f1 d ms)).
  rewrite <- (bind_assoc (get2d depth2 y (Z.of_nat x)) (fun d => f2 d ms)).
  rewrite Hshift. reflexivity.
Qed.

Lemma get2d_fmap {A B} (f : A -> B) (a : list (list A)) y x :
  get2d (map (map f) a) y x = bind (get2d a y x) (fun v => Ok (f v)).
Proof.
  unfold get2d. change (map (map f) a) with (map f <$> a).
  rewrite list_lookup_fmap. destruct (a !! y) as [row |]; simpl;
    [| reflexivity].
  rewrite length_map. destruct (np_index (length row) x) as [j | e]; simpl;
    [| reflexivity].
  change (map f row) with (f <$> row). rewrite list_lookup_fmap.
  destruct (row !! j); reflexivity.
Qed.

Lemma get2d_elem {A} (a : list (list A)) y x v :
  get2d a y x = Ok v -> exists row, row ∈ a /\ v ∈ row.
Proof.
  unfold get2d. destruct (a !! y) as [row |] eqn:Hrow; [| discriminate].
  destruct (np_index (length row) x) as [j | e]; simpl; [| discriminate].
  destruct (row !! j) as [v' |] eqn:Hv; [| discriminate].
  intros [= <-]. exists row. split; eapply list_elem_of_lookup_2; eauto.
Qed.

(** On frames up to 16K wide and depth maps of binary32 values between
    0 and 1, the synthesizer in binary64 arithmetic computes what the
    synthesizer in exact arithmetic computes on the values of the
    map. *)
Lemma stereo_views_binary64_exact (frame : list (list pixel))
    (depth_map : list (list spec_float)) :
  Forall (Forall unit_binary32) depth_map ->
  Z.of_nat (width frame) < 16384 ->
  stereo_views_binary64 frame depth_map
    = stereo_views frame (map (map Qvalue) depth_map).
Proof.
  intros Hunit Hw. unfold stereo_views_binary64, stereo_views.
  set (w := Z.of_nat (width frame)) in *.
  rewrite max_shift_binary64_exact by lia. cbn [bind].
  assert (0 <= max_shift w < 2 ^ 29) as Hms.
  { rewrite max_shift_div by lia.
    split; [apply Z.div_pos; lia |].
    apply Z.div_lt_upper_bound; lia. }
  apply displace_ext. intros y x. rewrite get2d_fmap, bind_assoc.
  destruct (get2d depth_map y x) as [d | e] eqn:Hd; [| reflexivity].
  cbn [bind].
  apply get2d_elem in Hd as (row & Hrow & Hin).
  rewrite Forall_forall in Hunit. specialize (Hunit row Hrow).
  rewrite Forall_forall in Hunit.
  destruct (Hunit d Hin) as (Hvalid & Hfin & H0 & H1).
  apply shift_of_depth_exact; assumption.
Qed.
End Binary64Facts.

(** ** Edges of the pipeline *)

Section PipelineEdges.
Import Pipeline.
Context {image : Type}.
Variable env : @Env image.
Implicit Types (w : @World image).

Lemma frame_files_nil : Naming.frame_files [] = [].
Proof. reflexivity. Qed.

Theorem empty_source_fails input_path output_path settings
    (progress_callback : bool) w :
  dependencies_available env = true -> mkdtemp_error env = None ->
  cap_frames (capture env input_path) = [] ->
  process_video env input_path output_path settings progress_callback w
    = (Failed "No processed frames found", remove_workspace w).
Proof.
  intros Hdeps Hmk Hsrc.
  unfold process_video, run_stages, with_temporary_directory.
  rewrite Hdeps, Hmk. cbn [negb].
  unfold _extract_frames. rewrite Hsrc. cbn [read_loop].
  unfold _process_frames_for_vr180, _generate_vr180_video.
  unfold mbind, M_bind, mret, M_ret, get_workspace, start_world.
  cbn [workspace files reports empty_workspace ws_frames ws_processed].
  unfold listdir. rewrite map_to_list_empty. cbn [fmap list_fmap].
  rewrite frame_files_nil. cbn [process_loop]. unfold mret, M_ret.
  cbn [workspace files reports ws_processed empty_workspace].
  rewrite map_to_list_empty. cbn [fmap list_fmap]. rewrite frame_files_nil.
  reflexivity.
Qed.

Theorem zero_frame_count_fails input_path output_path settings w :
  dependencies_available env = true -> mkdtemp_error env = None ->
  cap_frame_count (capture env input_path) = 0 ->
  cap_frames (capture env input_path) <> [] ->
  process_video env input_path output_path settings true w
    = (Failed "division by zero", remove_workspace w).
Proof.
  intros Hdeps Hmk Hcount Hsrc.
  unfold process_video, run_stages, with_temporary_directory.
  rewrite Hdeps, Hmk. cbn [negb].
  unfold _extract_frames. rewrite Hcount.
  destruct (cap_frames (capture env input_path)) as [| frame rest];
    [congruence |].
  cbn [read_loop].
  unfold mbind, M_bind, modify_workspace, lift, fraction_of, start_world.
  cbn [workspace files reports Z.eqb]. reflexivity.
Qed.
End PipelineEdges.

(** ** The progress callback as an observer *)

Section CallbackFacts.
Import Pipeline Observation.
Context {image : Type}.
Variable env : @Env image.
Implicit Types (w : @World image).













(** *** Without a callback nothing is reported *)










End CallbackFacts.

(** ** When a run succeeds *)

Section SuccessFacts.
Import Pipeline.
Context {image : Type}.
Variable env : @Env image.
Implicit Types (w : @World image).

Lemma effective_bitrate_ok quality resolution :
  exists rate, Encoder.effective_bitrate quality resolution = Ok rate.
Proof.
  unfold Encoder.effective_bitrate. rewrite get_output_resolution_table.
  pose proof (get_bitrate_rows quality resolution) as H.
  destruct (Encoder.table_resolution resolution) as [ow oh]. eauto.
Qed.


(** The encoding stage on a directory of processed frames. *)
Lemma generate_video_run output_path settings (progress_callback : bool)
    w ws frames rate :
  workspace w = Some ws ->
  Naming.frame_files (listdir (ws_processed ws)) <> [] ->
  Naming.image2_sequence (ws_processed ws) = Ok frames ->
  Encoder.effective_bitrate (quality settings) (resolution settings)
    = Ok rate ->
  let size := Encoder._get_output_resolution (resolution settings) in
  let video :=
    {| video_frames := frames; video_width := size.1;
       video_height := size.2; video_bitrate := rate;
       video_framerate := frame_rate settings |} in
  _generate_vr180_video env output_path settings progress_callback w =
    match encode_error env video with
    | Some e => (Raise e, w)
    | None =>
        (Ok (),
         {| workspace := workspace w;
            files := <[output_path := video]> (files w);
            reports :=
              reports w ++
              (if progress_callback
               then [(100%Q, "Video generation completed")]
               else []) |})
    end.
Proof.
  intros Hws Hne Hseq Hrate size video. subst size video.
  destruct w as [wsp fs rs]. simpl in Hws. subst wsp.
  unfold _generate_vr180_video, mbind, M_bind, get_workspace.
  cbn [workspace files reports].
  destruct (Naming.frame_files _) as [| first rest]; [congruence |].
  unfold mret, M_ret. unfold Encoder.effective_bitrate in Hrate.
  destruct (Encoder._get_output_resolution _) as [ow oh].
  unfold lift. rewrite Hrate, Hseq. cbn [fst snd].
  destruct (encode_error env _) as [e |]; [reflexivity |].
  destruct progress_callback; unfold report; cbn [workspace files reports];
    rewrite ?app_nil_r; reflexivity.
Qed.



Lemma converted_sources (source : list image) vals :
  Forall2 (converted env) source vals ->
  exists stereo,
    Forall2 (fun f s => convert env (jpeg env f) = Ok s) source stereo /\
    vals = jpeg env <$> stereo.
Proof.
  induction 1 as [| f v source vals (s & Hs & ->) _ (stereo & Hall & ->)].
  - exists []. split; [constructor | reflexivity].
  - exists (s :: stereo). split; [constructor; assumption | reflexivity].
Qed.

(** What a run that succeeds needs. *)
Lemma success_requires input_path output_path settings
    (progress_callback : bool) w out t m w' :
  process_video env input_path output_path settings progress_callback w
    = (Succeeded out t m, w') ->
  let cap := capture env input_path in
  let size := Encoder._get_output_resolution (resolution settings) in
  dependencies_available env = true /\ mkdtemp_error env = None /\
  cap_frames cap <> [] /\
  (progress_callback = true -> cap_frame_count cap <> 0) /\
  exists stereo rate picture,
    Forall2 (fun f s => convert env (jpeg env f) = Ok s)
      (cap_frames cap) stereo /\
    Encoder.effective_bitrate (quality settings) (resolution settings)
      = Ok rate /\
    encode_error env
      {| video_frames := jpeg env <$> stereo; video_width := size.1;
         video_height := size.2; video_bitrate := rate;
         video_framerate := frame_rate settings |} = None /\
    thumbnail env
      {| thumb_input := input_path; thumb_ss := "10%"; thumb_vframes := 1;
         thumb_format := "image2";
         thumb_output := Workspace_path "thumbnail.jpg" |} = Ok picture.
Proof.
  intros Hrun cap size.
  pose proof (frame_order_preserved env _ _ _ _ _ _ _ _ _ Hrun)
    as (video & Hvideo & Hvals).
  apply process_video_succeeded in Hrun
    as (Hdeps & Hmk & _ & w2 & w3 & w4 & w5 & H1 & H2 & H3 & H4 & _ & ->).
  apply extract_frames_ok in H1 as [Hcount ->]. fold cap in Hcount, H2, Hvals.
  eapply process_frames_ok in H2; [| reflexivity].
  destruct H2 as (stereo' & Hconv & ->).
  apply converted_sources in Hvals as (stereo & Hall & Hframes).
  assert (cap_frames cap <> []) as Hne.
  { intros Hnil. rewrite Hnil in H3.
    unfold _generate_vr180_video, mbind, M_bind, get_workspace in H3.
    cbn [workspace files reports ws_frames ws_processed fmap list_fmap
         Naming.store_frames] in H3.
    unfold listdir at 2 in H3. rewrite map_to_list_empty in H3.
    cbn [fmap list_fmap] in H3.
    change (Naming.frame_files []) with (@nil string) in H3.
    cbn [zip zip_with Naming.store_named] in H3.
    unfold listdir in H3. rewrite map_to_list_empty in H3.
    cbn [fmap list_fmap] in H3.
    change (Naming.frame_files []) with (@nil string) in H3.
    discriminate. }
  split; [exact Hdeps |]. split; [exact Hmk |]. split; [exact Hne |].
  split; [intros Hcb; apply Hcount; assumption |].
  destruct (effective_bitrate_ok (quality settings) (resolution settings))
    as [rate Hrate].
  (* the encoder accepted the video it was given *)
  set (w3 := {| workspace := _; files := _; reports := _ |}) in H3.
  assert (exists ws3, workspace w3 = Some ws3) as [ws3 Hws3]
    by (eexists; reflexivity).
  destruct (Naming.frame_files (listdir (ws_processed ws3)))
    as [| first rest] eqn:Hfiles.
  { unfold _generate_vr180_video, mbind, M_bind, get_workspace in H3.
    rewrite Hws3, Hfiles in H3. discriminate. }
  destruct (Naming.image2_sequence (ws_processed ws3)) as [frames | e]
    eqn:Hseq.
  2:{ unfold _generate_vr180_video, mbind, M_bind, get_workspace in H3.
      rewrite Hws3, Hfiles in H3. unfold mret, M_ret in H3.
      unfold Encoder.effective_bitrate in Hrate.
      destruct (Encoder._get_output_resolution _) as [ow oh].
      unfold lift in H3. rewrite Hrate, Hseq in H3. discriminate. }
  rewrite (generate_video_run output_path settings progress_callback
             w3 ws3 frames rate Hws3) in H3;
    [| rewrite Hfiles; discriminate | exact Hseq | exact Hrate].
  fold size in H3.
  destruct (encode_error env _) as [e |] eqn:Henc; [discriminate |].
  injection H3 as <-.
  apply generate_thumbnail_ok in H4 as Hkeep. destruct Hkeep as [Hf5 _].
  cbn [remove_workspace files] in Hvideo. rewrite Hf5 in Hvideo.
  cbn [files] in Hvideo. rewrite lookup_insert_eq in Hvideo.
  injection Hvideo as <-. cbn [video_frames] in Hframes. subst frames.
  unfold _generate_thumbnail, mbind, M_bind, lift in H4.
  destruct (thumbnail env _) as [picture |] eqn:Hthumb; [| discriminate].
  exists stereo, rate, picture. repeat split; assumption.
Qed.


End SuccessFacts.

Section ReportFacts.
Import Pipeline.
Context {image : Type}.
Variable env : @Env image.
Implicit Types (w : @World image).

Lemma processing_below_80 (n i : nat) :
  (i < n)%nat ->
  (20 + (inject_Z (0 + Z.of_nat i) / inject_Z (Z.of_nat n)) * 60 < 80)%Q.
Proof.
  intros Hi.
  assert (exists p, Z.of_nat n = Zpos p) as [p Hp]
    by (destruct n; [lia | eexists; reflexivity]).
  rewrite Hp, Z.add_0_l.
  assert (Z.of_nat i < Zpos p) as Hlt by lia.
  cbv [Qlt Qplus Qmult Qdiv Qinv inject_Z Qnum Qden].
  rewrite ?Pos.mul_1_l, ?Pos.mul_1_r, ?Z.mul_1_r. lia.
Qed.

(** A successful run with a callback makes [2 n + 1] reports for [n]
    frames: [n] of the extraction, [n] of the processing, and 100 from
    the encoder. The processing reports start at 20 and stay below 80:
    nothing between the last of them and 100 is ever reported. *)
Theorem reports_of_successful_run input_path output_path settings w
    out thumbnail_path metadata w' :
  process_video env input_path output_path settings true w
    = (Succeeded out thumbnail_path metadata, w') ->
  let cap := capture env input_path in
  let n := length (cap_frames cap) in
  exists extraction processing,
    reports w' =
      reports w ++ extraction ++ processing ++
      [(100%Q, "Video generation completed")] /\
    extraction = extraction_reports (cap_frame_count cap) 0 n /\
    processing = processing_reports (Z.of_nat n) 0 n /\
    length (extraction ++ processing) = (2 * n)%nat /\
    (0 < n)%nat /\
    (exists rest,
       processing = (20 + 0 / inject_Z (Z.of_nat n) * 60,
                     "Processing frames for VR 180°")%Q :: rest) /\
    Forall (fun r => (r.1 < 80)%Q) processing.
Proof.
  intros Hrun cap n.
  pose proof (reports_of_success env _ _ _ _ _ _ _ _ Hrun) as Hreports.
  pose proof (success_requires env _ _ _ _ _ _ _ _ _ Hrun)
    as (_ & _ & Hne & _).
  cbv zeta in Hreports. fold cap in Hreports, Hne. fold n in Hreports.
  assert (0 < n)%nat as Hn
    by (unfold n; destruct (cap_frames cap); [congruence | simpl; lia]).
  clearbody n cap.
  eexists _, _. split; [exact Hreports |].
  split; [reflexivity |]. split; [reflexivity |].
  split.
  { unfold extraction_reports, processing_reports.
    rewrite length_app, !length_fmap, !length_seq. lia. }
  split; [exact Hn |]. split.
  { destruct n as [| n']; [lia |]. eexists.
    rewrite processing_reports_cons. reflexivity. }
  unfold processing_reports. rewrite Forall_fmap, Forall_forall.
  intros i Hi. apply elem_of_seq in Hi. simpl.
  apply processing_below_80. lia.
Qed.
End ReportFacts.

(** ** Shapes, still frames and constant depth *)

Section StereoShapes.
Import Depth Stereo.
Context {pixel : Type}.
Local Abbreviation image := (list (list pixel)).
Implicit Types (frame left right : image).

Lemma hstack_shape h w (a b : image) :
  has_shape h w a -> has_shape h w b -> has_shape h (w + w) (hstack a b).
Proof.
  intros [Ha Haw] [Hb Hbw]. unfold hstack. split.
  - rewrite length_zip_with. lia.
  - rewrite Forall_lookup. intros y row Hrow.
    apply lookup_zip_with_Some in Hrow as (ra & rb & -> & Hra & Hrb).
    rewrite Forall_lookup in Haw. rewrite Forall_lookup in Hbw.
    rewrite length_app, (Haw _ _ Hra), (Hbw _ _ Hrb). reflexivity.
Qed.

Lemma vstack_shape h w (a b : image) :
  has_shape h w a -> has_shape h w b -> has_shape (h + h) w (vstack a b).
Proof.
  intros [Ha Haw] [Hb Hbw]. unfold vstack. split.
  - rewrite length_app. lia.
  - apply Forall_app. split; assumption.
Qed.

(** The stereo frame is twice as wide as the frame in side-by-side
    mode and twice as high in every other mode: a mode that is neither
    of the two the validator knows is rendered top-bottom. *)
Theorem stereo_frame_shape (self : Service) frame
    (depth_map : list (list Q)) (settings : ConversionSettings) :
  let h := height frame in
  let w := width frame in
  has_shape h w frame -> has_shape h w depth_map -> in_unit depth_map ->
  exists stereo_frame,
    _generate_stereo_pair self frame depth_map settings = Ok stereo_frame /\
    (stereo_mode settings = "side-by-side" ->
     has_shape h (w + w) stereo_frame) /\
    (stereo_mode settings <> "side-by-side" ->
     has_shape (h + h) w stereo_frame).
Proof.
  intros h w Hf Hd Hunit.
  destruct (stereo_views_splat frame depth_map Hf Hd Hunit)
    as (left & right & Hrun & Hl & Hr & _).
  unfold _generate_stereo_pair. rewrite Hrun. cbn [bind].
  destruct (String.eqb_spec (stereo_mode settings) "side-by-side")
    as [Hmode | Hmode]; eexists; (split; [reflexivity |]); split;
    intros Hm; try contradiction.
  - apply hstack_shape; assumption.
  - apply vstack_shape; assumption.
Qed.

(** *** Frames without parallax *)

Lemma Qint_zero (q : Q) : (q == 0)%Q -> Qint q = 0.
Proof.
  unfold Qeq, Qint. simpl. intros H.
  replace (Qnum q) with 0 by lia. reflexivity.
Qed.

Lemma last_write_wins_still (dir : Z) (shifts : nat -> Z) (w : nat)
    (frow : list pixel) (c : nat) (v : option pixel) :
  (forall x, shifts x = 0) ->
  last_write_wins dir shifts w frow c v -> v = frow !! c.
Proof.
  intros Hz [(x & _ & Hdest & _ & ->) | [_ ->]]; [| reflexivity].
  rewrite Hz in Hdest. f_equal. lia.
Qed.

Lemma same_pixels h w (a b : image) :
  has_shape h w a -> has_shape h w b ->
  (forall y c, (y < h)%nat -> (c < w)%nat -> at2 a y c = at2 b y c) ->
  a = b.
Proof.
  intros [Ha Haw] [Hb Hbw] Hsame.
  rewrite Forall_lookup in Haw. rewrite Forall_lookup in Hbw.
  apply list_eq_same_length with h; [assumption | assumption |].
  intros y ra rb Hy Hra Hrb.
  apply list_eq_same_length with w; [eauto | eauto |].
  intros c pa pb Hc Hpa Hpb.
  specialize (Hsame y c Hy Hc). unfold at2 in Hsame.
  rewrite Hra, Hrb in Hsame. simpl in Hsame. congruence.
Qed.

(** A frame narrower than 20 pixels, or a depth map that is zero
    everywhere, gives two views equal to the frame: no pixel moves. *)
Theorem no_parallax frame (depth_map : list (list Q)) :
  has_shape (height frame) (width frame) frame ->
  has_shape (height frame) (width frame) depth_map ->
  in_unit depth_map ->
  (width frame < 20)%nat \/ Forall (Forall (fun d => d == 0)%Q) depth_map ->
  stereo_views frame depth_map = Ok (frame, frame).
Proof.
  intros Hf Hd Hunit Hstill.
  destruct (stereo_views_splat frame depth_map Hf Hd Hunit)
    as (left & right & Hrun & Hl & Hr & Hsplat).
  set (h := height frame) in *. set (w := width frame) in *.
  assert (forall y x,
            shift_at shift_of depth_map (max_shift (Z.of_nat w)) y x = 0)
    as Hzero.
  { intros y x. unfold shift_at, shift_of. apply Qint_zero.
    destruct Hstill as [Hnarrow | Hflat].
    - rewrite max_shift_div by (change (2 ^ 53) with 9007199254740992; lia).
      rewrite Z.div_small by lia. apply Qmult_0_r.
    - unfold at2. destruct (depth_map !! y) as [drow |] eqn:Hy; simpl;
        [| apply Qmult_0_l].
      destruct (drow !! x) as [d |] eqn:Hx; simpl; [| apply Qmult_0_l].
      rewrite Forall_lookup in Hflat. specialize (Hflat _ _ Hy).
      rewrite Forall_lookup in Hflat. rewrite (Hflat _ _ Hx).
      apply Qmult_0_l. }
  assert (forall (view : image) dir,
            has_shape h w view ->
            (forall y c frow, frame !! y = Some frow -> (c < w)%nat ->
               last_write_wins dir
                 (shift_at shift_of depth_map (max_shift (Z.of_nat w)) y)
                 w frow c (at2 view y c)) ->
            view = frame) as Hview.
  { intros view dir Hv Hlww. apply (same_pixels h w); [exact Hv | exact Hf |].
    intros y c Hy Hc. destruct Hf as [Hfh _].
    destruct (lookup_lt_is_Some_2 frame y) as [frow Hrow];
      [unfold h, height in *; lia |].
    rewrite (last_write_wins_still _ _ _ _ _ _ (Hzero y)
               (Hlww y c frow Hrow Hc)).
    unfold at2. rewrite Hrow. reflexivity. }
  rewrite Hrun. f_equal. f_equal.
  - apply (Hview left (-1) Hl). intros y c frow Hy Hc.
    apply (Hsplat y c frow Hy Hc).
  - apply (Hview right 1 Hr). intros y c frow Hy Hc.
    apply (Hsplat y c frow Hy Hc).
Qed.

(** *** A constant raw depth *)



End StereoShapes.

(** ** The attributes of the service *)

Section EstimatorFacts.
Import Estimator.
Context {model transforms tensor pixel T : Type}.
Variable libs : @Libraries model transforms tensor pixel T.
Local Abbreviation image := (list (list pixel)).
Local Abbreviation service := (VideoProcessingService model transforms).
Implicit Types (s : service) (t : T).

(** Without [_midas_transforms] the estimator raises at line 255, and
    nothing is loaded or changed. *)
Lemma estimate_depth_stuck (frame : image) s t :
  _midas_transforms s = None ->
  _estimate_depth libs frame (s, t) = (Raise no_transforms, (s, t)).
Proof.
  intros H. unfold _estimate_depth, mbind, E_bind, self. cbn [fst snd].
  rewrite H. reflexivity.
Qed.

Lemma convert_frame_stuck settings (frame : image) s t :
  _midas_transforms s = None ->
  convert_frame libs settings frame (s, t) = (Raise no_transforms, (s, t)).
Proof.
  intros H. unfold convert_frame, mbind, E_bind.
  rewrite estimate_depth_stuck by exact H. reflexivity.
Qed.

Lemma device_cached s t d :
  _device s = Some d -> device libs (s, t) = (Ok d, (s, t)).
Proof.
  intros H. unfold device, mbind, E_bind, self. cbn [fst snd].
  rewrite H. reflexivity.
Qed.

Lemma midas_model_cached s t m :
  _midas_model s = Some m -> midas_model libs (s, t) = (Ok m, (s, t)).
Proof.
  intros H. unfold midas_model, mbind, E_bind, self. cbn [fst snd].
  rewrite H. reflexivity.
Qed.

(** What [device] leaves: the model and the transforms as they were. *)
Lemma device_run s t r s' t' :
  device libs (s, t) = (r, (s', t')) ->
  _midas_model s' = _midas_model s /\
  _midas_transforms s' = _midas_transforms s /\
  match r with
  | Ok d => _device s' = Some d
  | Raise _ => s' = s
  end.
Proof.
  unfold device, mbind, E_bind, self, call, assign, mret, E_ret.
  cbn [fst snd].
  destruct (_device s) as [d |] eqn:Hd; cbn [fst snd].
  - intros ?; simplify_eq. auto.
  - destruct (cuda_is_available libs t) as [[b | e] t1];
      intros ?; simplify_eq; cbn; auto.
Qed.

(** The first access of [midas_model], case by case. *)
Lemma midas_model_run s t r s' t' :
  _midas_model s = None ->
  midas_model libs (s, t) = (r, (s', t')) ->
  match r with
  | Ok m =>
      _midas_model s' = Some m /\ is_Some (_device s') /\
      is_Some (_midas_transforms s')
  | Raise _ =>
      s' = s \/
      (is_Some (_midas_model s') /\
       _midas_transforms s' = _midas_transforms s)
  end.
Proof.
  intros Hnone.
  unfold midas_model, mbind at 1, E_bind at 1, self. cbn [fst snd].
  rewrite Hnone.
  unfold mbind at 1, E_bind at 1, call at 1. cbn [fst snd].
  destruct (hub_load_model libs t) as [[m | e] t1];
    [| intros ?; simplify_eq; left; reflexivity].
  unfold mbind at 1, E_bind at 1, assign at 1. cbn [fst snd].
  set (s1 := {| _midas_model := Some m; _device := _device s;
                _midas_transforms := _midas_transforms s |}).
  unfold mbind at 1, E_bind at 1.
  destruct (device libs (s1, t1)) as [[d | e] [s2 t2]] eqn:Hdev.
  2:{ apply device_run in Hdev as (Hm & Htr & ->).
      intros ?; simplify_eq. right. split; [eexists; reflexivity |].
      reflexivity. }
  apply device_run in Hdev as (Hm & Htr & Hd).
  unfold mbind at 1, E_bind at 1, call at 1. cbn [fst snd].
  destruct (model_to libs m d t2) as [[[] | e] t3].
  2:{ intros ?; simplify_eq. right. rewrite Hm, Htr.
      split; [eexists; reflexivity | reflexivity]. }
  unfold mbind at 1, E_bind at 1, call at 1. cbn [fst snd].
  destruct (model_eval libs m t3) as [[[] | e] t4].
  2:{ intros ?; simplify_eq. right. rewrite Hm, Htr.
      split; [eexists; reflexivity | reflexivity]. }
  unfold mbind at 1, E_bind at 1, call at 1. cbn [fst snd].
  destruct (hub_load_transforms libs t4) as [[tr | e] t5].
  2:{ intros ?; simplify_eq. right. rewrite Hm, Htr.
      split; [eexists; reflexivity | reflexivity]. }
  unfold mbind, E_bind, assign, mret, E_ret. cbn [fst snd].
  intros ?; simplify_eq. cbn. rewrite Hm, Hd.
  split; [reflexivity |]. split; eexists; reflexivity.
Qed.
End EstimatorFacts.

Section UniformFailure.
Import Pipeline.
Context {image : Type}.
Variable env : @Env image.
Implicit Types (w : @World image).

(** When the conversion raises the same exception on every frame, a run
    on a source with a frame fails with that exception's message on
    the first frame it processes. *)
Lemma conversion_always_failing input_path output_path settings
    (progress_callback : bool) w e :
  dependencies_available env = true -> mkdtemp_error env = None ->
  cap_frames (capture env input_path) <> [] ->
  (progress_callback = true -> cap_frame_count (capture env input_path) <> 0) ->
  (forall frame, convert env frame = Raise e) ->
  exists w',
    process_video env input_path output_path settings progress_callback w
      = (Failed (exn_msg e), w') /\
    workspace w' = None /\ files w' = files w.
Proof.
  intros Hdeps Hmk Hne Hcount Hfail.
  destruct (stage_failures env input_path output_path settings
              progress_callback w Hdeps) as (_ & Hstages & _).
  destruct (Hstages Hmk) as (_ & Hprocess & _).
  set (source := cap_frames (capture env input_path)) in *.
  set (dir := Naming.store_frames 0 (jpeg env <$> source) ∅).
  assert (exists w2,
            _extract_frames env input_path progress_callback (start_world w)
              = (Ok (), w2) /\
            workspace w2 =
              Some {| ws_frames := dir; ws_processed := ∅;
                      ws_thumbnail := None |})
    as (w2 & H1 & Hws).
  { unfold _extract_frames, mbind, M_bind.
    rewrite read_loop_run by (intros Hcb _; apply Hcount; exact Hcb).
    eexists. split; reflexivity. }
  assert (exists first rest,
            Naming.frame_files (listdir dir) = first :: rest /\
            is_Some (dir !! first)) as (first & rest & Hnames & [f Hf]).
  { assert (Naming.frame_files (listdir dir)
              ≡ₚ Naming.frame_name <$> Naming.indices (length source))
      as Hperm.
    { unfold listdir, dir.
      rewrite (frame_files_permutation _ _ (store_frames_listing _)).
      rewrite length_fmap. reflexivity. }
    destruct (Naming.frame_files (listdir dir)) as [| first rest].
    - apply Permutation_nil_l in Hperm.
      destruct source; [congruence | discriminate].
    - exists first, rest. split; [reflexivity |].
      unfold dir. apply store_frames_names.
      rewrite length_fmap, <- Hperm. apply list_elem_of_here. }
  assert (exists w3, _process_frames_for_vr180 env progress_callback w2
                       = (Raise e, w3)) as [w3 H2].
  { unfold _process_frames_for_vr180, mbind at 1, M_bind at 1,
      get_workspace at 1.
    rewrite Hws. cbn [ws_frames]. rewrite Hnames. cbn [process_loop].
    unfold mbind at 1, M_bind at 1, get_workspace at 1. rewrite Hws.
    unfold mbind at 1, M_bind at 1, lift at 1. cbn [ws_frames].
    rewrite Hf.
    unfold mbind at 1, M_bind at 1, lift at 1. rewrite Hfail.
    eexists. reflexivity. }
  destruct (Hprocess w2 e w3 H1 H2) as [Hrun Hfiles].
  exists (remove_workspace w3).
  split; [exact Hrun |]. split; [reflexivity | exact Hfiles].
Qed.
End UniformFailure.

Section ServiceFacts.
Import Estimator.
Context {model transforms tensor pixel T : Type}.
Variable libs : @Libraries model transforms tensor pixel T.
Local Abbreviation image := (list (list pixel)).
Local Abbreviation service := (VideoProcessingService model transforms).
Implicit Types (s : service) (t : T).

(** A service on which nothing has read [midas_model] converts no
    frame: [_estimate_depth] reads [_midas_transforms], which only the
    first read of [midas_model] assigns, before it reads [midas_model].
    The run of [process_video] on a source with a frame fails with the
    [AttributeError], nothing is loaded, no file is written. *)
Theorem new_service_converts_nothing (env : @Pipeline.Env image)
    (settings : ConversionSettings) t input_path output_path
    (progress_callback : bool) (w : @Pipeline.World image) :
  (forall frame,
     Pipeline.convert env frame
       = (convert_frame libs settings frame (__init__, t)).1) ->
  Pipeline.dependencies_available env = true ->
  Pipeline.mkdtemp_error env = None ->
  Pipeline.cap_frames (Pipeline.capture env input_path) <> [] ->
  (progress_callback = true ->
   Pipeline.cap_frame_count (Pipeline.capture env input_path) <> 0) ->
  (forall frame,
     convert_frame libs settings frame (__init__, t)
       = (Raise no_transforms, (__init__, t))) /\
  exists w',
    Pipeline.process_video env input_path output_path settings
      progress_callback w
      = (Pipeline.Failed (exn_msg no_transforms), w') /\
    Pipeline.workspace w' = None /\ Pipeline.files w' = Pipeline.files w.
Proof.
  intros Hconv Hdeps Hmk Hne Hcount.
  assert (forall frame,
            convert_frame libs settings frame (__init__, t)
              = (Raise no_transforms, (__init__, t))) as Hstuck
    by (intros frame; apply convert_frame_stuck; reflexivity).
  split; [exact Hstuck |].
  apply (conversion_always_failing env input_path output_path settings
           progress_callback w no_transforms);
    [assumption | assumption | assumption | assumption |].
  intros frame. rewrite Hconv, Hstuck. reflexivity.
Qed.

(** When the first read of [midas_model] raises, either nothing was
    assigned (loading the model failed, and the next read loads again),
    or the model stays cached without the transforms: every later read
    returns it at once and loads nothing, so the transforms are never
    loaded and every later depth estimation raises the
    [AttributeError]. *)
Theorem failed_model_setup_sticks s t e s' t' :
  _midas_model s = None -> _midas_transforms s = None ->
  midas_model libs (s, t) = (Raise e, (s', t')) ->
  s' = s \/
  exists m,
    _midas_model s' = Some m /\
    (forall t2, midas_model libs (s', t2) = (Ok m, (s', t2))) /\
    (forall (frame : image) t2,
       _estimate_depth libs frame (s', t2)
         = (Raise no_transforms, (s', t2))).
Proof.
  intros Hmodel Htr Hrun.
  apply midas_model_run in Hrun; [| exact Hmodel].
  destruct Hrun as [-> | [[m Hm] Hsame]]; [left; reflexivity | right].
  exists m. split; [exact Hm |]. split.
  - intros t2. apply midas_model_cached. exact Hm.
  - intros frame t2. apply estimate_depth_stuck. congruence.
Qed.

(** After a first read of [midas_model] that returns, the service is
    ready (model, device and transforms are set), later reads of
    [midas_model] and [device] return the cached values without a call
    of torch, and a depth estimation, whatever it returns, leaves the
    attributes as they are. *)
Theorem model_setup_once s t m s' t' :
  _midas_model s = None ->
  midas_model libs (s, t) = (Ok m, (s', t')) ->
  ready s' /\
  (forall t2, midas_model libs (s', t2) = (Ok m, (s', t2))) /\
  (exists d, forall t2, device libs (s', t2) = (Ok d, (s', t2))) /\
  (forall (frame : image) t2,
     (_estimate_depth libs frame (s', t2)).2.1 = s').
Proof.
  intros Hmodel Hrun.
  apply midas_model_run in Hrun; [| exact Hmodel].
  destruct Hrun as (Hm & [d Hd] & [tr Htr]).
  split.
  { split; [eexists; exact Hm |]. split; eexists; eassumption. }
  split; [intros t2; apply midas_model_cached; exact Hm |].
  split; [exists d; intros t2; apply device_cached; exact Hd |].
  intros frame t2.
  unfold _estimate_depth, mbind at 1, E_bind at 1, self. cbn [fst snd].
  rewrite Htr.
  unfold mbind at 1, E_bind at 1, mret at 1, E_ret at 1.
  unfold mbind at 1, E_bind at 1, call at 1. cbn [fst snd].
  destruct (apply_transforms libs tr frame t2) as [[x | e1] t3];
    [| reflexivity].
  unfold mbind at 1, E_bind at 1. rewrite (device_cached libs s' t3 d Hd).
  unfold mbind at 1, E_bind at 1, call at 1. cbn [fst snd].
  destruct (tensor_to libs x d t3) as [[input | e1] t4]; [| reflexivity].
  unfold mbind at 1, E_bind at 1.
  rewrite (midas_model_cached libs s' t4 m Hm).
  unfold mbind at 1, E_bind at 1, call at 1. cbn [fst snd].
  destruct (predict libs m input frame t4) as [[raw | e1] t5];
    reflexivity.
Qed.
End ServiceFacts.

(** ** The metadata of a probe *)

Section ProbeFacts.
Import Probe.
Context {V : Type}.
Variable float_of_str : string -> result spec_float.
Variable int_of_str : string -> result Z.
Variable eval : string -> result V.

Local Abbreviation metadata :=
  (_get_video_metadata float_of_str int_of_str eval).

(** A stream the search of line 395 passes over: a dictionary whose
    [codec_type] is not ['video']. *)
Local Abbreviation passed_over := (fun s : json =>
  exists d c, s = JDict d /\ d !! "codec_type" = Some c /\
              c <> JStr "video").

Lemma first_video_skips (pre rest : list json) :
  Forall passed_over pre ->
  first_video (pre ++ rest) = first_video rest.
Proof.
  induction 1 as [| s pre (d & c & -> & Hc & Hne) _ IH]; [reflexivity |].
  cbn [app first_video getitem]. rewrite Hc. cbn [bind].
  destruct c as [| | | | name | |]; try exact IH.
  destruct (String.eqb_spec name "video") as [-> | Hname];
    [congruence | exact IH].
Qed.

Lemma metadata_fields_streams (top : gmap string json) (streams v : json) :
  metadata_fields float_of_str int_of_str eval
    (JDict (<["streams" := streams]> top)) v
  = metadata_fields float_of_str int_of_str eval (JDict top) v.
Proof.
  unfold metadata_fields, getitem.
  rewrite lookup_insert_ne by discriminate. reflexivity.
Qed.

(** The metadata are those of the first stream whose [codec_type] is
    ['video']: the streams after it, whatever they are, and the streams
    before it, which the search passes over, change nothing. The
    result is what the probe with that stream alone gives. A probe
    whose format has no [bit_rate] gives the bitrate 0. *)
Theorem metadata_of_first_video_stream (top video : gmap string json)
    (before after : list json) :
  top !! "streams" = Some (JList (before ++ JDict video :: after)) ->
  Forall passed_over before ->
  video !! "codec_type" = Some (JStr "video") ->
  metadata (Ok (JDict top))
    = metadata (Ok (JDict (<["streams" := JList [JDict video]]> top))) /\
  (forall format m,
     top !! "format" = Some (JDict format) -> format !! "bit_rate" = None ->
     metadata (Ok (JDict top)) = Some m -> md_bitrate m = 0).
Proof.
  intros Hstreams Hbefore Hvideo.
  assert (first_video (before ++ JDict video :: after) = Ok (JDict video))
    as Hfirst.
  { rewrite first_video_skips by exact Hbefore.
    cbn [first_video getitem]. rewrite Hvideo. reflexivity. }
  assert (read_metadata float_of_str int_of_str eval (JDict top)
          = metadata_fields float_of_str int_of_str eval (JDict top)
              (JDict video)) as Hread.
  { unfold read_metadata. cbn [getitem]. rewrite Hstreams.
    cbn [bind iterate]. rewrite Hfirst. reflexivity. }
  split.
  - unfold _get_video_metadata. cbn [bind]. rewrite Hread.
    unfold read_metadata. cbn [getitem]. rewrite lookup_insert_eq.
    cbn [bind iterate first_video getitem]. rewrite Hvideo.
    cbn [bind String.eqb Ascii.eqb Bool.eqb].
    rewrite metadata_fields_streams. reflexivity.
  - intros format m Hformat Hrate. unfold _get_video_metadata.
    cbn [bind]. rewrite Hread. unfold metadata_fields. cbn [getitem].
    rewrite Hformat. cbn [bind get]. rewrite Hrate. cbn [default int].
    repeat match goal with
    | |- context [bind ?r _] =>
        lazymatch r with
        | Ok _ => cbn [bind]
        | _ => destruct r as [? | ?]; cbn [bind]; [| discriminate]
        end
    end.
    intros [= <-]. reflexivity.
Qed.

(** Without a video stream there are no metadata, and neither when a
    stream before the first video stream has no [codec_type] or is not
    a dictionary: line 395 raises, and [_get_video_metadata] returns
    the empty dictionary. *)
Theorem metadata_need_video_stream (top : gmap string json)
    (before after : list json) (bad : json) :
  Forall passed_over before ->
  (top !! "streams" = Some (JList before) \/
   (top !! "streams" = Some (JList (before ++ bad :: after)) /\
    match bad with
    | JDict d => d !! "codec_type" = None
    | _ => True
    end)) ->
  metadata (Ok (JDict top)) = None.
Proof.
  intros Hbefore Hcase. unfold _get_video_metadata, read_metadata.
  cbn [bind getitem].
  destruct Hcase as [Hstreams | [Hstreams Hbad]]; rewrite Hstreams;
    cbn [bind iterate].
  - rewrite <- (app_nil_r before), first_video_skips by exact Hbefore.
    reflexivity.
  - rewrite first_video_skips by exact Hbefore. cbn [first_video].
    destruct bad as [| | | | | | d]; try reflexivity.
    cbn [getitem]. rewrite Hbad. reflexivity.
Qed.
End ProbeFacts.

(** ** Chunks, truncation and file names *)

Section ChunkFacts.
Import Helpers.
Context {A : Type}.
Implicit Types (l lst : list A).

Lemma slice_prefix_bounds l (i k : nat) :
  slice l (Z.of_nat i) (Z.of_nat i + Z.of_nat k) = take k (drop i l).
Proof.
  unfold slice, slice_bound.
  destruct (Z.ltb_spec (Z.of_nat i) 0); [lia |].
  destruct (Z.ltb_spec (Z.of_nat i + Z.of_nat k) 0); [lia |].
  rewrite Nat2Z.id.
  replace (Z.to_nat (Z.of_nat i + Z.of_nat k)) with (i + k)%nat by lia.
  destruct (decide (length l <= i)%nat) as [Hle | Hgt].
  - rewrite (drop_ge l (Nat.min i (length l))) by lia.
    rewrite (drop_ge l i) by lia. rewrite !take_nil. reflexivity.
  - replace (Nat.min i (length l)) with i by lia.
    destruct (decide (i + k <= length l)%nat).
    + replace (Nat.min (i + k) (length l) - i)%nat with k by lia.
      reflexivity.
    + replace (Nat.min (i + k) (length l)) with (length l) by lia.
      rewrite !take_ge by (rewrite length_drop; lia). reflexivity.
Qed.

(** The chunks of a list, by recursion on the number of chunks. *)
Lemma chunks_concat (k : nat) (m : nat) l :
  (0 < k)%nat -> (length l <= m * k)%nat ->
  concat ((fun j : nat => take k (drop (j * k) l)) <$> seq 0 m) = l.
Proof.
  intros Hk. revert l. induction m as [| m IH]; intros l Hlen.
  - simpl in *. destruct l; [reflexivity | simpl in Hlen; lia].
  - cbn [seq fmap list_fmap concat]. rewrite seq_shift_fmap.
    etransitivity; [| apply (take_drop k l)]. f_equal.
    transitivity
      (concat ((fun j : nat => take k (drop (j * k) (drop k l)))
                 <$> seq 0 m));
      [| apply IH; rewrite length_drop; lia].
    f_equal. apply list_fmap_ext. intros _ j _.
    rewrite drop_drop. reflexivity.
Qed.

Lemma ceil_div_bounds (n k : Z) :
  0 <= n -> 0 < k ->
  let m := (n + k - 1) / k in
  0 <= m /\ n <= m * k /\ (m - 1) * k < n + (if n =? 0 then k else 0).
Proof.
  intros Hn Hk m.
  pose proof (Z.div_mod (n + k - 1) k ltac:(lia)) as Hdiv.
  pose proof (Z.mod_pos_bound (n + k - 1) k Hk) as Hmod.
  fold m in Hdiv.
  assert (0 <= m) by (apply Z.div_pos; lia).
  repeat split; [assumption | nia |].
  destruct (Z.eqb_spec n 0); nia.
Qed.

(** [chunk_list] with a positive size cuts the list into consecutive
    pieces: their concatenation is the list, there are [ceil(n / size)]
    of them, none is empty, and every piece but the last has exactly
    [size] elements. *)
Theorem chunk_list_partition lst (chunk_size : Z) :
  0 < chunk_size ->
  exists chunks,
    chunk_list lst chunk_size = Ok chunks /\
    concat chunks = lst /\
    Z.of_nat (length chunks)
      = (Z.of_nat (length lst) + chunk_size - 1) / chunk_size /\
    Forall (fun c => 0 < Z.of_nat (length c) <= chunk_size) chunks /\
    (forall i c, chunks !! i = Some c -> (S i < length chunks)%nat ->
       Z.of_nat (length c) = chunk_size).
Proof.
  intros Hk. unfold chunk_list, py_range.
  destruct (Z.eqb_spec chunk_size 0); [lia |].
  destruct (Z.ltb_spec 0 chunk_size); [| lia].
  cbn [bind]. rewrite Z.sub_0_r.
  set (len := length lst).
  destruct (ceil_div_bounds (Z.of_nat len) chunk_size ltac:(lia) Hk)
    as (Hm0 & Hupper & Hlower).
  set (mz := (Z.of_nat len + chunk_size - 1) / chunk_size) in *.
  set (k := Z.to_nat chunk_size). set (m := Z.to_nat mz).
  assert (chunk_size = Z.of_nat k) as Hkz by lia.
  assert (mz = Z.of_nat m) as Hmz by lia.
  eexists. split; [reflexivity |].
  rewrite <- list_fmap_compose.
  assert (forall j : nat,
            ((fun i => slice lst i (i + chunk_size))
               ∘ (fun k0 : nat => 0 + Z.of_nat k0 * chunk_size)) j
            = take k (drop (j * k) lst)) as Hchunk.
  { intros j. unfold compose. rewrite Hkz.
    replace (0 + Z.of_nat j * Z.of_nat k) with (Z.of_nat (j * k)) by lia.
    apply slice_prefix_bounds. }
  rewrite (list_fmap_ext _ (fun j : nat => take k (drop (j * k) lst)))
    by (intros _ j _; apply Hchunk).
  split; [| split; [| split]].
  - apply chunks_concat; [lia | fold len; nia].
  - rewrite length_fmap, length_seq. lia.
  - rewrite Forall_fmap, Forall_forall. intros j Hj.
    apply elem_of_seq in Hj. simpl.
    rewrite length_take, length_drop. fold len.
    destruct (Z.eqb_spec (Z.of_nat len) 0) as [H0 | H0].
    + unfold mz in Hmz. rewrite H0, Z.div_small in Hmz by lia. lia.
    + assert (Z.of_nat j * chunk_size < Z.of_nat len) by nia.
      nia.
  - intros i c Hc Hi. rewrite length_fmap, length_seq in Hi.
    rewrite list_lookup_fmap in Hc.
    rewrite lookup_seq_lt in Hc by lia. simpl in Hc.
    injection Hc as <-. rewrite length_take, length_drop. fold len.
    destruct (Z.eqb_spec (Z.of_nat len) 0) as [H0 | H0].
    + unfold mz in Hmz. rewrite H0, Z.div_small in Hmz by lia. lia.
    + assert ((Z.of_nat i + 1) * chunk_size < Z.of_nat len) by nia.
      nia.
Qed.

(** With a size of zero [chunk_list] raises; with a negative size it
    returns no chunk at all, whatever the list holds. *)
Theorem chunk_list_no_chunks lst (chunk_size : Z) :
  chunk_size <= 0 ->
  chunk_list lst chunk_size =
    if chunk_size =? 0
    then Raise (Exn "ValueError" "range() arg 3 must not be zero")
    else Ok [].
Proof.
  intros Hk. unfold chunk_list, py_range.
  destruct (Z.eqb_spec chunk_size 0); [reflexivity |].
  destruct (Z.ltb_spec 0 chunk_size); [lia |].
  cbn [bind].
  assert ((0 - Z.of_nat (length lst) - chunk_size - 1) / - chunk_size < 1)
    as Hneg by (apply Z.div_lt_upper_bound; lia).
  replace (Z.to_nat ((0 - Z.of_nat (length lst) - chunk_size - 1)
                     / - chunk_size)) with 0%nat by lia.
  reflexivity.
Qed.
End ChunkFacts.

Section TextFacts.
Import Helpers Text.

Lemma chars_str (l : list ascii) : chars (str l) = l.
Proof. apply list_ascii_of_string_of_list_ascii. Qed.

Lemma str_chars (s : string) : str (chars s) = s.
Proof. apply string_of_list_ascii_of_string. Qed.

Lemma length_chars (s : string) : length (chars s) = String.length s.
Proof. induction s as [| c s IH]; simpl; congruence. Qed.

Lemma len_str (l : list ascii) : len (str l) = Z.of_nat (length l).
Proof. unfold len. rewrite <- length_chars, chars_str. reflexivity. Qed.

Lemma len_chars (s : string) : len s = Z.of_nat (length (chars s)).
Proof. unfold len. rewrite length_chars. reflexivity. Qed.

Lemma chars_app (s t : string) : chars (s +:+ t) = chars s ++ chars t.
Proof.
  induction s as [| c s IH]; simpl; [reflexivity |]. f_equal. exact IH.
Qed.

Lemma len_app (s t : string) : len (s +:+ t) = len s + len t.
Proof. rewrite !len_chars, chars_app, length_app. lia. Qed.

Lemma chars_inj (s t : string) : chars s = chars t -> s = t.
Proof.
  intros H. rewrite <- (str_chars s), <- (str_chars t), H. reflexivity.
Qed.

Lemma chars_empty (s : string) : chars s = [] -> s = "".
Proof. intros H. apply chars_inj. exact H. Qed.

(** [l[:hi]]. *)
Lemma slice_from_start {A} (l : list A) (hi : Z) :
  slice l 0 hi =
    take (if hi <? 0 then Z.to_nat (hi + Z.of_nat (length l))
          else Z.to_nat hi) l.
Proof.
  unfold slice, slice_bound. cbn [Z.ltb Z.compare Z.to_nat Nat.min].
  rewrite drop_0, Nat.sub_0_r.
  destruct (hi <? 0); [reflexivity |].
  destruct (decide (Z.to_nat hi <= length l)%nat).
  - rewrite Nat.min_l by lia. reflexivity.
  - rewrite Nat.min_r by lia. rewrite !take_ge by lia. reflexivity.
Qed.
End TextFacts.

Section TruncateFacts.
Import Helpers Text Files.

(** The result of [truncate_string] is within [max_length] exactly
    when the text is, or the suffix is: a suffix longer than
    [max_length] makes the result longer than [max_length]. When the
    suffix fits and the text does not, the result is the first
    [max_length - len(suffix)] characters of the text and the suffix,
    [max_length] characters in all. *)
Theorem truncate_string_length (text : string) (max_length : Z)
    (suffix : string) :
  let result := truncate_string text max_length suffix in
  (len result <= max_length <->
   len text <= max_length \/ len suffix <= max_length) /\
  (len text <= max_length -> result = text) /\
  (len suffix <= max_length < len text ->
   result = str (take (Z.to_nat (max_length - len suffix)) (chars text))
              +:+ suffix /\
   len result = max_length).
Proof.
  intros result. unfold result, truncate_string.
  assert (0 <= len suffix) as Hs by (unfold len; lia).
  destruct (Z.leb_spec (len text) max_length) as [Hfit | Hlong].
  - split; [split; [auto | intros _; exact Hfit] |].
    split; [reflexivity | lia].
  - unfold str_slice. rewrite slice_from_start.
    rewrite len_app, len_str, length_take.
    pose proof (len_chars text) as Hlen.
    destruct (Z.ltb_spec (max_length - len suffix) 0) as [Hneg | Hpos].
    + split; [split; [lia | intros [? | ?]; lia] |].
      split; [lia | lia].
    + split; [split; [lia | intros _; lia] |].
      split; [lia |]. intros _. split; [reflexivity | lia].
Qed.
End TruncateFacts.

Section SanitizeFacts.
Import Helpers Text Files.

Local Abbreviation safe := (fun c : ascii => c ∉ dangerous_chars).

Lemma chars_replace old new s :
  chars (replace old new s)
    = map (fun c => if Ascii.eqb c old then new else c) (chars s).
Proof. unfold replace. apply chars_str. Qed.

(** The loop of lines 135 and 136 leaves no dangerous character. *)
Lemma replaced_safe (todo : list ascii) (s : string) :
  "_"%char ∉ todo ->
  Forall (fun c => c ∉ todo)
    (chars (fold_left (fun f char => replace char "_" f) todo s)) /\
  forall (P : ascii -> Prop), P "_"%char -> Forall P (chars s) ->
    Forall P (chars (fold_left (fun f char => replace char "_" f) todo s)).
Proof.
  revert s. induction todo as [| d todo IH]; intros s Hnew; simpl.
  - split; [| auto]. apply Forall_forall. intros c _. apply not_elem_of_nil.
  - apply not_elem_of_cons in Hnew as [Hd Hnew].
    destruct (IH (replace d "_" s) Hnew) as [Hnone Hkeep].
    assert (Forall (fun c => c <> d) (chars (replace d "_" s))) as Hd'.
    { rewrite chars_replace, Forall_map. apply Forall_forall. intros c _.
      simpl. destruct (Ascii.eqb_spec c d); congruence. }
    split.
    + apply (Hkeep (fun c => c <> d)) in Hd'; [| congruence].
      rewrite Forall_forall in Hd', Hnone. apply Forall_forall.
      intros c Hc. apply not_elem_of_cons. split; auto.
    + intros P Hp Hs. apply Hkeep; [exact Hp |].
      rewrite chars_replace, Forall_map.
      eapply Forall_impl; [exact Hs |]. intros c Hc. simpl.
      destruct (Ascii.eqb c d); assumption.
Qed.

Lemma lstrip_Forall (P : ascii -> Prop) set l :
  Forall P l -> Forall P (lstrip set l).
Proof.
  induction 1 as [| c l Hc Hl IH]; simpl; [constructor |].
  destruct (bool_decide (c ∈ set)); [exact IH | constructor; assumption].
Qed.

Lemma strip_Forall (P : ascii -> Prop) set s :
  Forall P (chars s) -> Forall P (chars (strip set s)).
Proof.
  intros H. unfold strip. rewrite chars_str.
  apply Forall_rev, lstrip_Forall, Forall_rev, lstrip_Forall, H.
Qed.

Lemma rsplit1_Some sep l name ext :
  rsplit1 sep l = Some (name, ext) -> l = name ++ sep :: ext /\ sep ∉ ext.
Proof.
  revert name ext. induction l as [| c l IH]; intros name ext; simpl;
    [discriminate |].
  destruct (rsplit1 sep l) as [[name' ext'] |] eqn:Hrec.
  - intros [= <- <-]. destruct (IH _ _ eq_refl) as [-> Hno].
    split; [reflexivity | exact Hno].
  - destruct (Ascii.eqb_spec c sep) as [-> | Hne]; [| discriminate].
    intros [= <- <-]. split; [reflexivity |].
    clear IH. induction l as [| c' l IHl]; [apply not_elem_of_nil |].
    simpl in Hrec. destruct (rsplit1 sep l) as [[? ?] |]; [discriminate |].
    destruct (Ascii.eqb_spec c' sep); [discriminate |].
    apply not_elem_of_cons. split; [congruence | apply IHl; reflexivity].
Qed.

Lemma rsplit1_None sep l : rsplit1 sep l = None -> sep ∉ l.
Proof.
  induction l as [| c l IH]; simpl; [intros _; apply not_elem_of_nil |].
  destruct (rsplit1 sep l) as [[? ?] |]; [discriminate |].
  destruct (Ascii.eqb_spec c sep); [discriminate |]. intros _.
  apply not_elem_of_cons. split; [congruence | apply IH; reflexivity].
Qed.

Lemma rsplit1_last sep name ext :
  sep ∉ ext -> rsplit1 sep (name ++ sep :: ext) = Some (name, ext).
Proof.
  intros Hno.
  assert (rsplit1 sep ext = None) as Hext.
  { induction ext as [| c ext IH]; [reflexivity |]. simpl.
    apply not_elem_of_cons in Hno as [Hc Hno]. rewrite (IH Hno).
    destruct (Ascii.eqb_spec c sep); congruence. }
  induction name as [| c name IH]; simpl.
  - rewrite Hext, Ascii.eqb_refl. reflexivity.
  - rewrite IH. reflexivity.
Qed.

(** An extension is shorter than the name it is the extension of. *)
Lemma extension_shorter s : len (extension s) <= Z.max (len s - 1) 0.
Proof.
  unfold extension.
  destruct (rsplit1 "." (chars s)) as [[name ext] |] eqn:H.
  - apply rsplit1_Some in H as [H _]. rewrite len_str, (len_chars s), H.
    rewrite length_app. simpl. lia.
  - unfold len. simpl. lia.
Qed.

Lemma digit_safe (d : N) : (d < 10)%N -> safe (digit_char d).
Proof.
  intros Hd.
  assert (d = 0 \/ d = 1 \/ d = 2 \/ d = 3 \/ d = 4 \/ d = 5 \/ d = 6 \/
          d = 7 \/ d = 8 \/ d = 9)%N as Hcases by lia.
  repeat (destruct Hcases as [-> | Hcases];
          [apply (bool_decide_unpack _); vm_compute; exact I |]).
  subst d. apply (bool_decide_unpack _). vm_compute. exact I.
Qed.

Lemma string_of_digits_safe ds :
  Forall (fun d => d < 10)%N ds -> Forall safe (chars (string_of_digits ds)).
Proof.
  intros H. unfold string_of_digits. fold (str (map digit_char ds)).
  rewrite chars_str, Forall_map.
  eapply Forall_impl; [exact H |]. intros d Hd. apply digit_safe, Hd.
Qed.

Lemma str_int_safe n : Forall safe (chars (str_int n)).
Proof.
  unfold str_int. destruct n as [| p | p].
  - apply string_of_digits_safe, digits_small.
  - apply string_of_digits_safe, digits_small.
  - simpl. constructor.
    + apply (bool_decide_unpack _). vm_compute. exact I.
    + apply string_of_digits_safe, digits_small.
Qed.

Lemma str_eqb_empty (l : list ascii) :
  String.eqb (str l) "" = bool_decide (l = []).
Proof. destruct l; reflexivity. Qed.

Local Ltac short :=
  let H := fresh in
  intros H;
  match goal with
  | |- len (extension ?r) <= 254 =>
      pose proof (extension_shorter r); lia
  end.

(** The result of [sanitize_filename], whatever the name and the time. *)
Lemma sanitize_filename_result (now : Z) (filename : string) :
  let result := sanitize_filename now filename in
  result <> "" /\
  Forall (fun c => c ∉ dangerous_chars) (chars result) /\
  (len result <= 255 <-> len (extension result) <= 254).
Proof.
  intros result. unfold result, sanitize_filename. clear result.
  set (replaced := fold_left _ dangerous_chars filename) in *.
  assert (Forall safe (chars replaced)) as Hreplaced.
  { refine (proj1 (replaced_safe dangerous_chars filename _)).
    apply (bool_decide_unpack _). vm_compute. exact I. }
  set (stripped := strip " ." replaced) in *.
  assert (Forall safe (chars stripped)) as Hstripped
    by (apply strip_Forall; exact Hreplaced).
  set (named := if String.eqb stripped "" then _ else stripped) in *.
  assert (Forall safe (chars named) /\ named <> "") as [Hsafe Hnamed].
  { unfold named. destruct (String.eqb_spec stripped "") as [_ | Hne].
    - split; [| discriminate].
      rewrite chars_app. apply Forall_app. split; [| apply str_int_safe].
      apply (bool_decide_unpack _). vm_compute. exact I.
    - split; assumption. }
  clearbody named. clear replaced stripped Hreplaced Hstripped.
  destruct (Z.ltb_spec 255 (len named)) as [Hlong | Hfits].
  2:{ split; [exact Hnamed |]. split; [exact Hsafe |].
      split; [short | intros _; exact Hfits]. }
  destruct (rsplit1 "." (chars named)) as [[name ext] |] eqn:Hsplit.
  - apply rsplit1_Some in Hsplit as [Hparts Hno].
    assert (Forall safe name /\ Forall safe ext) as [Hname Hext].
    { rewrite Hparts in Hsafe. apply Forall_app in Hsafe as [? Hrest].
      apply Forall_cons in Hrest as [_ ?]. auto. }
    assert (len named = Z.of_nat (length name) + 1 + Z.of_nat (length ext))
      as Hlen.
    { rewrite len_chars, Hparts, length_app. simpl. lia. }
    rewrite str_eqb_empty in *. unfold str_slice in *.
    rewrite chars_str, slice_from_start in *.
    destruct ext as [| e ext'].
    + (* the name ends with a period *)
      cbn [bool_decide decide_rel] in *.
      rewrite bool_decide_eq_true_2 in * by reflexivity.
      cbn [Z.ltb Z.compare] in *.
      assert (String.append (str (take (Z.to_nat 255) name)) ""
                = str (take (Z.to_nat 255) name)) as Hnil.
      { apply chars_inj. rewrite chars_app. apply app_nil_r. }
      rewrite Hnil in *.
      assert (len (str (take (Z.to_nat 255) name)) = 255) as H255
        by (rewrite len_str, length_take; simpl in Hlen; lia).
      split; [| split; [| split; [short | lia]]].
      * intros H. rewrite H in H255. discriminate.
      * rewrite chars_str. apply Forall_take, Hname.
    + rewrite bool_decide_eq_false_2 in * by discriminate.
      rewrite len_str in *.
      set (keep := if _ <? 0 then _ else _) in *.
      set (result := str (take keep name) +:+ "." +:+ str (e :: ext')) in *.
      assert (chars result = take keep name ++ "."%char :: e :: ext')
        as Hchars.
      { unfold result. rewrite !chars_app, !chars_str. reflexivity. }
      split; [| split; [| split; [short |]]].
      * intros H. rewrite H in Hchars. simpl in Hchars.
        destruct (take keep name); discriminate.
      * rewrite Hchars. apply Forall_app. split; [apply Forall_take, Hname |].
        constructor; [| exact Hext].
        apply (bool_decide_unpack _). vm_compute. exact I.
      * unfold extension. rewrite Hchars, (rsplit1_last _ _ _ Hno).
        rewrite len_str. intros Hext254.
        rewrite len_chars, Hchars, length_app, length_take.
        cbn [length] in *. unfold keep.
        destruct (Z.ltb_spec (255 - Z.of_nat (S (length ext')) - 1) 0); lia.
  - apply rsplit1_None in Hsplit.
    change (String.eqb "" "") with true. cbn iota.
    unfold str_slice. rewrite slice_from_start. cbn [Z.ltb Z.compare].
    assert (String.append (str (take (Z.to_nat 255) (chars named))) ""
              = str (take (Z.to_nat 255) (chars named))) as Hnil.
    { apply chars_inj. rewrite chars_app. apply app_nil_r. }
    rewrite Hnil in *.
    assert (len (str (take (Z.to_nat 255) (chars named))) = 255) as H255
      by (rewrite len_str, length_take; rewrite len_chars in Hlong; lia).
    split; [| split; [| split; [short | lia]]].
    + intros H. rewrite H in H255. discriminate.
    + rewrite chars_str. apply Forall_take, Hsafe.
Qed.

(** [sanitize_filename] returns a name that is not empty and holds no
    dangerous character. The name has at most 255 characters exactly
    when its extension has at most 254: the limit of line 145 cuts the
    part before the last period only, and an extension that is too long
    for it is kept whole. *)
Theorem sanitize_filename_safe (now : Z) (filename : string) :
  let result := sanitize_filename now filename in
  result <> "" /\
  Forall (fun c => c ∉ dangerous_chars) (chars result) /\
  (len result <= 255 <-> len (extension result) <= 254).
Proof. exact (sanitize_filename_result now filename). Qed.
End SanitizeFacts.

Section MergeFacts.
Import Files.
Context {V : Type}.
Implicit Types (dicts : list (gmap string V)) (d : gmap string V).

Lemma merge_dicts_snoc dicts d :
  merge_dicts (dicts ++ [d]) = d ∪ merge_dicts dicts.
Proof. unfold merge_dicts. rewrite fold_left_app. reflexivity. Qed.

(** In the merged dictionary a key has the value of the last dictionary
    that holds it, and no value when none holds it. *)
Theorem merge_dicts_last_wins dicts (key : string) (v : V) :
  merge_dicts dicts !! key = Some v <->
  exists i d,
    dicts !! i = Some d /\ d !! key = Some v /\
    forall j d', (i < j)%nat -> dicts !! j = Some d' -> d' !! key = None.
Proof.
  induction dicts as [| d dicts IH] using rev_ind.
  - unfold merge_dicts. simpl. rewrite lookup_empty. split; [discriminate |].
    intros (i & d & Hd & _). rewrite lookup_nil in Hd. discriminate.
  - rewrite merge_dicts_snoc, lookup_union_Some_raw, IH. split.
    + intros [Hlast | [Hnone (i & d0 & Hi & Hv & Hlater)]].
      * exists (length dicts), d.
        split; [apply list_lookup_middle; reflexivity |].
        split; [exact Hlast |]. intros j d' Hj Hd'.
        apply lookup_lt_Some in Hd'. rewrite length_app in Hd'.
        simpl in Hd'. lia.
      * exists i, d0. split.
        { rewrite lookup_app_l by (eapply lookup_lt_Some; eauto). exact Hi. }
        split; [exact Hv |]. intros j d' Hj Hd'.
        destruct (decide (j < length dicts)%nat) as [Hin | Hout].
        -- rewrite lookup_app_l in Hd' by exact Hin. eauto.
        -- rewrite lookup_app_r in Hd' by lia.
           destruct (j - length dicts)%nat; [| destruct n; discriminate].
           injection Hd' as <-. exact Hnone.
    + intros (i & d0 & Hi & Hv & Hlater).
      destruct (decide (i < length dicts)%nat) as [Hin | Hout].
      * right. split.
        { apply (Hlater (length dicts) d); [exact Hin |].
          apply list_lookup_middle. reflexivity. }
        exists i, d0. rewrite lookup_app_l in Hi by exact Hin.
        split; [exact Hi |]. split; [exact Hv |].
        intros j d' Hj Hd'. apply (Hlater j d' Hj).
        rewrite lookup_app_l by (eapply lookup_lt_Some; eauto). exact Hd'.
      * left. rewrite lookup_app_r in Hi by lia.
        destruct (i - length dicts)%nat; [| destruct n; discriminate].
        injection Hi as <-. exact Hv.
Qed.
End MergeFacts.

Section ValidatorFacts.
Import Helpers Text Files Validators.

Lemma has_invalid_characters_false (filename : string) :
  has_invalid_characters filename = false <->
  Forall (fun c => c ∉ dangerous_chars) (chars filename).
Proof.
  unfold has_invalid_characters.
  induction (chars filename) as [| c l IH]; simpl.
  - split; [constructor | reflexivity].
  - rewrite orb_false_iff, IH, Forall_cons, bool_decide_eq_false.
    reflexivity.
Qed.

(** [validate_video_file] returns, and then returns its arguments,
    exactly when the name is not empty, has at most 255 characters and
    no dangerous one, the content type is one of the allowed formats
    and the size is positive and within the limit; otherwise it raises
    an error with status 400. *)
Theorem validate_video_file_accepts (settings : Settings)
    (filename content_type : string) (file_size : Z) :
  let accepted :=
    filename <> "" /\ len filename <= 255 /\
    Forall (fun c => c ∉ dangerous_chars) (chars filename) /\
    content_type ∈ allowed_video_formats settings /\
    0 < file_size <= max_file_size_bytes settings in
  (accepted ->
   validate_video_file settings filename content_type file_size
     = inr {| valid := true; valid_filename := filename;
              valid_content_type := content_type;
              valid_file_size := file_size |}) /\
  (~ accepted ->
   exists errors,
     errors <> [] /\
     validate_video_file settings filename content_type file_size
       = inl {| status_code := 400; detail := join "; " errors |}).
Proof.
  intros accepted. unfold accepted, validate_video_file, video_file_errors.
  destruct (String.eqb_spec filename "") as [Hempty | Hname].
  { split; [intros [H _]; contradiction |]. intros _. cbn [orb app].
    eexists. split; [| reflexivity]. discriminate. }
  destruct (Z.ltb_spec 255 (len filename)) as [Hlong | Hlen].
  { split; [intros (_ & H & _); lia |]. intros _. cbn [orb app].
    eexists. split; [| reflexivity]. discriminate. }
  cbn [orb app].
  destruct (has_invalid_characters filename) eqn:Hchars.
  { split.
    - intros (_ & _ & H & _). apply has_invalid_characters_false in H.
      congruence.
    - intros _. cbn [app]. eexists. split; [| reflexivity]. discriminate. }
  apply has_invalid_characters_false in Hchars. cbn [app].
  destruct (decide (content_type ∈ allowed_video_formats settings))
    as [Hin | Hout].
  2:{ rewrite bool_decide_eq_false_2 by exact Hout. split.
      - intros (_ & _ & _ & H & _). contradiction.
      - intros _. cbn [app]. eexists. split; [| reflexivity]. discriminate. }
  rewrite bool_decide_eq_true_2 by exact Hin. cbn [app].
  destruct (Z.leb_spec file_size 0) as [Hzero | Hpos].
  { split; [intros (_ & _ & _ & _ & H); lia |]. intros _.
    eexists. split; [| reflexivity]. discriminate. }
  destruct (Z.ltb_spec (max_file_size_bytes settings) file_size)
    as [Hbig | Hfits].
  { split; [intros (_ & _ & _ & _ & H); lia |]. intros _.
    eexists. split; [| reflexivity]. discriminate. }
  split; [reflexivity |]. intros Hnot. exfalso. apply Hnot.
  repeat split; try assumption; lia.
Qed.

(** A name from [sanitize_filename] whose extension has at most 254
    characters passes the two checks of the name: the errors of
    [validate_video_file] on it are those of the content type and of
    the size alone. *)
Theorem sanitized_name_validates (settings : Settings) (now : Z)
    (filename content_type : string) (file_size : Z) :
  let name := sanitize_filename now filename in
  len (extension name) <= 254 ->
  video_file_errors settings name content_type file_size =
    (if bool_decide (content_type ∈ allowed_video_formats settings)
     then [] else ["Unsupported video format: " +:+ content_type]) ++
    (if file_size <=? 0 then ["File size must be greater than 0"]
     else if max_file_size_bytes settings <? file_size
     then ["File size exceeds maximum limit of " +:+
             str_int (max_file_size_mb settings) +:+ "MB"]
     else []).
Proof.
  intros name Hext.
  destruct (sanitize_filename_result now filename) as (Hne & Hsafe & Hlen).
  fold name in Hne, Hsafe, Hlen. apply Hlen in Hext.
  unfold video_file_errors.
  destruct (String.eqb_spec name ""); [contradiction |].
  destruct (Z.ltb_spec 255 (len name)); [lia |].
  apply has_invalid_characters_false in Hsafe. rewrite Hsafe.
  reflexivity.
Qed.
End ValidatorFacts.

(** ** The processing time estimate *)

Section TimingFacts.
Import Timing.

Lemma dyadic_mantissa (p : positive) :
  let dp := Zpos (digits2_pos p) in
  dp <= 53 ->
  Zpos (Z.to_pos (Zpos p * 2 ^ (53 - dp))) = Zpos p * 2 ^ (53 - dp) /\
  Zpos (digits2_pos (Z.to_pos (Zpos p * 2 ^ (53 - dp)))) = 53.
Proof.
  intros dp Hdp.
  assert (0 < Zpos p * 2 ^ (53 - dp)) as Hpos
    by (apply Z.mul_pos_pos; [lia | apply Z.pow_pos_nonneg; lia]).
  split; [apply Z2Pos.id; exact Hpos |].
  rewrite digits2_pos_log2, Z2Pos.id by exact Hpos.
  rewrite Z.log2_mul_pow2 by lia.
  unfold dp. rewrite digits2_pos_log2. lia.
Qed.

Lemma float_of_int_dyadic (p : positive) :
  Zpos (digits2_pos p) <= 53 -> float_of_int (Zpos p) = Ok (dyadic p 0).
Proof.
  intros Hdp. destruct (float_of_int_exact p Hdp) as (mk & Hmk & ->).
  unfold dyadic. rewrite <- Hmk, Pos2Z.id. reflexivity.
Qed.

(** A product that fits 53 bits is exact. *)
Lemma SFmul_dyadic (a b : positive) (ea eb : Z) :
  Zpos (digits2_pos (a * b)) <= 53 ->
  -900 <= ea + eb <= 900 ->
  SFmul prec emax (dyadic a ea) (dyadic b eb) = dyadic (a * b) (ea + eb).
Proof.
  intros Hbits He.
  set (da := Zpos (digits2_pos a)). set (db := Zpos (digits2_pos b)).
  set (dab := Zpos (digits2_pos (a * b))) in *.
  assert (da = Z.log2 (Zpos a) + 1) as Hda by apply digits2_pos_log2.
  assert (db = Z.log2 (Zpos b) + 1) as Hdb by apply digits2_pos_log2.
  assert (dab = Z.log2 (Zpos (a * b)) + 1) as Hdab by apply digits2_pos_log2.
  assert (0 <= Z.log2 (Zpos a)) by apply Z.log2_nonneg.
  assert (0 <= Z.log2 (Zpos b)) by apply Z.log2_nonneg.
  assert (Z.log2 (Zpos a) + Z.log2 (Zpos b) <= Z.log2 (Zpos (a * b))
          <= Z.log2 (Zpos a) + Z.log2 (Zpos b) + 1) as Hlog.
  { rewrite Pos2Z.inj_mul. split.
    - apply Z.log2_mul_below; lia.
    - apply Z.log2_mul_above; lia. }
  destruct (dyadic_mantissa a ltac:(fold da; lia)) as [Hma _].
  destruct (dyadic_mantissa b ltac:(fold db; lia)) as [Hmb _].
  destruct (dyadic_mantissa (a * b) Hbits) as [Hmab Hdq].
  fold da in Hma. fold db in Hmb. fold dab in Hmab, Hdq.
  unfold dyadic. fold da db dab.
  set (ma := Z.to_pos (Zpos a * 2 ^ (53 - da))) in *.
  set (mb := Z.to_pos (Zpos b * 2 ^ (53 - db))) in *.
  set (q := Z.to_pos (Zpos (a * b) * 2 ^ (53 - dab))) in *.
  unfold SFmul. cbn [xorb].
  change (Z.add (ea + da - 53) (eb + db - 53))
    with ((ea + da - 53) + (eb + db - 53)).
  replace (Zpos (Pos.mul ma mb)) with (Zpos q * 2 ^ (53 + dab - da - db)).
  - rewrite binary_round_aux_exact by (try exact Hdq; lia).
    f_equal. lia.
  - rewrite Pos2Z.inj_mul, Hma, Hmb, Hmab, Pos2Z.inj_mul.
    replace (Zpos a * Zpos b * 2 ^ (53 - dab) * 2 ^ (53 + dab - da - db))
      with (Zpos a * Zpos b * (2 ^ (53 - dab) * 2 ^ (53 + dab - da - db)))
      by ring.
    rewrite <- Z.pow_add_r by lia.
    replace (Zpos a * 2 ^ (53 - da) * (Zpos b * 2 ^ (53 - db)))
      with (Zpos a * Zpos b * (2 ^ (53 - da) * 2 ^ (53 - db))) by ring.
    rewrite <- Z.pow_add_r by lia.
    do 2 f_equal. lia.
Qed.

(** Division by [1024 ** 3] moves the exponent. *)
Lemma SFdiv_gigabyte (p : positive) (e : Z) :
  Zpos (digits2_pos p) <= 53 -> -900 <= e <= 900 ->
  SFdiv prec emax (dyadic p e) (dyadic 1073741824 0) = dyadic p (e - 30).
Proof.
  intros Hbits He.
  destruct (dyadic_mantissa p Hbits) as [Hm Hd].
  set (dp := Zpos (digits2_pos p)) in *.
  unfold dyadic at 1 3. fold dp.
  set (m := Z.to_pos (Zpos p * 2 ^ (53 - dp))) in *.
  change (dyadic 1073741824 0)
    with (S754_finite false 4503599627370496 (-22)).
  unfold SFdiv. cbn [xorb].
  assert (SFdiv_core_binary prec emax (Zpos m) (e + dp - 53)
            4503599627370496 (-22)
          = (2 * Zpos m, e + dp - 53 - 31, loc_Exact)) as ->.
  { unfold SFdiv_core_binary.
    change (Zdigits2 (Zpos m)) with (Zpos (digits2_pos m)). rewrite Hd.
    change (Zdigits2 4503599627370496) with 53.
    change (Z.sub (Z.add 53 (e + dp - 53)) (Z.add 53 (-22)))
      with (53 + (e + dp - 53) - (53 + -22)).
    rewrite fexp_eq.
    change (Z.sub (e + dp - 53) (-22)) with (e + dp - 53 - -22).
    replace (Z.min (Z.max (53 + (e + dp - 53) - (53 + -22) - 53) (-1074))
               (e + dp - 53 - -22)) with (e + dp - 53 - 31) by lia.
    change (Z.sub (e + dp - 53 - -22) (e + dp - 53 - 31))
      with (e + dp - 53 - -22 - (e + dp - 53 - 31)).
    replace (e + dp - 53 - -22 - (e + dp - 53 - 31)) with 53 by lia.
    cbv iota.
    rewrite Z.shiftl_mul_pow2 by lia.
    pose proof (Z.div_eucl_eq (Zpos m * 2 ^ 53) 4503599627370496
                  ltac:(lia)) as Heq.
    pose proof (Z.mod_pos_bound (Zpos m * 2 ^ 53) 4503599627370496
                  ltac:(lia)) as Hmod.
    unfold Z.modulo in Hmod.
    destruct (Z.div_eucl (Zpos m * 2 ^ 53) 4503599627370496) as [q r].
    change (2 ^ 53) with (2 * 4503599627370496) in Heq.
    assert (r = 0 /\ q = 2 * Zpos m) as [-> ->] by lia.
    reflexivity. }
  replace (2 * Zpos m) with (Zpos m * 2 ^ 1) by lia.
  rewrite binary_round_aux_exact by (try exact Hd; lia).
  f_equal. lia.
Qed.

(** [int] of a dyadic number. *)
Lemma int_of_float_dyadic (p : positive) (e : Z) :
  Zpos (digits2_pos p) <= 53 -> e <= 0 ->
  int_of_float (dyadic p e) = Ok (Zpos p / 2 ^ (- e)).
Proof.
  intros Hbits He. destruct (dyadic_mantissa p Hbits) as [Hm _].
  set (dp := Zpos (digits2_pos p)) in *.
  assert (0 < dp) by (unfold dp; lia).
  unfold dyadic, int_of_float. fold dp. rewrite Hm. f_equal.
  destruct (Z.leb_spec 0 (e + dp - 53)) as [Hge | Hlt].
  - rewrite <- Z.mul_assoc, <- Z.pow_add_r by lia.
    replace (53 - dp + (e + dp - 53)) with e by lia.
    assert (e = 0) as -> by lia. simpl. rewrite Z.div_1_r. lia.
  - replace (- (e + dp - 53)) with ((53 - dp) + - e) by lia.
    rewrite Z.pow_add_r by lia.
    rewrite (Z.mul_comm (2 ^ (53 - dp)) (2 ^ (- e))).
    rewrite Z.div_mul_cancel_r; [reflexivity | |];
      apply Z.pow_nonzero; lia.
Qed.

Lemma multiplier_dyadic_quality quality :
  default float_1_0 (quality_multipliers !! quality)
    = dyadic (quality_fraction quality).1 (- (quality_fraction quality).2).
Proof.
  unfold quality_fraction, quality_multipliers.
  repeat (case_string_eqb; [reflexivity |]).
  repeat (rewrite lookup_insert_ne by congruence).
  rewrite lookup_empty. reflexivity.
Qed.

Lemma multiplier_dyadic_resolution resolution :
  default float_1_0 (resolution_multipliers !! resolution)
    = dyadic (resolution_fraction resolution).1
        (- (resolution_fraction resolution).2).
Proof.
  unfold resolution_fraction, resolution_multipliers.
  repeat (case_string_eqb; [reflexivity |]).
  repeat (rewrite lookup_insert_ne by congruence).
  rewrite lookup_empty. reflexivity.
Qed.

Lemma fraction_bounds_quality quality :
  let '(n, s) := quality_fraction quality in Zpos n <= 3 /\ 0 <= s <= 1.
Proof.
  unfold quality_fraction.
  repeat (destruct (String.eqb quality _); [simpl; lia |]). simpl. lia.
Qed.

Lemma fraction_bounds_resolution resolution :
  let '(n, s) := resolution_fraction resolution in
  Zpos n <= 5 /\ 0 <= s <= 1.
Proof.
  unfold resolution_fraction.
  repeat (destruct (String.eqb resolution _); [simpl; lia |]). simpl. lia.
Qed.

Lemma digits2_pos_bound (p : positive) (k : Z) :
  0 <= k -> Zpos p < 2 ^ k -> Zpos (digits2_pos p) <= k.
Proof.
  intros Hk H. rewrite digits2_pos_log2.
  assert (Z.log2 (Zpos p) < k) by (apply Z.log2_lt_pow2; lia). lia.
Qed.

(** For a file below a tebibyte the estimate is the exact one: five
    minutes a gibibyte, times the two multipliers, rounded down, and
    two minutes at least. The binary64 arithmetic loses nothing. *)
Theorem calculate_processing_time_exact (file_size : Z)
    (resolution quality : string) :
  0 <= file_size < 2 ^ 40 ->
  let '(qn, qs) := quality_fraction quality in
  let '(rn, rs) := resolution_fraction resolution in
  calculate_processing_time file_size resolution quality
    = Ok (Z.max (file_size * 5 * Zpos qn * Zpos rn / 2 ^ (30 + qs + rs)) 2).
Proof.
  intros Hsize.
  pose proof (multiplier_dyadic_quality quality) as Hq.
  pose proof (multiplier_dyadic_resolution resolution) as Hr.
  pose proof (fraction_bounds_quality quality) as Hqb.
  pose proof (fraction_bounds_resolution resolution) as Hrb.
  destruct (quality_fraction quality) as [qn qs].
  destruct (resolution_fraction resolution) as [rn rs].
  cbn [fst snd] in Hq, Hr. destruct Hqb as [Hqn Hqs], Hrb as [Hrn Hrs].
  unfold calculate_processing_time. rewrite Hq, Hr.
  change (1024 ^ 3) with 1073741824.
  unfold int_truediv. change (1073741824 =? 0) with false. cbv iota.
  change (float_of_int 5) with (Ok (dyadic 5 0)).
  change (float_of_int 1073741824) with (Ok (dyadic 1073741824 0)).
  destruct file_size as [| p | p]; [| | lia].
  - (* an empty file *)
    cbn [float_of_int binary_normalize bind]. unfold dyadic.
    cbn [SFdiv SFmul xorb int_of_float bind].
    rewrite Z.div_0_l by (apply Z.pow_nonzero; lia). reflexivity.
  - change (2 ^ 40) with 1099511627776 in Hsize.
    assert (forall k : positive, Zpos k <= 75 ->
              Zpos (digits2_pos (p * k)) <= 53) as Hbits.
    { intros k Hk. apply digits2_pos_bound; [lia |].
      rewrite Pos2Z.inj_mul. change (2 ^ 53) with 9007199254740992. nia. }
    assert (Zpos (digits2_pos p) <= 53) as Hp.
    { apply digits2_pos_bound; [lia |].
      change (2 ^ 53) with 9007199254740992. lia. }
    rewrite float_of_int_dyadic by exact Hp.
    cbn [bind].
    rewrite SFdiv_gigabyte by first [exact Hp | lia].
    rewrite SFmul_dyadic by first [lia | apply Hbits; lia].
    rewrite SFmul_dyadic
      by first [lia | rewrite <- Pos.mul_assoc; apply Hbits;
                      rewrite Pos2Z.inj_mul; nia].
    rewrite SFmul_dyadic
      by first [lia | rewrite <- !Pos.mul_assoc; apply Hbits;
                      rewrite !Pos2Z.inj_mul; nia].
    rewrite int_of_float_dyadic
      by first [lia | rewrite <- !Pos.mul_assoc; apply Hbits;
                      rewrite !Pos2Z.inj_mul; nia].
    cbn [bind]. rewrite !Pos2Z.inj_mul.
    replace (- (0 - 30 + 0 + - qs + - rs)) with (30 + qs + rs) by lia.
    reflexivity.
Qed.
End TimingFacts.

(** ** The added properties on concrete inputs *)

Section EdgeExamples.
Import Pipeline.

Lemma empty_source_fails_witness :
  process_video (test_env 0 [] 8 false false) "in.mp4" "out.mp4"
    test_settings true empty_world
  = (Failed "No processed frames found", empty_world).
Proof.
  exact (empty_source_fails (test_env 0 [] 8 false false) "in.mp4"
           "out.mp4" test_settings true empty_world eq_refl eq_refl eq_refl).
Defined.

Lemma zero_frame_count_fails_witness :
  process_video (test_env 0 [7; 8]%nat 99 false false) "in.mp4" "out.mp4"
    test_settings true empty_world
  = (Failed "division by zero", empty_world).
Proof.
  apply (zero_frame_count_fails (test_env 0 [7; 8]%nat 99 false false)
           "in.mp4" "out.mp4" test_settings empty_world eq_refl eq_refl
           eq_refl).
  discriminate.
Defined.


Lemma reports_of_successful_run_witness :
  let env := test_env 3 [7; 8; 9]%nat 99 false false in
  let run := process_video env "in.mp4" "out.mp4" test_settings true
               empty_world in
  length (reports run.2) = 7%nat.
Proof.
  intros env run.
  destruct (reports_of_successful_run env "in.mp4" "out.mp4" test_settings
              empty_world "out.mp4" (Workspace_path "thumbnail.jpg")
              (Some {| meta_duration := 1; meta_width := 640;
                       meta_height := 360; meta_fps := 30;
                       meta_bitrate := 0; meta_codec := "h264" |})
              run.2)
    as (extraction & processing & Hr & _ & _ & Hlen & _).
  - vm_compute. reflexivity.
  - rewrite Hr. cbn [reports empty_world app].
    rewrite app_assoc, length_app, Hlen. reflexivity.
Defined.
End EdgeExamples.

Section StereoShapeExamples.
Import Depth Stereo.

Lemma stereo_frame_shape_witness :
  exists stereo_frame,
    _generate_stereo_pair {| _device := None; _midas_model_loaded := false |}
      (ramp 40) step40 Pipeline.test_settings = Ok stereo_frame /\
    has_shape 1 80 stereo_frame.
Proof.
  assert (has_shape (height (ramp 40)) (width (ramp 40)) (ramp 40)) as Hf
    by (apply (bool_decide_unpack _); vm_compute; exact I).
  assert (has_shape (height (ramp 40)) (width (ramp 40)) step40) as Hd
    by (apply (bool_decide_unpack _); vm_compute; exact I).
  assert (in_unit step40) as Hu
    by (apply (bool_decide_unpack _); vm_compute; exact I).
  destruct (stereo_frame_shape
              {| _device := None; _midas_model_loaded := false |}
              (ramp 40) step40 Pipeline.test_settings Hf Hd Hu)
    as (stereo_frame & Hrun & Hside & _).
  exists stereo_frame. split; [exact Hrun |]. apply Hside. reflexivity.
Defined.

Lemma no_parallax_witness :
  stereo_views (ramp 19) (flat 19 1) = Ok (ramp 19, ramp 19).
Proof.
  apply (no_parallax (ramp 19) (flat 19 1)).
  - apply (bool_decide_unpack _); vm_compute; exact I.
  - apply (bool_decide_unpack _); vm_compute; exact I.
  - apply (bool_decide_unpack _); vm_compute; exact I.
  - left. vm_compute. lia.
Defined.

End StereoShapeExamples.

Section ServiceExamples.
Import Estimator.

Lemma new_service_converts_nothing_witness :
  exists w',
    Pipeline.process_video
      (service_env 2 Pipeline.test_settings [[[1; 2]]; [[3; 4]]])
      "in.mp4" "out.mp4" Pipeline.test_settings true
      {| Pipeline.workspace := None; Pipeline.files := ∅;
         Pipeline.reports := [] |}
    = (Pipeline.Failed (exn_msg no_transforms), w') /\
    Pipeline.workspace w' = None /\ Pipeline.files w' = ∅.
Proof.
  destruct (new_service_converts_nothing (test_libs 2)
              (service_env 2 Pipeline.test_settings [[[1; 2]]; [[3; 4]]])
              Pipeline.test_settings 0%nat "in.mp4" "out.mp4" true
              {| Pipeline.workspace := None; Pipeline.files := ∅;
                 Pipeline.reports := [] |})
    as [_ H].
  - intros frame. reflexivity.
  - reflexivity.
  - reflexivity.
  - discriminate.
  - intros _. discriminate.
  - exact H.
Defined.

(** The hub answers the first load and refuses the second: the model
    is cached, the transforms are missing for good. *)
Lemma failed_model_setup_sticks_witness :
  let s' := {| _midas_model := Some (); _device := Some "cpu";
               _midas_transforms := None |} in
  midas_model (test_libs 1) (__init__, 0%nat)
    = (Raise (Exn "HTTPError" "HTTP Error 403: rate limit exceeded"),
       (s', 2%nat)) /\
  (forall t2, midas_model (test_libs 1) (s', t2) = (Ok (), (s', t2))) /\
  (forall (frame : list (list Z)) t2,
     _estimate_depth (test_libs 1) frame (s', t2)
       = (Raise no_transforms, (s', t2))).
Proof.
  intros s'.
  assert (midas_model (test_libs 1) (__init__, 0%nat)
          = (Raise (Exn "HTTPError" "HTTP Error 403: rate limit exceeded"),
             (s', 2%nat))) as Hrun by reflexivity.
  split; [exact Hrun |].
  destruct (failed_model_setup_sticks (test_libs 1) __init__ 0%nat _ s'
              2%nat eq_refl eq_refl Hrun) as [Hsame | (m & _ & Hm & Hd)].
  - discriminate Hsame.
  - destruct m. split; [exact Hm | exact Hd].
Defined.

Lemma model_setup_once_witness :
  let s' := {| _midas_model := Some (); _device := Some "cpu";
               _midas_transforms := Some () |} in
  midas_model (test_libs 2) (__init__, 0%nat) = (Ok (), (s', 2%nat)) /\
  ready s' /\
  forall t2, midas_model (test_libs 2) (s', t2) = (Ok (), (s', t2)).
Proof.
  intros s'.
  assert (midas_model (test_libs 2) (__init__, 0%nat)
          = (Ok (), (s', 2%nat))) as Hrun by reflexivity.
  split; [exact Hrun |].
  destruct (model_setup_once (test_libs 2) __init__ 0%nat () s' 2%nat
              eq_refl Hrun) as (Hready & Hm & _).
  split; [exact Hready | exact Hm].
Defined.
End ServiceExamples.

Section HelperExamples.
Import Helpers Text Files Validators.

Lemma chunk_list_partition_witness :
  exists chunks,
    chunk_list [1; 2; 3; 4; 5] 2 = Ok chunks /\ concat chunks = [1; 2; 3; 4; 5].
Proof.
  destruct (chunk_list_partition [1; 2; 3; 4; 5] 2 ltac:(lia))
    as (chunks & Hrun & Hconcat & _).
  exists chunks. split; [exact Hrun | exact Hconcat].
Defined.

Lemma chunk_list_no_chunks_witness :
  chunk_list [1; 2; 3; 4; 5] (-2) = Ok [] /\
  chunk_list [1; 2; 3; 4; 5] 0
    = Raise (Exn "ValueError" "range() arg 3 must not be zero").
Proof.
  split.
  - exact (chunk_list_no_chunks [1; 2; 3; 4; 5] (-2) ltac:(lia)).
  - exact (chunk_list_no_chunks [1; 2; 3; 4; 5] 0 ltac:(lia)).
Defined.

Lemma sanitized_name_validates_witness :
  sanitize_filename 1700000000 "  my<clip>:1.mp4 " = "my_clip__1.mp4" /\
  video_file_errors default_settings
    (sanitize_filename 1700000000 "  my<clip>:1.mp4 ") "video/quicktime" 0
  = ["Unsupported video format: video/quicktime";
     "File size must be greater than 0"].
Proof.
  split; [vm_compute; reflexivity |].
  apply (sanitized_name_validates default_settings 1700000000
           "  my<clip>:1.mp4 " "video/quicktime" 0).
  apply Z.leb_le. vm_compute. reflexivity.
Defined.
End HelperExamples.

Section TimingExamples.
Import Timing.

(** Three gibibytes at [4K] and [high]: 3 * 5 * 1.5 * 2.5 = 56.25. *)
Lemma calculate_processing_time_exact_witness :
  calculate_processing_time 3221225472 "4K" "high" = Ok 56.
Proof.
  exact (calculate_processing_time_exact 3221225472 "4K" "high"
           ltac:(split; [discriminate | reflexivity])).
Defined.
End TimingExamples.

Section ProbeExamples.
Import Probe.

Lemma metadata_of_first_video_stream_witness :
  let read := _get_video_metadata (fun _ => Ok Depth.one32)
                (fun _ => Ok 0) (fun s => Ok s) in
  read (Ok (JDict (test_probe
                     [test_audio_stream; JDict test_video_stream; JNull])))
  = read (Ok (JDict (test_probe [JDict test_video_stream]))).
Proof.
  intros read.
  destruct (metadata_of_first_video_stream (fun _ => Ok Depth.one32)
              (fun _ => Ok 0) (fun s => Ok s)
              (test_probe
                 [test_audio_stream; JDict test_video_stream; JNull])
              test_video_stream [test_audio_stream] [JNull])
    as [H _].
  - reflexivity.
  - constructor; [| constructor].
    eexists _, (JStr "audio"). split; [reflexivity |].
    split; [reflexivity | discriminate].
  - reflexivity.
  - exact H.
Defined.

Lemma metadata_need_video_stream_witness :
  _get_video_metadata (fun _ => Ok Depth.one32) (fun _ => Ok 0)
    (fun s => Ok s)
    (Ok (JDict (test_probe
                  [test_audio_stream; JNull; JDict test_video_stream])))
  = None.
Proof.
  apply (metadata_need_video_stream (fun _ => Ok Depth.one32)
           (fun _ => Ok 0) (fun s => Ok s)
           (test_probe [test_audio_stream; JNull; JDict test_video_stream])
           [test_audio_stream] [JDict test_video_stream] JNull).
  - constructor; [| constructor].
    eexists _, (JStr "audio"). split; [reflexivity |].
    split; [reflexivity | discriminate].
  - right. split; [reflexivity | exact I].
Defined.
End ProbeExamples.

Section NormalizeFacts.
Import Depth.

(** A finite binary32 divided by itself is 1.0. *)
Lemma SFdiv_self (m : positive) (e : Z) :
  SFdiv prec32 emax32 (S754_finite false m e) (S754_finite false m e)
    = one32.
Proof.
  unfold SFdiv. cbn [xorb].
  assert (SFdiv_core_binary prec32 emax32 (Zpos m) e (Zpos m) e
          = (16777216, -24, loc_Exact)) as ->; [| reflexivity].
  unfold SFdiv_core_binary.
  assert (forall x : Z, IntDef.Z.sub x x = 0) as Hdiag
    by (intros x; apply Z.sub_diag).
  rewrite !Hdiag.
  change (Z.min (fexp prec32 emax32 0) 0) with (-24).
  change (IntDef.Z.sub 0 (-24)) with 24. cbv iota.
  rewrite Z.shiftl_mul_pow2 by lia.
  assert (Z.div_eucl (Zpos m * 2 ^ 24) (Zpos m) = (16777216, 0)) as ->.
  { pose proof (Z.div_mul (2 ^ 24) (Zpos m) ltac:(lia)) as Hq.
    pose proof (Z.mod_mul (2 ^ 24) (Zpos m) ltac:(lia)) as Hr.
    rewrite (Z.mul_comm (2 ^ 24)) in Hq, Hr.
    unfold Z.div in Hq. unfold Z.modulo in Hr.
    destruct (Z.div_eucl (Zpos m * 2 ^ 24) (Zpos m)) as [q r].
    rewrite Hq, Hr. reflexivity. }
  unfold new_location, new_location_even, new_location_odd.
  destruct (Z.even (Zpos m)); reflexivity.
Qed.

Lemma SFsub_finite_operands (x y : spec_float) s m e :
  SFsub prec32 emax32 x y = S754_finite s m e ->
  is_finite x = true /\ is_finite y = true.
Proof.
  destruct x as [[] | [] | | sx mx ex], y as [[] | [] | | sy my ey];
    try discriminate; intros _; split; reflexivity.
Qed.

(** On a map whose range [max - min] is a positive finite number (the
    values are not all equal and the difference does not overflow),
    normalization sends every entry that holds the minimum to 0.0 and
    every entry that holds the maximum to 1.0, and keeps the shape. *)
Theorem normalize_extremes (raw : depth_map) (lo hi : spec_float)
    (m : positive) (e : Z) :
  np_min raw = Ok lo -> np_max raw = Ok hi ->
  SFsub prec32 emax32 hi lo = S754_finite false m e ->
  exists out,
    normalize raw = Ok out /\
    length out = length raw /\
    forall y row x v,
      raw !! y = Some row -> row !! x = Some v ->
      exists orow o,
        out !! y = Some orow /\ length orow = length row /\
        orow !! x = Some o /\
        (v = lo -> o = S754_zero false) /\
        (v = hi -> o = one32).
Proof.
  intros Hlo Hhi Hrange.
  destruct (SFsub_finite_operands _ _ _ _ _ Hrange) as [_ Hfin].
  unfold normalize. rewrite Hlo, Hhi. cbn [bind]. rewrite Hrange.
  eexists. split; [reflexivity |].
  split; [apply length_map |].
  intros y row x v Hrow Hv. unfold depth_map in *.
  set (f := fun x0 : spec_float =>
              SFdiv prec32 emax32 (SFsub prec32 emax32 x0 lo)
                (S754_finite false m e)).
  exists (map f row), (f v).
  split.
  { change (map (map f) raw) with (map f <$> raw).
    rewrite list_lookup_fmap, Hrow. reflexivity. }
  split; [apply length_map |].
  split.
  { change (map f row) with (f <$> row).
    rewrite list_lookup_fmap, Hv. reflexivity. }
  unfold f. split.
  - intros ->. rewrite (SFsub_diag lo Hfin). reflexivity.
  - intros ->. rewrite Hrange. apply SFdiv_self.
Qed.
End NormalizeFacts.

Section NormalizeExamples.
Import Depth.

Lemma normalize_extremes_witness :
  exists out,
    normalize [[one32; two32]; [three32; one32]] = Ok out /\
    length out = 2%nat /\
    forall y row x v,
      [[one32; two32]; [three32; one32]] !! y = Some row ->
      row !! x = Some v ->
      exists orow o,
        out !! y = Some orow /\ length orow = length row /\
        orow !! x = Some o /\
        (v = one32 -> o = S754_zero false) /\
        (v = three32 -> o = one32).
Proof.
  exact (normalize_extremes [[one32; two32]; [three32; one32]]
           one32 three32 8388608 (-22) eq_refl eq_refl eq_refl).
Defined.
End NormalizeExamples.
